(** * tg_tsuhan_updater: the crawl / stage / diff / commit pipeline

    A shallow embedding of the three marketplace adapters
    (bot_lashinbang_crawler.py, bot_mercari_crawler.py, bot_yahoo_crawler.py)
    and of the scheduled entry point bot_autorun.py.

    Conventions of the embedding.
    - A SQLite table is the list of its rows in rowid order; the
      AUTOINCREMENT [id] column is read by no statement and is left out.
    - INTEGER columns and Python ints are [Z]; TEXT columns are [string].
    - REAL columns (timestamps) are rationals [Q]: every finite float is a
      rational and comparisons are the exact ones.  The single float
      operation of the code ([last - 60 * 60 * 24]) is the exact difference
      rounded to the nearest binary64 number, ties to even ([Binary64]).
      The two timestamp columns are NULL between the INSERT and the UPDATE
      of [_to_table], hence [option Q].
    - The thread pool is run sequentially, in submission order; the network
      is an oracle giving the outcome of the n-th request sent.  What is
      stated of an [as_completed] loop alone is stated for every order of
      completion.
    - Text rendering of the report ([get_message] after its call of
      [compare], and the missing [_split]) is left out: the report is the
      tuple of change sets. *)

From Stdlib Require Import List Ascii String ZArith QArith Qround Qabs Qpower.
From Stdlib Require Import Bool Permutation Lia.
Import ListNotations.

Close Scope Q_scope.
Local Open Scope string_scope.
Local Open Scope list_scope.
Local Open Scope Z_scope.

(** ** Python values shared by the adapters *)

Module Py.

(** The exception classes the adapters raise, catch or let through. *)
Inductive Exn : Type :=
| ValueError (msg : string)
| HTTPError
| Timeout
| StopIteration
| TypeError
| KeyError
| JSONDecodeError
| AttributeError
| IndexError
| DatabaseError.

Inductive result (A : Type) : Type :=
| Return (a : A)
| Raise (e : Exn).
Arguments Return {A} a.
Arguments Raise {A} e.

(** [range(n)] for a Python int [n]: empty when [n <= 0]. *)
Definition range (n : Z) : list Z := map Z.of_nat (seq 0 (Z.to_nat n)).

(** [len(xs)] as a Python int. *)
Definition len {A : Type} (xs : list A) : Z := Z.of_nat (List.length xs).

(** [s[9:-2]] *)
Definition slice_9_m2 (s : string) : string :=
  substring 9 (String.length s - 2 - 9)%nat s.

(** A dict with insertion order: [d[k] = v] keeps the position of a key
    that is already there. *)
Section Dict.
Context {K V : Type} (eqb : K -> K -> bool).

Fixpoint dict_set (k : K) (v : V) (d : list (K * V)) : list (K * V) :=
  match d with
  | [] => [(k, v)]
  | (k', v') :: d' =>
      if eqb k k' then (k, v) :: d' else (k', v') :: dict_set k v d'
  end.

Fixpoint dict_get (k : K) (d : list (K * V)) : option V :=
  match d with
  | [] => None
  | (k', v') :: d' => if eqb k k' then Some v' else dict_get k d'
  end.
End Dict.

End Py.

(** ** The fragment of SQL the adapters use *)

Module Sql.

Definition Qltb (x y : Q) : bool := negb (Qle_bool y x).

(** [col < ?] and [col >= ?] on a nullable REAL column: a NULL operand
    makes the comparison NULL, and WHERE drops the row. *)
Definition lt_param (col : option Q) (p : Q) : bool :=
  match col with Some u => Qltb u p | None => false end.

Definition ge_param (col : option Q) (p : Q) : bool :=
  match col with Some u => Qle_bool p u | None => false end.

Section Table.
Context {Row K : Type} (key : Row -> K) (eqb : K -> K -> bool).

(** [k IN (SELECT key FROM tbl)] *)
Definition key_in (k : K) (tbl : list Row) : bool :=
  existsb (fun r => eqb k (key r)) tbl.

(** [INSERT OR IGNORE INTO tbl VALUES r]: the UNIQUE constraint on the
    key column skips a row whose key is already in the table. *)
Definition insert_or_ignore (r : Row) (tbl : list Row) : list Row :=
  if key_in (key r) tbl then tbl else tbl ++ [r].

(** [UPDATE tbl SET ... WHERE key = k] *)
Definition update_where_key (k : K) (set : Row -> Row) (tbl : list Row)
  : list Row :=
  map (fun r => if eqb (key r) k then set r else r) tbl.

(** [executemany(UPDATE tbl SET ... = (?, ..) WHERE key = ?, query)]:
    one UPDATE per tuple of [query], in order. *)
Definition executemany_update {P : Type} (kof : P -> K)
    (set : P -> Row -> Row) (query : list P) (tbl : list Row)
  : list Row :=
  fold_left (fun t q => update_where_key (kof q) (set q) t) query tbl.

(** [executemany(INSERT OR IGNORE ..., data)]: rows are written one by
    one inside the open transaction; a row the engine cannot take
    (a parameter that cannot be bound, a locked or full database)
    stops the loop with an exception and leaves the rows written so
    far in the transaction. *)
Fixpoint executemany_insert {I : Type} (accepts : I -> bool)
    (mk : I -> Row) (data : list I) (tbl : list Row)
  : list Row * option Py.Exn :=
  match data with
  | [] => (tbl, None)
  | i :: rest =>
      if accepts i
      then executemany_insert accepts mk rest (insert_or_ignore (mk i) tbl)
      else (tbl, Some Py.DatabaseError)
  end.
End Table.

End Sql.

(** ** Python floats

    A finite float is the rational [m * 2 ^ e] with [|m| < 2 ^ 53] and
    [-1074 <= e <= 971].  An arithmetic operation gives the exact result
    rounded to the nearest such number, ties to the even significand.
    Results beyond the largest finite float ([inf] in Python) are outside
    of the rationals and of this model. *)

Module Binary64.

(** The [k] with [2 ^ k <= x < 2 ^ (k + 1)], for a positive [x]. *)
Definition floor_log2 (x : Q) : Z :=
  let k := Z.log2 (Qnum x) - Z.log2 (Zpos (Qden x)) in
  if Qle_bool (2 ^ k) x then k else k - 1.

(** The nearest integer, the even one of two at the same distance. *)
Definition nearest_even (x : Q) : Z :=
  let f := Qfloor x in
  match (x - inject_Z f ?= 1 # 2)%Q with
  | Lt => f
  | Gt => f + 1
  | Eq => if Z.even f then f else f + 1
  end.

(** The exponent of the last place of [x]: 53 significant bits, and the
    subnormal numbers share the exponent -1074. *)
Definition exponent (x : Q) : Z :=
  Z.max (floor_log2 (Qabs x) - 52) (-1074).

Definition round (x : Q) : Q :=
  if Qeq_bool x 0 then 0%Q
  else (inject_Z (nearest_even (x / 2 ^ exponent x)) * 2 ^ exponent x)%Q.

(** [x - y] on floats. *)
Definition sub (x y : Q) : Q := round (x - y).

(** The rationals that are finite floats. *)
Definition finite (x : Q) : Prop :=
  exists m e : Z,
    (x == inject_Z m * 2 ^ e)%Q /\ Z.abs m < 2 ^ 53 /\ -1074 <= e <= 971.

End Binary64.

(** ** bot_classutil: what the adapters inherit *)

Module Classutil.

(** The [info] dict of a manager. *)
Record Info : Type := mkInfo {
  info_site : string;
  info_time : Q;
  info_last : Q;
  info_error : Z;
  info_page : Z;
  info_count : Z;
  info_new : Z;
  info_discount : Z;
  info_sold : Z;
  info_bid : Z
}.

Definition set_site (v : string) (i : Info) : Info :=
  mkInfo v (info_time i) (info_last i) (info_error i) (info_page i)
    (info_count i) (info_new i) (info_discount i) (info_sold i) (info_bid i).
Definition set_error (v : Z) (i : Info) : Info :=
  mkInfo (info_site i) (info_time i) (info_last i) v (info_page i)
    (info_count i) (info_new i) (info_discount i) (info_sold i) (info_bid i).
Definition set_page (v : Z) (i : Info) : Info :=
  mkInfo (info_site i) (info_time i) (info_last i) (info_error i) v
    (info_count i) (info_new i) (info_discount i) (info_sold i) (info_bid i).
Definition set_count (v : Z) (i : Info) : Info :=
  mkInfo (info_site i) (info_time i) (info_last i) (info_error i)
    (info_page i) v (info_new i) (info_discount i) (info_sold i) (info_bid i).
Definition set_new (v : Z) (i : Info) : Info :=
  mkInfo (info_site i) (info_time i) (info_last i) (info_error i)
    (info_page i) (info_count i) v (info_discount i) (info_sold i)
    (info_bid i).
Definition set_discount (v : Z) (i : Info) : Info :=
  mkInfo (info_site i) (info_time i) (info_last i) (info_error i)
    (info_page i) (info_count i) (info_new i) v (info_sold i) (info_bid i).
Definition set_sold (v : Z) (i : Info) : Info :=
  mkInfo (info_site i) (info_time i) (info_last i) (info_error i)
    (info_page i) (info_count i) (info_new i) (info_discount i) v
    (info_bid i).
Definition set_bid (v : Z) (i : Info) : Info :=
  mkInfo (info_site i) (info_time i) (info_last i) (info_error i)
    (info_page i) (info_count i) (info_new i) (info_discount i)
    (info_sold i) v.

(** A row of the [log] table. *)
Record LogRow : Type := mkLogRow {
  log_site : string;
  log_time : Q;
  log_error : Z;
  log_page : Z;
  log_count : Z;
  log_new : Z;
  log_discount : Z;
  log_sold : Z
}.

(** The tables one manager touches: its staging table, its persistent
    table and the shared log. *)
Record Store (Row : Type) : Type := mkStore {
  temp : list Row;
  main : list Row;
  log : list LogRow
}.
Arguments mkStore {Row} _ _ _.
Arguments temp {Row} _.
Arguments main {Row} _.
Arguments log {Row} _.

(** A sqlite3 connection in the module's default transaction mode:
    [disk] is the committed database, [view] what the connection reads
    and writes; INSERT and UPDATE open a transaction implicitly. *)
Record Conn (Row : Type) : Type := mkConn {
  disk : Store Row;
  view : Store Row
}.
Arguments mkConn {Row} _ _.
Arguments disk {Row} _.
Arguments view {Row} _.

Definition connect {Row} (db : Store Row) : Conn Row := mkConn db db.
Definition commit {Row} (c : Conn Row) : Conn Row := mkConn (view c) (view c).
Definition rollback {Row} (c : Conn Row) : Conn Row :=
  mkConn (disk c) (disk c).
Definition execute {Row} (f : Store Row -> Store Row) (c : Conn Row)
  : Conn Row :=
  mkConn (disk c) (f (view c)).

Definition set_temp {Row} (t : list Row) (s : Store Row) : Store Row :=
  mkStore t (main s) (log s).
Definition set_main {Row} (t : list Row) (s : Store Row) : Store Row :=
  mkStore (temp s) t (log s).
Definition set_log {Row} (t : list LogRow) (s : Store Row) : Store Row :=
  mkStore (temp s) (main s) t.

(** What a crawler sends; the list of requests sent is kept in the
    crawler so that "before any network call" can be stated. *)
Inductive Request : Type :=
| AgeCheck
| Search (keyword : string) (page : Z).

(** Outcome of [self._s.get(...)] followed by [r.raise_for_status()]:
    a body, a 4xx/5xx status (raise_for_status raises
    [requests.HTTPError]), or no answer within [timeout]
    ([requests.Timeout], which is not a subclass of [HTTPError]). *)
Inductive Response (B : Type) : Type :=
| Body (b : B)
| BadStatus
| TimedOut.
Arguments Body {B} b.
Arguments BadStatus {B}.
Arguments TimedOut {B}.

(** CrawlerBase: the shared error counter and the session. *)
Record Crawler : Type := mkCrawler {
  error_count : Z;
  sent : list Request
}.

Definition count_error (c : Crawler) : Crawler :=
  mkCrawler (error_count c + 1) (sent c).
Definition record_request (rq : Request) (c : Crawler) : Crawler :=
  mkCrawler (error_count c) (sent c ++ [rq]).

(** Modelled from the spec: [CrawlerBase.__init__] is not among the
    sources; the error counter of a run starts at zero and nothing has
    been sent. *)
Definition new_crawler : Crawler := mkCrawler 0 [].

(** CrawlerManager: keywords, [info], the connection and the crawler. *)
Record Manager (Row : Type) : Type := mkManager {
  keywords : list string;
  info : Info;
  con : Conn Row;
  crawler : Crawler
}.
Arguments mkManager {Row} _ _ _ _.
Arguments keywords {Row} _.
Arguments info {Row} _.
Arguments con {Row} _.
Arguments crawler {Row} _.

Definition with_info {Row} (f : Info -> Info) (m : Manager Row)
  : Manager Row :=
  mkManager (keywords m) (f (info m)) (con m) (crawler m).
Definition with_con {Row} (f : Conn Row -> Conn Row) (m : Manager Row)
  : Manager Row :=
  mkManager (keywords m) (info m) (f (con m)) (crawler m).
Definition with_crawler {Row} (c : Crawler) (m : Manager Row)
  : Manager Row :=
  mkManager (keywords m) (info m) (con m) c.

(** Modelled from the spec: [CrawlerManager.__init__] and
    [_get_update_time] are not among the sources.  The manager opens the
    database, and [info] gets this run's timestamp [now] and the
    watermark [last], which the spec derives from the log alone
    ([watermark] is that derivation, left open). *)
Definition init_manager {Row} (watermark : string -> list LogRow -> Q)
    (now : Q) (site : string) (kws : list string) (db : Store Row)
  : Manager Row :=
  mkManager kws
    (mkInfo site now (watermark site (log db)) 0 0 0 0 0 0 0)
    (connect db) new_crawler.

(** Modelled from the spec: [check_exist] is not among the sources.
    With [overwrite] the staging relation of an earlier run is discarded,
    so that [_create_table] makes it anew and empty; without it an
    existing table is kept as it is. *)
Definition create_temp {Row} (c : Conn Row) : Conn Row :=
  commit (execute (set_temp []) c).

(** [_create_table(name)] for the persistent table: an existing table is
    kept with its rows; one that does not exist yet is created empty,
    which as a list of rows is no change. *)
Definition create_main {Row} (c : Conn Row) : Conn Row := commit c.

End Classutil.

(** ** bot_lashinbang_crawler.py *)

Module Lashinbang.
Import Py Classutil.

Definition MAX_PAGE_LIMIT : Z := 12.

(** The namedtuple [Item]; these are also the data columns of both
    tables. *)
Record Item : Type := mkItem {
  item_id : Z;
  title : string;
  item_url : string;
  image_url : string;
  price : Z
}.

Record Row : Type := mkRow {
  cols : Item;
  record_time : option Q;
  update_time : option Q
}.

Definition row_id (r : Row) : Z := item_id (cols r).

(** A row of the discount query: the persisted columns, the persisted
    price as [old] and the staged price as [new]. *)
Record Discount : Type := mkDiscount {
  d_item_id : Z;
  d_title : string;
  d_item_url : string;
  d_image_url : string;
  d_old : Z;
  d_new : Z
}.

(** One keyword's entry of the dict [get_many] returns:
    [{'pages': n, 1: text, 2: text, ...}], a failed page being [None]. *)
Record Pages : Type := mkPages {
  pages : Z;
  texts : list (Z * option string)
}.

(** What lines 175-194 of [get_item] do with one page: the items are
    appended, a [TypeError] or a [KeyError] of the [try] block is caught,
    anything else leaves [get_item]. *)
Inductive Decoded : Type :=
| Items (js : list Item)
| CaughtTypeError
| CaughtKeyError
| Uncaught (e : Exn).

Section World.
(** The network, the two parsers that the spec keeps outside the core,
    the database engine's acceptance of a row, the clock and the
    derivation of the watermark from the log. *)
Variable net : nat -> Request -> Response string.
Variable page_count : string -> option Z.
Variable decode : string -> Decoded.
Variable accepts : Item -> bool.
Variable watermark : string -> list LogRow -> Q.
Variable now : Q.

(** *** LashinbangCrawler *)

Definition pass_age_check (c : Crawler) : Crawler * result unit :=
  let c1 := record_request AgeCheck c in
  match net (List.length (sent c)) AgeCheck with
  | Body _ => (c1, Return tt)
  | BadStatus => (c1, Raise HTTPError)
  | TimedOut => (c1, Raise Timeout)
  end.

Definition get_one (c : Crawler) (keyword : string) (page : Z)
  : Crawler * result string :=
  if MAX_PAGE_LIMIT <? page then
    (count_error c, Raise (ValueError keyword))
  else
    let rq := Search keyword page in
    let c1 := record_request rq c in
    match net (List.length (sent c)) rq with
    | Body text => (c1, Return (slice_9_m2 text))
    | BadStatus => (count_error c1, Raise HTTPError)
    | TimedOut => (c1, Raise Timeout)
    end.

(** [executor.submit(self.get_one, kw, page)] for every job, each
    future keeping the value or the exception of its call. *)
Fixpoint submit_all (c : Crawler) (jobs : list (string * Z))
  : Crawler * list ((string * Z) * result string) :=
  match jobs with
  | [] => (c, [])
  | (kw, p) :: rest =>
      let (c1, r) := get_one c kw p in
      let (c2, rs) := submit_all c1 rest in
      (c2, ((kw, p), r) :: rs)
  end.

(** The first [as_completed] loop; [_get_page_count] raises
    [StopIteration] when the text has no ["last_page":] number. *)
Fixpoint first_pass (done : list ((string * Z) * result string))
    (res : list (string * Pages)) : result (list (string * Pages)) :=
  match done with
  | [] => Return res
  | ((kw, _), Return text) :: rest =>
      match page_count text with
      | Some n =>
          first_pass rest
            (dict_set String.eqb kw
               (mkPages (Z.min n MAX_PAGE_LIMIT) [(1, Some text)]) res)
      | None => Raise StopIteration
      end
  | ((kw, _), Raise _) :: rest =>
      first_pass rest
        (dict_set String.eqb kw (mkPages 1 [(1, None)]) res)
  end.

(** The jobs of the second round; every keyword is a key of [res]. *)
Definition second_jobs (kws : list string) (res : list (string * Pages))
  : list (string * Z) :=
  flat_map (fun kw =>
    match dict_get String.eqb kw res with
    | Some pg => map (fun i => (kw, i + 2)) (range (pages pg - 1))
    | None => []
    end) kws.

Fixpoint second_pass (done : list ((string * Z) * result string))
    (res : list (string * Pages)) : list (string * Pages) :=
  match done with
  | [] => res
  | ((kw, page), r) :: rest =>
      let text := match r with Return t => Some t | Raise _ => None end in
      second_pass rest
        match dict_get String.eqb kw res with
        | Some pg =>
            dict_set String.eqb kw
              (mkPages (pages pg) (dict_set Z.eqb page text (texts pg)))
              res
        | None => res
        end
  end.

Definition get_many (c : Crawler) (kws : list string)
  : Crawler * result (list (string * Pages)) :=
  match pass_age_check c with
  | (c0, Raise e) => (c0, Raise e)
  | (c0, Return _) =>
      let (c1, done1) := submit_all c0 (map (fun kw => (kw, 1)) kws) in
      match first_pass done1 [] with
      | Raise e => (c1, Raise e)
      | Return res =>
          let (c2, done2) := submit_all c1 (second_jobs kws res) in
          (c2, Return (second_pass done2 res))
      end
  end.

(** *** LashinbangManager *)

Definition new_manager (kws : list string) (db : Store Row)
  : Manager Row :=
  let m := init_manager watermark now "lashinbang" kws db in
  with_con create_temp (with_con create_main m).

Definition stage (i : Item) : Row := mkRow i None None.

Definition stamp (t : Q) (r : Row) : Row :=
  mkRow (cols r) (Some t) (Some t).

Definition _to_table (m : Manager Row) (data : list Item)
  : Manager Row * result unit :=
  match Sql.executemany_insert row_id Z.eqb accepts stage data
          (temp (view (con m))) with
  | (partial, Some exc) =>
      let m1 := with_con (execute (set_temp partial)) m in
      (with_con rollback m1, Raise exc)
  | (written, None) =>
      let m1 := with_con (execute (set_temp written)) m in
      let m2 :=
        with_con (execute (fun s =>
          set_temp (map (stamp (info_time (info m))) (temp s)) s)) m1 in
      (with_con commit m2, Return tt)
  end.

(** [raw[kw][p + 1]] for [kw] in [raw] and [p] in [range(pages)];
    a missing key is a [KeyError] inside the [try]. *)
Definition page_texts (raw : list (string * Pages))
  : list (option (option string)) :=
  flat_map (fun e =>
    map (fun p => dict_get Z.eqb (p + 1) (texts (snd e)))
        (range (pages (snd e)))) raw.

Definition load (cell : option (option string)) : Decoded :=
  match cell with
  | None => CaughtKeyError
  | Some None => CaughtTypeError
  | Some (Some text) => decode text
  end.

Fixpoint parse_pages (cells : list (option (option string)))
    (items : list Item) (err : Z) : result (list Item * Z) :=
  match cells with
  | [] => Return (items, err)
  | cell :: rest =>
      match load cell with
      | Items js => parse_pages rest (items ++ js) err
      | CaughtTypeError => parse_pages rest items err
      | CaughtKeyError => parse_pages rest items (err + 1)
      | Uncaught e => Raise e
      end
  end.

Definition get_item (m : Manager Row) : Manager Row * result unit :=
  match get_many (crawler m) (keywords m) with
  | (c, Raise e) => (with_crawler c m, Raise e)
  | (c, Return raw) =>
      let m1 := with_crawler c m in
      let m2 :=
        with_info (set_page
          (fold_right Z.add 0 (map (fun e => pages (snd e)) raw))) m1 in
      let m3 := with_info (set_error (error_count c)) m2 in
      match parse_pages (page_texts raw) [] (info_error (info m3)) with
      | Raise e => (m3, Raise e)
      | Return (items, err) =>
          let m4 := with_info (set_error err) m3 in
          let m5 := with_info (set_count (len items)) m4 in
          _to_table m5 items
      end
  end.

Definition select_new (last : Q) (t l : list Row) : list Item :=
  map cols
    (filter (fun r =>
       negb (Sql.key_in row_id Z.eqb (row_id r) l)
       || Sql.key_in row_id Z.eqb (row_id r)
            (filter (fun x => Sql.lt_param (update_time x) last) l)) t).

Definition select_discount (t l : list Row) : list Discount :=
  flat_map (fun tr =>
    map (fun lr =>
           mkDiscount (row_id lr) (title (cols lr)) (item_url (cols lr))
             (image_url (cols lr)) (price (cols lr)) (price (cols tr)))
      (filter (fun lr =>
         Z.eqb (row_id tr) (row_id lr)
         && (price (cols tr) <? price (cols lr))) l)) t.

Definition select_sold (last : Q) (t l : list Row) : list Item :=
  map cols
    (filter (fun r =>
       negb (Sql.key_in row_id Z.eqb (row_id r) t)
       && Sql.ge_param (update_time r) last) l).

Definition compare (m : Manager Row)
  : Manager Row * (list Item * list Discount * list Item) :=
  if Qeq_bool (info_last (info m)) 0 then
    let m1 := with_info (set_new 0) m in
    let m2 := with_info (set_discount 0) m1 in
    let m3 := with_info (set_sold 0) m2 in
    (m3, ([], [], []))
  else
    let t := temp (view (con m)) in
    let l := main (view (con m)) in
    let new := select_new (info_last (info m)) t l in
    let m1 := with_info (set_new (len new)) m in
    let discount := select_discount t l in
    let m2 := with_info (set_discount (len discount)) m1 in
    if info_error (info m2) =? 0 then
      let sold := select_sold (info_last (info m2)) t l in
      let m3 := with_info (set_sold (len sold)) m2 in
      (m3, (new, discount, sold))
    else
      let m3 := with_info (set_sold 0) m2 in
      (m3, (new, discount, [])).

Definition log_row (i : Info) : LogRow :=
  mkLogRow (info_site i) (info_time i) (info_error i) (info_page i)
    (info_count i) (info_new i) (info_discount i) (info_sold i).

(** [SET (price, update_time) = (?, ?)] with a tuple of the query. *)
Definition set_row (q : Z * option Q * Z) (r : Row) : Row :=
  mkRow (mkItem (row_id r) (title (cols r)) (item_url (cols r))
           (image_url (cols r)) (fst (fst q)))
    (record_time r) (snd (fst q)).

(** [SELECT price, update_time, item_id FROM lashinbang_temp WHERE
    item_id IN (SELECT item_id FROM lashinbang)] *)
Definition update_query (t l : list Row) : list (Z * option Q * Z) :=
  map (fun r => (price (cols r), update_time r, row_id r))
    (filter (fun r => Sql.key_in row_id Z.eqb (row_id r) l) t).

Definition update (m : Manager Row) : Manager Row :=
  let v := view (con m) in
  let query := update_query (temp v) (main v) in
  let m1 :=
    with_con (execute (fun s =>
      set_main
        (Sql.executemany_update row_id Z.eqb snd set_row query (main s))
        s)) m in
  let m2 :=
    with_con (execute (fun s =>
      set_main
        (main s ++
         filter (fun t => negb (Sql.key_in row_id Z.eqb (row_id t) (main s)))
           (temp s)) s)) m1 in
  let m3 :=
    with_con (execute (fun s =>
      set_log (log s ++ [log_row (info m2)]) s)) m2 in
  with_con commit m3.

(** [get_message] up to its call of [compare]. *)
Definition get_message (m : Manager Row)
  : Manager Row * (list Item * list Discount * list Item) :=
  compare m.

Definition no_sound (i : Info) : bool :=
  negb (negb (info_new i =? 0) || negb (info_discount i =? 0)
        || negb (info_sold i =? 0)).

(** [main(keywords, db_path, update)]: the database file after the
    call, and the returned report or the exception that ended it. *)
Definition main (kws : list string) (db : Store Row) (upd : bool)
  : Store Row * result (list Item * list Discount * list Item * bool) :=
  let m := new_manager kws db in
  match get_item m with
  | (m1, Raise e) => (disk (con m1), Raise e)
  | (m1, Return _) =>
      let (m2, msg) := get_message m1 in
      let m3 := if upd then update m2 else m2 in
      (disk (con m3), Return (msg, no_sound (info m3)))
  end.
End World.

End Lashinbang.

(** ** bot_mercari_crawler.py *)

Module Mercari.
Import Py Classutil.

Record Item : Type := mkItem {
  item_id : string;
  seller_id : string;
  title : string;
  item_url : string;
  image_url : string;
  price : Z;
  onsale : Z
}.

Record Row : Type := mkRow {
  cols : Item;
  record_time : option Q;
  update_time : option Q
}.

Definition row_id (r : Row) : string := item_id (cols r).

(** A row of the new and of the sold query. *)
Record Entry : Type := mkEntry {
  e_item_id : string;
  e_title : string;
  e_item_url : string;
  e_image_url : string;
  e_price : Z
}.

Record Discount : Type := mkDiscount {
  d_item_id : string;
  d_title : string;
  d_item_url : string;
  d_image_url : string;
  d_old : Z;
  d_new : Z
}.

(** One element of the ['data'] list of a search answer, with the fields
    [get_item] reads: ['id'], ['seller']['id'], ['name'], the list
    ['thumbnails'], ['price'] and ['status'].  An element that lacks one
    of these keys, or holds another type under it, ends [get_item] with
    a [KeyError] or a [TypeError]; such elements are not represented. *)
Record RawItem : Type := mkRawItem {
  raw_id : string;
  raw_seller : string;
  raw_name : string;
  raw_thumbnails : list string;
  raw_price : Z;
  raw_status : string
}.

(** The body of an answer: not JSON at all ([r.json()] raises), or an
    object with or without the key ['data']. *)
Inductive Payload : Type :=
| NotJson
| Object (data : option (list RawItem)).

(** [url.rsplit('/', 1)[1]]: what follows the last slash; an
    [IndexError] when there is none. *)
Fixpoint after_last_slash (s : string) : option string :=
  match s with
  | EmptyString => None
  | String c s' =>
      match after_last_slash s' with
      | Some t => Some t
      | None => if Ascii.eqb c "/"%char then Some s' else None
      end
  end.

Definition _get_image_url (url : string) : result string :=
  match after_last_slash url with
  | Some name =>
      Return
        (String.append "https://static.mercdn.net/item/detail/orig/photos/"
           name)
  | None => Raise IndexError
  end.

Definition _get_item_url (iid : string) : string :=
  String.append "https://jp.mercari.com/item/" iid.

(** [i['thumbnails'][0]]: an [IndexError] on the empty list. *)
Definition first_thumbnail (i : RawItem) : result string :=
  match raw_thumbnails i with
  | [] => Raise IndexError
  | url :: _ => Return url
  end.

Definition make_item (i : RawItem) : result Item :=
  match first_thumbnail i with
  | Raise e => Raise e
  | Return url =>
      match _get_image_url url with
      | Raise e => Raise e
      | Return img =>
          Return (mkItem (raw_id i) (raw_seller i) (raw_name i)
                    (_get_item_url (raw_id i)) img (raw_price i)
                    (if String.eqb (raw_status i) "on_sale" then 1 else 0))
      end
  end.

Fixpoint make_items (data : list RawItem) : result (list Item) :=
  match data with
  | [] => Return []
  | i :: rest =>
      match make_item i with
      | Raise e => Raise e
      | Return it =>
          match make_items rest with
          | Raise e => Raise e
          | Return its => Return (it :: its)
          end
      end
  end.

Section World.
Variable net : nat -> Request -> Response Payload.
Variable accepts : Item -> bool.
Variable watermark : string -> list LogRow -> Q.
Variable now : Q.

(** *** MercariCrawler *)

Definition get_one (c : Crawler) (keyword : string)
  : Crawler * result (option (list RawItem)) :=
  let rq := Search keyword 0 in
  let c1 := record_request rq c in
  match net (List.length (sent c)) rq with
  | Body (Object data) => (c1, Return data)
  | Body NotJson => (c1, Raise JSONDecodeError)
  | BadStatus => (count_error c1, Raise HTTPError)
  | TimedOut => (c1, Raise Timeout)
  end.

Fixpoint submit_all (c : Crawler) (jobs : list string)
  : Crawler * list (string * result (option (list RawItem))) :=
  match jobs with
  | [] => (c, [])
  | kw :: rest =>
      let (c1, r) := get_one c kw in
      let (c2, rs) := submit_all c1 rest in
      (c2, (kw, r) :: rs)
  end.

(** The [as_completed] loop: a failed future leaves the empty dict,
    which has no ['data']. *)
Fixpoint collect (done : list (string * result (option (list RawItem))))
    (res : list (string * option (list RawItem)))
  : list (string * option (list RawItem)) :=
  match done with
  | [] => res
  | (kw, r) :: rest =>
      let text := match r with Return d => d | Raise _ => None end in
      collect rest (dict_set String.eqb kw text res)
  end.

Definition get_many (c : Crawler) (kws : list string)
  : Crawler * list (string * option (list RawItem)) :=
  let (c1, done) := submit_all c kws in
  (c1, collect done []).

(** *** MercariManager *)

Definition new_manager (kws : list string) (db : Store Row)
  : Manager Row :=
  let m := init_manager watermark now "mercari" kws db in
  with_con create_temp (with_con create_main m).

Definition stage (i : Item) : Row := mkRow i None None.

Definition stamp (t : Q) (r : Row) : Row :=
  mkRow (cols r) (Some t) (Some t).

Definition _to_table (m : Manager Row) (data : list Item)
  : Manager Row * result unit :=
  match Sql.executemany_insert row_id String.eqb accepts stage data
          (temp (view (con m))) with
  | (partial, Some exc) =>
      let m1 := with_con (execute (set_temp partial)) m in
      (with_con rollback m1, Raise exc)
  | (written, None) =>
      let m1 := with_con (execute (set_temp written)) m in
      let m2 :=
        with_con (execute (fun s =>
          set_temp (map (stamp (info_time (info m))) (temp s)) s)) m1 in
      (with_con commit m2, Return tt)
  end.

Fixpoint parse_all (raw : list (string * option (list RawItem)))
    (items : list Item) (err : Z) : result (list Item * Z) :=
  match raw with
  | [] => Return (items, err)
  | (_, None) :: rest => parse_all rest items (err + 1)
  | (_, Some data) :: rest =>
      match make_items data with
      | Raise e => Raise e
      | Return its => parse_all rest (items ++ its) err
      end
  end.

Definition get_item (m : Manager Row) : Manager Row * result unit :=
  let (c, raw) := get_many (crawler m) (keywords m) in
  let m1 := with_crawler c m in
  let m2 := with_info (set_page (len raw)) m1 in
  let m3 := with_info (set_error (error_count c)) m2 in
  match parse_all raw [] (info_error (info m3)) with
  | Raise e => (m3, Raise e)
  | Return (items, err) =>
      let m4 := with_info (set_error err) m3 in
      let m5 := with_info (set_count (len items)) m4 in
      _to_table m5 items
  end.

Definition entry (r : Row) : Entry :=
  mkEntry (row_id r) (title (cols r)) (item_url (cols r))
    (image_url (cols r)) (price (cols r)).

Definition select_new (t l : list Row) : list Entry :=
  map entry
    (filter (fun r =>
       (onsale (cols r) =? 1)
       && (negb (Sql.key_in row_id String.eqb (row_id r) l)
           || Sql.key_in row_id String.eqb (row_id r)
                (filter (fun x => onsale (cols x) =? 0) l))) t).

Definition select_discount (t l : list Row) : list Discount :=
  flat_map (fun tr =>
    map (fun lr =>
           mkDiscount (row_id tr) (title (cols tr)) (item_url (cols tr))
             (image_url (cols tr)) (price (cols lr)) (price (cols tr)))
      (filter (fun lr =>
         String.eqb (row_id tr) (row_id lr)
         && ((price (cols tr) <? price (cols lr))
             && (onsale (cols tr) =? 1))) l)) t.

Definition select_sold (t l : list Row) : list Entry :=
  map entry
    (filter (fun r =>
       (onsale (cols r) =? 0)
       && (negb (Sql.key_in row_id String.eqb (row_id r) l)
           || Sql.key_in row_id String.eqb (row_id r)
                (filter (fun x => onsale (cols x) =? 1) l))) t).

Definition compare (m : Manager Row)
  : Manager Row * (list Entry * list Discount * list Entry) :=
  if Qeq_bool (info_last (info m)) 0 then
    let m1 := with_info (set_new 0) m in
    let m2 := with_info (set_discount 0) m1 in
    let m3 := with_info (set_sold 0) m2 in
    (m3, ([], [], []))
  else
    let t := temp (view (con m)) in
    let l := main (view (con m)) in
    let new := select_new t l in
    let m1 := with_info (set_new (len new)) m in
    let discount := select_discount t l in
    let m2 := with_info (set_discount (len discount)) m1 in
    let sold := select_sold t l in
    let m3 := with_info (set_sold (len sold)) m2 in
    (m3, (new, discount, sold)).

Definition log_row (i : Info) : LogRow :=
  mkLogRow (info_site i) (info_time i) (info_error i) (info_page i)
    (info_count i) (info_new i) (info_discount i) (info_sold i).

(** [SET (price, onsale, update_time) = (?, ?, ?)] with a tuple of the
    query. *)
Definition set_row (q : Z * Z * option Q * string) (r : Row) : Row :=
  mkRow (mkItem (row_id r) (seller_id (cols r)) (title (cols r))
           (item_url (cols r)) (image_url (cols r))
           (fst (fst (fst q))) (snd (fst (fst q))))
    (record_time r) (snd (fst q)).

(** [SELECT price, onsale, update_time, item_id FROM mercari_temp WHERE
    item_id IN (SELECT item_id FROM mercari)] *)
Definition update_query (t l : list Row)
  : list (Z * Z * option Q * string) :=
  map (fun r =>
         (price (cols r), onsale (cols r), update_time r, row_id r))
    (filter (fun r => Sql.key_in row_id String.eqb (row_id r) l) t).

Definition update (m : Manager Row) : Manager Row :=
  let v := view (con m) in
  let query := update_query (temp v) (main v) in
  let m1 :=
    with_con (execute (fun s =>
      set_main
        (Sql.executemany_update row_id String.eqb snd set_row query
           (main s))
        s)) m in
  let m2 :=
    with_con (execute (fun s =>
      set_main
        (main s ++
         filter (fun t =>
                   negb (Sql.key_in row_id String.eqb (row_id t) (main s)))
           (temp s)) s)) m1 in
  let m3 :=
    with_con (execute (fun s =>
      set_log (log s ++ [log_row (info m2)]) s)) m2 in
  with_con commit m3.

(** [get_message] up to its call of [compare]. *)
Definition get_message (m : Manager Row)
  : Manager Row * (list Entry * list Discount * list Entry) :=
  compare m.

Definition no_sound (i : Info) : bool :=
  negb (negb (info_new i =? 0) || negb (info_discount i =? 0)
        || negb (info_sold i =? 0)).

Definition main (kws : list string) (db : Store Row) (upd : bool)
  : Store Row * result (list Entry * list Discount * list Entry * bool) :=
  let m := new_manager kws db in
  match get_item m with
  | (m1, Raise e) => (disk (con m1), Raise e)
  | (m1, Return _) =>
      let (m2, msg) := get_message m1 in
      let m3 := if upd then update m2 else m2 in
      (disk (con m3), Return (msg, no_sound (info m3)))
  end.
End World.

End Mercari.

(** ** bot_yahoo_crawler.py *)

Module Yahoo.
Import Py Classutil.

Record Item : Type := mkItem {
  item_id : string;
  seller_id : string;
  title : string;
  item_url : string;
  image_url : string;
  bid_price : Z;
  full_price : Z;
  end_ : Q;
  bid_num : Z
}.

Record Row : Type := mkRow {
  cols : Item;
  record_time : option Q;
  update_time : option Q
}.

Definition row_id (r : Row) : string := item_id (cols r).

(** A row of the new query. *)
Record Entry : Type := mkEntry {
  e_item_id : string;
  e_title : string;
  e_item_url : string;
  e_image_url : string;
  e_bid_price : Z;
  e_full_price : Z;
  e_end : Q;
  e_bid_num : Z
}.

Record Discount : Type := mkDiscount {
  d_item_id : string;
  d_title : string;
  d_item_url : string;
  d_image_url : string;
  d_old_bid : Z;
  d_old_full : Z;
  d_new_bid : Z;
  d_new_full : Z;
  d_end : Q;
  d_bid_num : Z
}.

Record Bid : Type := mkBid {
  b_item_id : string;
  b_title : string;
  b_item_url : string;
  b_image_url : string;
  b_bid_price : Z;
  b_full_price : Z;
  b_end : Q;
  b_old_num : Z;
  b_new_num : Z
}.

(** What lines 169-197 of [get_item] do with one page: BeautifulSoup
    raises (caught and counted), the page is the empty-result page, the
    products are appended, or reading a product raises (not caught). *)
Inductive Parsed : Type :=
| SoupFails
| EmptyPage
| Products (items : list Item)
| Uncaught (e : Exn).

Section World.
Variable net : nat -> Request -> Response string.
Variable parse : string -> Parsed.
Variable accepts : Item -> bool.
Variable watermark : string -> list LogRow -> Q.
Variable now : Q.

(** *** YahooCrawler *)

Definition get_one (c : Crawler) (keyword : string)
  : Crawler * result string :=
  let rq := Search keyword 1 in
  let c1 := record_request rq c in
  match net (List.length (sent c)) rq with
  | Body text => (c1, Return text)
  | BadStatus => (count_error c1, Raise HTTPError)
  | TimedOut => (c1, Raise Timeout)
  end.

Fixpoint submit_all (c : Crawler) (jobs : list string)
  : Crawler * list (string * result string) :=
  match jobs with
  | [] => (c, [])
  | kw :: rest =>
      let (c1, r) := get_one c kw in
      let (c2, rs) := submit_all c1 rest in
      (c2, (kw, r) :: rs)
  end.

(** The [as_completed] loop: a failed future leaves the empty text. *)
Fixpoint collect (done : list (string * result string))
    (res : list (string * string)) : list (string * string) :=
  match done with
  | [] => res
  | (kw, r) :: rest =>
      let text := match r with Return t => t | Raise _ => EmptyString end in
      collect rest (dict_set String.eqb kw text res)
  end.

Definition get_many (c : Crawler) (kws : list string)
  : Crawler * list (string * string) :=
  let (c1, done) := submit_all c kws in
  (c1, collect done []).

(** *** YahooManager *)

Definition new_manager (kws : list string) (db : Store Row)
  : Manager Row :=
  let m := init_manager watermark now "yahoo" kws db in
  with_con create_temp (with_con create_main m).

Definition stage (i : Item) : Row := mkRow i None None.

Definition stamp (t : Q) (r : Row) : Row :=
  mkRow (cols r) (Some t) (Some t).

Definition _to_table (m : Manager Row) (data : list Item)
  : Manager Row * result unit :=
  match Sql.executemany_insert row_id String.eqb accepts stage data
          (temp (view (con m))) with
  | (partial, Some exc) =>
      let m1 := with_con (execute (set_temp partial)) m in
      (with_con rollback m1, Raise exc)
  | (written, None) =>
      let m1 := with_con (execute (set_temp written)) m in
      let m2 :=
        with_con (execute (fun s =>
          set_temp (map (stamp (info_time (info m))) (temp s)) s)) m1 in
      (with_con commit m2, Return tt)
  end.

Fixpoint parse_all (raw : list (string * string))
    (items : list Item) (err : Z) : result (list Item * Z) :=
  match raw with
  | [] => Return (items, err)
  | (_, text) :: rest =>
      match parse text with
      | SoupFails => parse_all rest items (err + 1)
      | EmptyPage => parse_all rest items err
      | Products its => parse_all rest (items ++ its) err
      | Uncaught e => Raise e
      end
  end.

Definition get_item (m : Manager Row) : Manager Row * result unit :=
  let (c, raw) := get_many (crawler m) (keywords m) in
  let m1 := with_crawler c m in
  let m2 := with_info (set_page (len raw)) m1 in
  let m3 := with_info (set_error (error_count c)) m2 in
  match parse_all raw [] (info_error (info m3)) with
  | Raise e => (m3, Raise e)
  | Return (items, err) =>
      let m4 := with_info (set_error err) m3 in
      let m5 := with_info (set_count (len items)) m4 in
      _to_table m5 items
  end.

Definition entry (r : Row) : Entry :=
  mkEntry (row_id r) (title (cols r)) (item_url (cols r))
    (image_url (cols r)) (bid_price (cols r)) (full_price (cols r))
    (end_ (cols r)) (bid_num (cols r)).

Definition select_new (expire : Q) (t l : list Row) : list Entry :=
  map entry
    (filter (fun r =>
       negb (Sql.key_in row_id String.eqb (row_id r) l)
       || Sql.key_in row_id String.eqb (row_id r)
            (filter (fun x => Sql.lt_param (update_time x) expire) l)) t).

Definition select_discount (t l : list Row) : list Discount :=
  flat_map (fun tr =>
    map (fun lr =>
           mkDiscount (row_id tr) (title (cols tr)) (item_url (cols tr))
             (image_url (cols tr))
             (bid_price (cols lr)) (full_price (cols lr))
             (bid_price (cols tr)) (full_price (cols tr))
             (end_ (cols tr)) (bid_num (cols tr)))
      (filter (fun lr =>
         String.eqb (row_id tr) (row_id lr)
         && (((bid_price (cols tr) <? bid_price (cols lr))
              || (full_price (cols tr) <? full_price (cols lr)))
             && (bid_num (cols lr) =? 0))) l)) t.

Definition select_bid (t l : list Row) : list Bid :=
  flat_map (fun tr =>
    map (fun lr =>
           mkBid (row_id tr) (title (cols tr)) (item_url (cols tr))
             (image_url (cols tr)) (bid_price (cols tr))
             (full_price (cols tr)) (end_ (cols tr))
             (bid_num (cols lr)) (bid_num (cols tr)))
      (filter (fun lr =>
         String.eqb (row_id tr) (row_id lr)
         && (bid_num (cols lr) <? bid_num (cols tr))) l)) t.

Definition compare (m : Manager Row)
  : Manager Row * (list Entry * list Discount * list Bid) :=
  if Qeq_bool (info_last (info m)) 0 then
    let m1 := with_info (set_new 0) m in
    let m2 := with_info (set_discount 0) m1 in
    let m3 := with_info (set_bid 0) m2 in
    (m3, ([], [], []))
  else
    let t := temp (view (con m)) in
    let l := main (view (con m)) in
    let expire :=
      Binary64.sub (info_last (info m)) (inject_Z (60 * 60 * 24)) in
    let new := select_new expire t l in
    let m1 := with_info (set_new (len new)) m in
    let discount := select_discount t l in
    let m2 := with_info (set_discount (len discount)) m1 in
    let bid := select_bid t l in
    let m3 := with_info (set_bid (len bid)) m2 in
    (m3, (new, discount, bid)).

(** The log row of a run; the [sold] column takes [info['bid']]. *)
Definition log_row (i : Info) : LogRow :=
  mkLogRow (info_site i) (info_time i) (info_error i) (info_page i)
    (info_count i) (info_new i) (info_discount i) (info_bid i).

(** [SET (bid_price, full_price, end, bid_num, update_time) = (?, ?, ?,
    ?, ?)] with a tuple of the query. *)
Definition set_row (q : Z * Z * Q * Z * option Q * string) (r : Row)
  : Row :=
  mkRow (mkItem (row_id r) (seller_id (cols r)) (title (cols r))
           (item_url (cols r)) (image_url (cols r))
           (fst (fst (fst (fst (fst q)))))
           (snd (fst (fst (fst (fst q)))))
           (snd (fst (fst (fst q))))
           (snd (fst (fst q))))
    (record_time r) (snd (fst q)).

(** [SELECT bid_price, full_price, end, bid_num, update_time, item_id
    FROM yahoo_temp WHERE item_id IN (SELECT item_id FROM yahoo)] *)
Definition update_query (t l : list Row)
  : list (Z * Z * Q * Z * option Q * string) :=
  map (fun r =>
         (bid_price (cols r), full_price (cols r), end_ (cols r),
          bid_num (cols r), update_time r, row_id r))
    (filter (fun r => Sql.key_in row_id String.eqb (row_id r) l) t).

Definition update (m : Manager Row) : Manager Row :=
  let v := view (con m) in
  let query := update_query (temp v) (main v) in
  let m1 :=
    with_con (execute (fun s =>
      set_main
        (Sql.executemany_update row_id String.eqb snd set_row query
           (main s))
        s)) m in
  let m2 :=
    with_con (execute (fun s =>
      set_main
        (main s ++
         filter (fun t =>
                   negb (Sql.key_in row_id String.eqb (row_id t) (main s)))
           (temp s)) s)) m1 in
  let m3 :=
    with_con (execute (fun s =>
      set_log (log s ++ [log_row (info m2)]) s)) m2 in
  with_con commit m3.

(** [get_message] up to its call of [compare]. *)
Definition get_message (m : Manager Row)
  : Manager Row * (list Entry * list Discount * list Bid) :=
  compare m.

Definition no_sound (i : Info) : bool :=
  negb (negb (info_new i =? 0) || negb (info_discount i =? 0)
        || negb (info_bid i =? 0)).

Definition main (kws : list string) (db : Store Row) (upd : bool)
  : Store Row * result (list Entry * list Discount * list Bid * bool) :=
  let m := new_manager kws db in
  match get_item m with
  | (m1, Raise e) => (disk (con m1), Raise e)
  | (m1, Return _) =>
      let (m2, msg) := get_message m1 in
      let m3 := if upd then update m2 else m2 in
      (disk (con m3), Return (msg, no_sound (info m3)))
  end.
End World.

End Yahoo.

(** ** bot_autorun.py *)

Module Autorun.
Import Py Classutil.

(** The database file at [db_path]: the persistent and the staging table
    of each site, and the log they share. *)
Record Database : Type := mkDatabase {
  lashinbang : list Lashinbang.Row;
  lashinbang_temp : list Lashinbang.Row;
  mercari : list Mercari.Row;
  mercari_temp : list Mercari.Row;
  yahoo : list Yahoo.Row;
  yahoo_temp : list Yahoo.Row;
  log : list LogRow
}.

(** What [read_config] returns, without the two paths. *)
Record Config : Type := mkConfig {
  cfg_lashinbang : list string;
  cfg_mercari : list string;
  cfg_yahoo : list string
}.

(** The part of the file a manager of each site reads and writes. *)
Definition lashinbang_store (db : Database) : Store Lashinbang.Row :=
  mkStore (lashinbang_temp db) (lashinbang db) (log db).
Definition mercari_store (db : Database) : Store Mercari.Row :=
  mkStore (mercari_temp db) (mercari db) (log db).
Definition yahoo_store (db : Database) : Store Yahoo.Row :=
  mkStore (yahoo_temp db) (yahoo db) (log db).

Definition put_lashinbang (s : Store Lashinbang.Row) (db : Database)
  : Database :=
  mkDatabase (main s) (temp s) (mercari db) (mercari_temp db)
    (yahoo db) (yahoo_temp db) (Classutil.log s).
Definition put_mercari (s : Store Mercari.Row) (db : Database)
  : Database :=
  mkDatabase (lashinbang db) (lashinbang_temp db) (main s) (temp s)
    (yahoo db) (yahoo_temp db) (Classutil.log s).
Definition put_yahoo (s : Store Yahoo.Row) (db : Database) : Database :=
  mkDatabase (lashinbang db) (lashinbang_temp db) (mercari db)
    (mercari_temp db) (main s) (temp s) (Classutil.log s).

(** Two states of the file with the same persistent tables and log. *)
Definition frame (db db' : Database) : Prop :=
  lashinbang db' = lashinbang db
  /\ mercari db' = mercari db
  /\ yahoo db' = yahoo db
  /\ log db' = log db.

(** The three reports of a run, before rendering. *)
Definition Message : Type :=
  ((list Lashinbang.Item * list Lashinbang.Discount * list Lashinbang.Item)
   * (list Mercari.Entry * list Mercari.Discount * list Mercari.Entry)
   * (list Yahoo.Entry * list Yahoo.Discount * list Yahoo.Bid))%type.

Section World.
Variable net_l : nat -> Request -> Response string.
Variable page_count : string -> option Z.
Variable decode : string -> Lashinbang.Decoded.
Variable accepts_l : Lashinbang.Item -> bool.
Variable net_m : nat -> Request -> Response Mercari.Payload.
Variable accepts_m : Mercari.Item -> bool.
Variable net_y : nat -> Request -> Response string.
Variable parse : string -> Yahoo.Parsed.
Variable accepts_y : Yahoo.Item -> bool.
Variable watermark : string -> list LogRow -> Q.
Variable now_l now_m now_y : Q.

(** Each site's [main] is called with two arguments: [update] is left
    to its default, [False]. *)
Definition lashinbang_main (kws : list string) (db : Database) :=
  let (s, r) :=
    Lashinbang.main net_l page_count decode accepts_l watermark now_l
      kws (lashinbang_store db) false in
  (put_lashinbang s db, r).

Definition mercari_main (kws : list string) (db : Database) :=
  let (s, r) :=
    Mercari.main net_m accepts_m watermark now_m
      kws (mercari_store db) false in
  (put_mercari s db, r).

Definition yahoo_main (kws : list string) (db : Database) :=
  let (s, r) :=
    Yahoo.main net_y parse accepts_y watermark now_y
      kws (yahoo_store db) false in
  (put_yahoo s db, r).

Definition main (config : Config) (db : Database)
  : Database * result Message :=
  match lashinbang_main (cfg_lashinbang config) db with
  | (db1, Raise e) => (db1, Raise e)
  | (db1, Return (msg_l, _)) =>
      match mercari_main (cfg_mercari config) db1 with
      | (db2, Raise e) => (db2, Raise e)
      | (db2, Return (msg_m, _)) =>
          match yahoo_main (cfg_yahoo config) db2 with
          | (db3, Raise e) => (db3, Raise e)
          | (db3, Return (msg_y, _)) =>
              (db3, Return (msg_l, msg_m, msg_y))
          end
      end
  end.
End World.

End Autorun.

(** ** Concrete runs

    The scenarios of the specification's section 8 and a few more, used
    to evaluate the adapters. *)

Module Sample.
Import Py Classutil.

Definition q (z : Z) : Q := inject_Z z.

Definition info_of (site : string) (now last : Z) (err : Z) : Info :=
  mkInfo site (q now) (q last) err 1 1 0 0 0 0.

(** *** Lashinbang: [A42] at price 1000 and [B43], both seen at time
    100; this run stages [A42] alone, at price 800 and under a new
    title. *)
Module L.
Import Lashinbang.

Definition persisted_A : Row :=
  mkRow (mkItem 42 "A" "https://shop/42" "https://img/42" 1000)
    (Some (q 100)) (Some (q 100)).
Definition persisted_B : Row :=
  mkRow (mkItem 43 "B" "https://shop/43" "https://img/43" 500)
    (Some (q 100)) (Some (q 100)).
Definition item_A : Item :=
  mkItem 42 "A (renewed)" "https://shop/42" "https://img/42" 800.
Definition staged_A : Row := mkRow item_A (Some (q 200)) (Some (q 200)).

Definition store : Store Row :=
  mkStore [staged_A] [persisted_A; persisted_B] [].

Definition manager (last err : Z) : Manager Row :=
  mkManager ["A"] (info_of "lashinbang" 200 last err) (connect store)
    new_crawler.

(** A database file before a run, and worlds for the run. *)
Definition db : Store Row := mkStore [] [persisted_A; persisted_B] [].

Definition watermark (site : string) (l : list LogRow) : Q := q 100.

(** The age check passes and every search times out. *)
Definition net_timeout (n : nat) (rq : Request) : Response string :=
  match rq with
  | AgeCheck => Body EmptyString
  | Search _ _ => TimedOut
  end.

(** The age check passes and every search answers with a 5xx status. *)
Definition net_bad_status (n : nat) (rq : Request) : Response string :=
  match rq with
  | AgeCheck => Body EmptyString
  | Search _ _ => BadStatus
  end.

(** Every search answers with one page. *)
Definition net_ok (n : nat) (rq : Request) : Response string :=
  Body "callback({...})".

Definition page_count (text : string) : option Z := Some 1.
Definition decode (text : string) : Decoded := Items [item_A].
Definition accepts_all (i : Item) : bool := true.
Definition accepts_none (i : Item) : bool := false.
End L.

(** *** Mercari: [m1] is staged as sold out and was never stored; [m2]
    is stored on sale and staged on sale at a lower price. *)
Module M.
Import Mercari.

Definition item_1 : Item :=
  mkItem "m1" "s1" "one" "https://jp.mercari.com/item/m1"
    "https://static.mercdn.net/item/detail/orig/photos/m1.jpg" 300 0.
Definition item_2 : Item :=
  mkItem "m2" "s2" "two (renewed)" "https://jp.mercari.com/item/m2"
    "https://static.mercdn.net/item/detail/orig/photos/m2.jpg" 700 1.
Definition staged_1 : Row := mkRow item_1 (Some (q 200)) (Some (q 200)).
Definition staged_2 : Row := mkRow item_2 (Some (q 200)) (Some (q 200)).
Definition persisted_2 : Row :=
  mkRow (mkItem "m2" "s2" "two" "https://jp.mercari.com/item/m2"
           "https://static.mercdn.net/item/detail/orig/photos/m2.jpg"
           900 1)
    (Some (q 100)) (Some (q 100)).

Definition store : Store Row :=
  mkStore [staged_1; staged_2] [persisted_2] [].

Definition manager (last err : Z) : Manager Row :=
  mkManager ["one"] (info_of "mercari" 200 last err) (connect store)
    new_crawler.

Definition db : Store Row := mkStore [] [persisted_2] [].
Definition watermark (site : string) (l : list LogRow) : Q := q 100.

Definition raw_1 : RawItem :=
  mkRawItem "m1" "s1" "one" ["https://static.mercdn.net/thumb/m1.jpg"] 300
    "sold_out".

Definition net_ok (n : nat) (rq : Request) : Response Payload :=
  Body (Object (Some [raw_1])).
Definition net_timeout (n : nat) (rq : Request) : Response Payload :=
  TimedOut.
Definition net_bad_status (n : nat) (rq : Request) : Response Payload :=
  BadStatus.
Definition accepts_all (i : Item) : bool := true.
Definition accepts_none (i : Item) : bool := false.
End M.

(** *** Yahoo: [y1] was stored half a day before the watermark and is
    staged again with a lower buy-now price and a higher bid price. *)
Module Y.
Import Yahoo.

Definition item_1 : Item :=
  mkItem "y1" "s1" "one (renewed)" "https://page/y1" "https://img/y1"
    200 900 (q 500000) 1.
Definition staged_1 : Row := mkRow item_1 (Some (q 200100)) (Some (q 200100)).
Definition persisted_1 : Row :=
  mkRow (mkItem "y1" "s1" "one" "https://page/y1" "https://img/y1"
           100 1000 (q 400000) 0)
    (Some (q 100000)) (Some (q 156800)).

Definition store : Store Row := mkStore [staged_1] [persisted_1] [].

Definition manager (last err : Z) : Manager Row :=
  mkManager ["one"] (info_of "yahoo" 200100 last err) (connect store)
    new_crawler.

Definition db : Store Row := mkStore [] [persisted_1] [].
Definition watermark (site : string) (l : list LogRow) : Q := q 200000.

Definition net_ok (n : nat) (rq : Request) : Response string :=
  Body "<html>...</html>".
Definition net_timeout (n : nat) (rq : Request) : Response string :=
  TimedOut.
Definition net_bad_status (n : nat) (rq : Request) : Response string :=
  BadStatus.

(** BeautifulSoup on the empty text gives a document without
    products. *)
Definition parse (text : string) : Parsed :=
  if String.eqb text EmptyString then Products [] else Products [item_1].
Definition accepts_all (i : Item) : bool := true.
Definition accepts_none (i : Item) : bool := false.
End Y.

End Sample.

(** * Properties *)

(** ** Facts about the SQL fragment *)

Module SqlFacts.
Import Sql.

Lemma Qltb_lt (x y : Q) : Qltb x y = true <-> (x < y)%Q.
Proof.
  unfold Qltb. rewrite negb_true_iff. split.
  - intros H. apply Qnot_le_lt. intros L.
    apply Qle_bool_iff in L. congruence.
  - intros H. destruct (Qle_bool y x) eqn:E; [ | reflexivity ].
    apply Qle_bool_iff in E. exfalso. exact (Qlt_not_le _ _ H E).
Qed.

Lemma lt_param_spec (col : option Q) (p : Q) :
  lt_param col p = true <-> exists u, col = Some u /\ (u < p)%Q.
Proof.
  destruct col as [u | ]; simpl.
  - rewrite Qltb_lt. split.
    + intros H. exists u. auto.
    + intros (v & E & H). inversion E. subst. exact H.
  - split; [ discriminate | intros (v & E & _); discriminate ].
Qed.

Lemma ge_param_spec (col : option Q) (p : Q) :
  ge_param col p = true <-> exists u, col = Some u /\ (p <= u)%Q.
Proof.
  destruct col as [u | ]; simpl.
  - rewrite Qle_bool_iff. split.
    + intros H. exists u. auto.
    + intros (v & E & H). inversion E. subst. exact H.
  - split; [ discriminate | intros (v & E & _); discriminate ].
Qed.

Section Table.
Context {Row K : Type} (key : Row -> K) (eqb : K -> K -> bool).
Hypothesis eqb_spec : forall a b, eqb a b = true <-> a = b.

Lemma eqb_refl_key (a : K) : eqb a a = true.
Proof. apply eqb_spec. reflexivity. Qed.

Lemma key_in_spec (k : K) (tbl : list Row) :
  key_in key eqb k tbl = true <-> In k (map key tbl).
Proof.
  unfold key_in. rewrite existsb_exists, in_map_iff. split.
  - intros (r & Hr & E). apply eqb_spec in E. exists r. auto.
  - intros (r & E & Hr). exists r. split; [ exact Hr | ].
    apply eqb_spec. auto.
Qed.

Lemma key_in_false (k : K) (tbl : list Row) :
  key_in key eqb k tbl = false <-> ~ In k (map key tbl).
Proof.
  rewrite <- key_in_spec. destruct (key_in key eqb k tbl); split;
    congruence.
Qed.

(** An id is among the keys of the rows that pass [f] iff some row with
    this key passes [f]. *)
Lemma key_in_filter (k : K) (f : Row -> bool) (tbl : list Row) :
  key_in key eqb k (filter f tbl) = true
  <-> exists x, In x tbl /\ key x = k /\ f x = true.
Proof.
  rewrite key_in_spec, in_map_iff. split.
  - intros (x & E & Hx). apply filter_In in Hx. exists x. tauto.
  - intros (x & Hx & E & F). exists x. rewrite filter_In. tauto.
Qed.

Section Update.
Context {P : Type} (kof : P -> K) (set : P -> Row -> Row).
Hypothesis set_key : forall q r, key (set q r) = key r.

Lemma update_where_key_keys (q : P) (tbl : list Row) :
  map key (update_where_key key eqb (kof q) (set q) tbl) = map key tbl.
Proof.
  unfold update_where_key. rewrite map_map. apply map_ext.
  intros r. destruct (eqb (key r) (kof q)); auto.
Qed.

Lemma executemany_update_keys (query : list P) (tbl : list Row) :
  map key (executemany_update key eqb kof set query tbl) = map key tbl.
Proof.
  unfold executemany_update. revert tbl.
  induction query as [ | q query IH ]; intros tbl; simpl.
  - reflexivity.
  - rewrite IH. apply update_where_key_keys.
Qed.

Lemma executemany_update_length (query : list P) (tbl : list Row) :
  List.length (executemany_update key eqb kof set query tbl)
  = List.length tbl.
Proof.
  rewrite <- (length_map key), executemany_update_keys.
  apply length_map.
Qed.

(** A row whose key no tuple of the query names is not written. *)
Lemma executemany_update_frame (query : list P) (tbl : list Row)
    (r : Row) :
  ~ In (key r) (map kof query) -> In r tbl ->
  In r (executemany_update key eqb kof set query tbl).
Proof.
  unfold executemany_update. revert tbl.
  induction query as [ | q query IH ]; intros tbl Hk Hr; simpl.
  - exact Hr.
  - apply IH.
    + intros H. apply Hk. right. exact H.
    + unfold update_where_key. apply in_map_iff. exists r.
      split; [ | exact Hr ].
      destruct (eqb (key r) (kof q)) eqn:E; [ | reflexivity ].
      apply eqb_spec in E. exfalso. apply Hk. left. auto.
Qed.

(** Rows are only ever replaced by rows written from a tuple with
    their key: nothing is written to a row the query does not name. *)
Hypothesis set_absorb : forall q q' r, set q (set q' r) = set q r.

Lemma executemany_update_hit (query : list P) (tbl : list Row)
    (r : Row) :
  In (key r) (map kof query) -> In r tbl ->
  exists q, In q query /\ kof q = key r
            /\ In (set q r)
                 (executemany_update key eqb kof set query tbl).
Proof.
  unfold executemany_update. revert tbl r.
  induction query as [ | q query IH ]; intros tbl r Hk Hr; simpl in *.
  - contradiction.
  - set (r1 := if eqb (key r) (kof q) then set q r else r).
    assert (Hr1 : In r1 (update_where_key key eqb (kof q) (set q) tbl)).
    { unfold update_where_key. apply in_map_iff. exists r. auto. }
    assert (Kr1 : key r1 = key r).
    { unfold r1. destruct (eqb (key r) (kof q)); auto. }
    assert (Sr1 : forall q', set q' r1 = set q' r).
    { intros q'. unfold r1. destruct (eqb (key r) (kof q)); auto. }
    destruct (existsb (fun q' => eqb (key r) (kof q')) query) eqn:Ex.
    + apply existsb_exists in Ex. destruct Ex as (q' & Hq' & E).
      apply eqb_spec in E.
      assert (Hk1 : In (key r1) (map kof query)).
      { rewrite Kr1, E. apply in_map. exact Hq'. }
      destruct (IH _ r1 Hk1 Hr1) as (q2 & Hq2 & E2 & H2).
      exists q2. rewrite <- Sr1. rewrite <- Kr1. auto.
    + assert (Hq : kof q = key r).
      { destruct Hk as [ Hk | Hk ]; [ exact Hk | ].
        apply in_map_iff in Hk. destruct Hk as (q' & E & Hq').
        assert (F : existsb (fun q' => eqb (key r) (kof q')) query
                    = true).
        { apply existsb_exists. exists q'. split; [ exact Hq' | ].
          apply eqb_spec. auto. }
        congruence. }
      exists q. split; [ auto | ]. split; [ exact Hq | ].
      assert (E1 : r1 = set q r).
      { unfold r1. rewrite <- Hq, eqb_refl_key. reflexivity. }
      rewrite <- E1.
      apply (executemany_update_frame query); [ | exact Hr1 ].
      rewrite Kr1. intros H. apply in_map_iff in H.
      destruct H as (q' & E & Hq').
      assert (F : existsb (fun q' => eqb (key r) (kof q')) query
                  = true).
      { apply existsb_exists. exists q'. split; [ exact Hq' | ].
        apply eqb_spec. auto. }
      congruence.
Qed.
End Update.

Section Insert.
Context {I : Type} (accepts : I -> bool) (mk : I -> Row).

(** The bulk insert raises iff the engine refuses one of the rows. *)
Lemma executemany_insert_fails (data : list I) (tbl : list Row) :
  forallb accepts data = false ->
  exists partial,
    executemany_insert key eqb accepts mk data tbl
    = (partial, Some Py.DatabaseError).
Proof.
  revert tbl. induction data as [ | i data IH ]; intros tbl H;
    simpl in *.
  - discriminate.
  - destruct (accepts i); simpl in H.
    + apply IH. exact H.
    + exists tbl. reflexivity.
Qed.

Lemma executemany_insert_succeeds (data : list I) (tbl : list Row) :
  forallb accepts data = true ->
  executemany_insert key eqb accepts mk data tbl
  = (fold_left (fun t i => insert_or_ignore key eqb (mk i) t) data tbl,
     None).
Proof.
  revert tbl. induction data as [ | i data IH ]; intros tbl H;
    simpl in *.
  - reflexivity.
  - apply andb_true_iff in H. destruct H as (Hi & H).
    rewrite Hi. apply IH. exact H.
Qed.
End Insert.
End Table.

Lemma Z_eqb_spec (a b : Z) : Z.eqb a b = true <-> a = b.
Proof. apply Z.eqb_eq. Qed.

Lemma string_eqb_spec (a b : string) : String.eqb a b = true <-> a = b.
Proof. apply String.eqb_eq. Qed.

End SqlFacts.

(** ** Floats: where the subtraction of a day is exact *)

Module Binary64Facts.
Import Binary64.

Lemma two_nonzero : ~ (2 == 0)%Q.
Proof. discriminate. Qed.

Lemma two_gt_one : (1 < 2)%Q.
Proof. reflexivity. Qed.

Lemma pow2_pos (e : Z) : (0 < 2 ^ e)%Q.
Proof. apply Qpower_0_lt. reflexivity. Qed.

Lemma pow2_Z (n : Z) : 0 <= n -> (2 ^ n == inject_Z (2 ^ n))%Q.
Proof. intros H. rewrite (Zpower_Qpower 2 n H). reflexivity. Qed.

(** The lower half of the specification of [floor_log2]. *)
Lemma floor_log2_le (x : Q) : (0 < x)%Q -> (2 ^ floor_log2 x <= x)%Q.
Proof.
  intros Hx. unfold floor_log2.
  set (a := Z.log2 (Qnum x)). set (b := Z.log2 (Z.pos (Qden x))).
  destruct (Qle_bool (2 ^ (a - b)) x) eqn:E.
  - apply Qle_bool_iff. exact E.
  - clear E.
    assert (Hn : 0 < Qnum x).
    { destruct x as [n d]. unfold Qlt in Hx. simpl in *. lia. }
    assert (Ha : 0 <= a) by apply Z.log2_nonneg.
    assert (Hb : 0 <= b) by apply Z.log2_nonneg.
    destruct (Z.log2_spec (Qnum x) Hn) as (La & _). fold a in La.
    assert (Hd : 0 < Z.pos (Qden x)) by lia.
    destruct (Z.log2_spec _ Hd) as (_ & Lb). fold b in Lb.
    replace (a - b - 1) with (a - (b + 1)) by lia.
    rewrite (Qpower_minus 2 a (b + 1) two_nonzero).
    rewrite (pow2_Z a Ha), (pow2_Z (b + 1)) by lia.
    apply Qle_shift_div_r.
    + rewrite <- (pow2_Z (b + 1)) by lia. apply pow2_pos.
    + replace (Z.succ b) with (b + 1) in Lb by lia.
      destruct x as [n d]. unfold Qle. simpl in *.
      assert (0 < 2 ^ a) by (apply Z.pow_pos_nonneg; lia).
      nia.
Qed.

Lemma nearest_even_Z (x : Q) (z : Z) :
  (x == inject_Z z)%Q -> nearest_even x = z.
Proof.
  intros E. unfold nearest_even.
  rewrite (Qfloor_comp _ _ E), Qfloor_Z.
  assert (C : (x - inject_Z z ?= 1 # 2)%Q = Lt).
  { apply -> Qlt_alt. rewrite E. unfold Qminus. rewrite Qplus_opp_r.
    reflexivity. }
  rewrite C. reflexivity.
Qed.

(** A number of the format is its own rounding. *)
Lemma round_finite (x : Q) : finite x -> (round x == x)%Q.
Proof.
  intros (m & e0 & E & Hm & He). unfold round.
  destruct (Qeq_bool x 0) eqn:Z0.
  - apply Qeq_bool_iff in Z0. symmetry. exact Z0.
  - apply Qeq_bool_neq in Z0.
    assert (Hx : (0 < Qabs x)%Q).
    { destruct (Qle_lt_or_eq _ _ (Qabs_nonneg x)) as [ H | H ]; auto.
      exfalso. apply Z0. destruct (Qabs_Qle_condition x 0) as (A & _).
      destruct A as (A1 & A2); [ rewrite <- H; apply Qle_refl | ].
      apply Qle_antisym; auto. }
    assert (L := floor_log2_le _ Hx).
    set (k := floor_log2 (Qabs x)) in *.
    assert (U : (Qabs x < 2 ^ (53 + e0))%Q).
    { rewrite E, Qabs_Qmult. rewrite (Qabs_pos (2 ^ e0)).
      2:{ apply Qlt_le_weak, pow2_pos. }
      rewrite (Qpower_plus 2 53 e0 two_nonzero).
      apply Qmult_lt_compat_r; [ apply pow2_pos | ].
      rewrite (pow2_Z 53) by lia.
      assert (A : (Qabs (inject_Z m) == inject_Z (Z.abs m))%Q).
      { unfold inject_Z. rewrite <- Zabs_Qabs. reflexivity. }
      rewrite A. rewrite <- Zlt_Qlt. exact Hm. }
    assert (K : k < 53 + e0).
    { apply (Qpower_lt_compat_l_inv 2); [ | apply two_gt_one ].
      eapply Qle_lt_trans; eauto. }
    assert (Hexp : exponent x <= e0).
    { unfold exponent. fold k. lia. }
    set (e := exponent x) in *.
    assert (D : (x / 2 ^ e == inject_Z (m * 2 ^ (e0 - e)))%Q).
    { rewrite inject_Z_mult, <- (pow2_Z (e0 - e)) by lia.
      rewrite (Qpower_minus 2 e0 e two_nonzero), E.
      unfold Qdiv. rewrite Qmult_assoc. reflexivity. }
    rewrite (nearest_even_Z _ _ D).
    rewrite <- D. unfold Qdiv. rewrite <- Qmult_assoc.
    rewrite (Qmult_comm (/ 2 ^ e)), Qmult_inv_r, Qmult_1_r.
    + reflexivity.
    + apply Qpower_not_0, two_nonzero.
Qed.

(** Between half a day and 2^53 seconds the difference with a day is a
    number of the format again. *)
Lemma finite_minus_day (x : Q) :
  finite x -> (inject_Z 43200 <= x)%Q -> (x <= inject_Z (2 ^ 53))%Q ->
  finite (x - inject_Z 86400).
Proof.
  intros (m & e & E & Hm & He) Lo Hi.
  destruct (Z_le_gt_dec 0 e) as [ P | N ].
  - (* an integer *)
    assert (EZ : (x == inject_Z (m * 2 ^ e))%Q).
    { rewrite inject_Z_mult, <- (pow2_Z e P). exact E. }
    exists (m * 2 ^ e - 86400), 0. repeat split; try lia.
    + rewrite EZ. unfold Zminus. rewrite inject_Z_plus, inject_Z_opp.
      rewrite Qpower_0_r, Qmult_1_r. reflexivity.
    + rewrite EZ in Lo, Hi. rewrite <- Zle_Qle in Lo, Hi. lia.
  - (* a fraction with denominator 2 ^ - e *)
    set (p := 2 ^ (- e)).
    assert (Hp : 0 < p) by (apply Z.pow_pos_nonneg; lia).
    assert (EP : (2 ^ e == / inject_Z p)%Q).
    { replace e with (- - e) at 1 by lia. rewrite Qpower_opp.
      rewrite (pow2_Z (- e)) by lia. reflexivity. }
    assert (NZ : ~ (inject_Z p == 0)%Q).
    { intros H. unfold Qeq in H. simpl in H. lia. }
    assert (PQ : (0 < inject_Z p)%Q).
    { change 0%Q with (inject_Z 0). rewrite <- Zlt_Qlt. exact Hp. }
    assert (EM : (x * inject_Z p == inject_Z m)%Q).
    { rewrite E, EP, <- Qmult_assoc, (Qmult_comm (/ inject_Z p)).
      rewrite Qmult_inv_r, Qmult_1_r; auto. reflexivity. }
    assert (Lm : 43200 * p <= m).
    { rewrite Zle_Qle, inject_Z_mult, <- EM.
      apply Qmult_le_compat_r; auto. apply Qlt_le_weak; auto. }
    exists (m - 86400 * p), e. repeat split; try lia.
    rewrite EP. unfold Zminus.
    rewrite inject_Z_plus, inject_Z_opp, inject_Z_mult, <- EM.
    field. exact NZ.
Qed.

(** Hence the subtraction of a day is exact there. *)
Lemma sub_day_exact (x : Q) :
  finite x -> (inject_Z 43200 <= x)%Q -> (x <= inject_Z (2 ^ 53))%Q ->
  (round (x - inject_Z 86400) == x - inject_Z 86400)%Q.
Proof.
  intros F Lo Hi. apply round_finite, finite_minus_day; auto.
Qed.

End Binary64Facts.

(** ** The diff and the commit of the Lashinbang adapter *)

Module LashinbangFacts.
Import Py Classutil Lashinbang SqlFacts.

Lemma lashinbang_compare_first_run (m : Manager Row) :
  (info_last (info m) == 0)%Q ->
  compare m
  = (with_info (set_sold 0)
       (with_info (set_discount 0) (with_info (set_new 0) m)),
     ([], [], [])).
Proof.
  intros H. unfold compare. apply Qeq_bool_iff in H. rewrite H.
  reflexivity.
Qed.

Lemma lashinbang_compare_later (m : Manager Row) :
  ~ (info_last (info m) == 0)%Q ->
  let t := temp (view (con m)) in
  let l := Classutil.main (view (con m)) in
  let sold :=
    if info_error (info m) =? 0
    then select_sold (info_last (info m)) t l else [] in
  snd (compare m)
  = (select_new (info_last (info m)) t l, select_discount t l, sold)
  /\ info_new (info (fst (compare m)))
     = len (select_new (info_last (info m)) t l)
  /\ info_discount (info (fst (compare m))) = len (select_discount t l)
  /\ info_sold (info (fst (compare m))) = len sold
  /\ con (fst (compare m)) = con m.
Proof.
  intros H. unfold compare.
  destruct (Qeq_bool (info_last (info m)) 0) eqn:E.
  - apply Qeq_bool_iff in E. contradiction.
  - simpl. destruct (info_error (info m) =? 0); simpl; auto.
Qed.

Lemma lashinbang_select_new_ids (last : Q) (t l : list Row) (i : Z) :
  In i (map item_id (select_new last t l))
  <-> In i (map row_id t)
      /\ (~ In i (map row_id l)
          \/ exists x u, In x l /\ row_id x = i
                         /\ update_time x = Some u /\ (u < last)%Q).
Proof.
  unfold select_new. rewrite map_map. split.
  - intros H. apply in_map_iff in H. destruct H as (r & E & Hr).
    apply filter_In in Hr. destruct Hr as (Hr & F).
    split; [ apply in_map_iff; exists r; auto | ].
    apply orb_true_iff in F. destruct F as [ F | F ].
    + left. apply negb_true_iff in F.
      apply (key_in_false row_id Z.eqb Z_eqb_spec) in F.
      unfold row_id in *. rewrite <- E. exact F.
    + right. apply (key_in_filter row_id Z.eqb Z_eqb_spec) in F.
      destruct F as (x & Hx & Ex & Fx). apply lt_param_spec in Fx.
      destruct Fx as (u & Eu & Hu). exists x, u.
      unfold row_id in *. repeat split; auto; congruence.
  - intros (H0 & H). apply in_map_iff in H0. destruct H0 as (r & E & Hr).
    apply in_map_iff. exists r. split; [ exact E | ].
    apply filter_In. split; [ exact Hr | ]. apply orb_true_iff.
    destruct H as [ H | (x & u & Hx & Ex & Eu & Hu) ].
    + left. apply negb_true_iff.
      apply (key_in_false row_id Z.eqb Z_eqb_spec). rewrite E. exact H.
    + right. apply (key_in_filter row_id Z.eqb Z_eqb_spec).
      exists x. repeat split; [ exact Hx | congruence | ].
      apply lt_param_spec. exists u. auto.
Qed.

Lemma lashinbang_select_discount_spec (t l : list Row) (d : Discount) :
  In d (select_discount t l)
  <-> exists tr lr, In tr t /\ In lr l /\ row_id tr = row_id lr
        /\ price (cols tr) < price (cols lr)
        /\ d = mkDiscount (row_id lr) (title (cols lr))
                 (item_url (cols lr)) (image_url (cols lr))
                 (price (cols lr)) (price (cols tr)).
Proof.
  unfold select_discount. rewrite in_flat_map. split.
  - intros (tr & Ht & H). apply in_map_iff in H.
    destruct H as (lr & E & Hl). apply filter_In in Hl.
    destruct Hl as (Hl & F). apply andb_true_iff in F.
    destruct F as (F1 & F2). apply Z.eqb_eq in F1. apply Z.ltb_lt in F2.
    exists tr, lr. auto.
  - intros (tr & lr & Ht & Hl & E & P & D). exists tr.
    split; [ exact Ht | ]. apply in_map_iff. exists lr.
    split; [ auto | ]. apply filter_In. split; [ exact Hl | ].
    apply andb_true_iff. split; [ apply Z.eqb_eq | apply Z.ltb_lt ]; auto.
Qed.

Lemma lashinbang_select_sold_ids (last : Q) (t l : list Row) (i : Z) :
  In i (map item_id (select_sold last t l))
  <-> ~ In i (map row_id t)
      /\ exists x u, In x l /\ row_id x = i
                     /\ update_time x = Some u /\ (last <= u)%Q.
Proof.
  unfold select_sold. rewrite map_map, in_map_iff. split.
  - intros (r & E & Hr). apply filter_In in Hr. destruct Hr as (Hr & F).
    apply andb_true_iff in F. destruct F as (F1 & F2).
    apply negb_true_iff in F1.
    apply (key_in_false row_id Z.eqb Z_eqb_spec) in F1.
    apply ge_param_spec in F2. destruct F2 as (u & Eu & Hu).
    unfold row_id in *. split; [ congruence | ]. exists r, u. auto.
  - intros (H & x & u & Hx & Ex & Eu & Hu). exists x.
    split; [ exact Ex | ]. apply filter_In. split; [ exact Hx | ].
    apply andb_true_iff. split.
    + apply negb_true_iff.
      apply (key_in_false row_id Z.eqb Z_eqb_spec). congruence.
    + apply ge_param_spec. exists u. auto.
Qed.

(** *** update *)

Lemma lashinbang_set_row_key (q : Z * option Q * Z) (r : Row) :
  row_id (set_row q r) = row_id r.
Proof. reflexivity. Qed.

Lemma lashinbang_set_row_absorb (q q' : Z * option Q * Z) (r : Row) :
  set_row q (set_row q' r) = set_row q r.
Proof. reflexivity. Qed.

Lemma lashinbang_update_main (m : Manager Row) :
  let t := temp (view (con m)) in
  let l := Classutil.main (view (con m)) in
  let l1 :=
    Sql.executemany_update row_id Z.eqb snd set_row (update_query t l) l in
  view (con (update m))
  = mkStore t
      (l1 ++ filter (fun r => negb (Sql.key_in row_id Z.eqb (row_id r) l1)) t)
      (log (view (con m)) ++ [log_row (info m)])
  /\ disk (con (update m)) = view (con (update m)).
Proof. split; reflexivity. Qed.

Lemma lashinbang_update_query_keys (t l : list Row) (r : Row) :
  In r l ->
  (In (row_id r) (map snd (update_query t l))
   <-> In (row_id r) (map row_id t)).
Proof.
  intros Hr. unfold update_query. rewrite map_map. simpl.
  rewrite !in_map_iff. split.
  - intros (s & E & Hs). apply filter_In in Hs. exists s. tauto.
  - intros (s & E & Hs). exists s. split; [ exact E | ].
    apply filter_In. split; [ exact Hs | ].
    apply (key_in_spec row_id Z.eqb Z_eqb_spec). rewrite E.
    apply in_map. exact Hr.
Qed.



Lemma lashinbang_update_overwrites (m : Manager Row) (r : Row) :
  In r (Classutil.main (view (con m))) ->
  In (row_id r) (map row_id (temp (view (con m)))) ->
  exists s,
    In s (temp (view (con m))) /\ row_id s = row_id r
    /\ In (mkRow (mkItem (item_id (cols r)) (title (cols r))
                    (item_url (cols r)) (image_url (cols r))
                    (price (cols s)))
             (record_time r) (update_time s))
         (Classutil.main (view (con (update m)))).
Proof.
  intros Hr Hi. destruct (lashinbang_update_main m) as (E & _). rewrite E. simpl.
  apply (lashinbang_update_query_keys _ _ _ Hr) in Hi.
  destruct (executemany_update_hit row_id Z.eqb Z_eqb_spec snd set_row
              lashinbang_set_row_key lashinbang_set_row_absorb _ _ r Hi Hr)
    as (q & Hq & Eq & Hin).
  unfold update_query in Hq. apply in_map_iff in Hq.
  destruct Hq as (s & Es & Hs). apply filter_In in Hs.
  destruct Hs as (Hs & _). subst q. simpl in Eq.
  exists s. split; [ exact Hs | ]. split; [ exact Eq | ].
  apply in_or_app. left. exact Hin.
Qed.

(** *** _to_table *)

Section World.
Variable net : nat -> Request -> Response string.
Variable page_count : string -> option Z.
Variable decode : string -> Decoded.
Variable accepts : Item -> bool.
Variable watermark : string -> list LogRow -> Q.
Variable now : Q.

Lemma lashinbang_to_table_fails (m : Manager Row) (data : list Item) :
  forallb accepts data = false ->
  _to_table accepts m data
  = (with_con (fun _ => mkConn (disk (con m)) (disk (con m))) m,
     Raise DatabaseError).
Proof.
  intros H. unfold _to_table.
  destruct (executemany_insert_fails row_id Z.eqb accepts stage data
              (temp (view (con m))) H) as (partial & E).
  rewrite E. reflexivity.
Qed.

Lemma lashinbang_to_table_succeeds (m : Manager Row) (data : list Item) :
  forallb accepts data = true ->
  exists written,
    _to_table accepts m data
    = (with_con (fun _ =>
         let s := mkStore (map (stamp (info_time (info m))) written)
                    (Classutil.main (view (con m)))
                    (log (view (con m))) in
         mkConn s s) m, Return tt).
Proof.
  intros H. unfold _to_table.
  rewrite (executemany_insert_succeeds row_id Z.eqb accepts stage data
             (temp (view (con m))) H).
  eexists. reflexivity.
Qed.

(** Whatever the outcome, [_to_table] leaves the connection with
    nothing pending and touches neither the persistent table nor the
    log, provided nothing was pending before. *)
Lemma lashinbang_to_table_frame (m : Manager Row) (data : list Item) :
  view (con m) = disk (con m) ->
  let m' := fst (_to_table accepts m data) in
  view (con m') = disk (con m')
  /\ Classutil.main (disk (con m')) = Classutil.main (disk (con m))
  /\ log (disk (con m')) = log (disk (con m)).
Proof.
  intros V. destruct (forallb accepts data) eqn:A.
  - destruct (lashinbang_to_table_succeeds m data A) as (w & E). rewrite E.
    simpl. rewrite V. auto.
  - rewrite (lashinbang_to_table_fails m data A). simpl. auto.
Qed.

Lemma lashinbang_get_item_con (m : Manager Row) :
  view (con m) = disk (con m) ->
  let m' := fst (get_item net page_count decode accepts m) in
  view (con m') = disk (con m')
  /\ Classutil.main (disk (con m')) = Classutil.main (disk (con m))
  /\ log (disk (con m')) = log (disk (con m)).
Proof.
  intros V. unfold get_item.
  destruct (get_many net page_count (crawler m) (keywords m))
    as (c, [ raw | e ]); simpl; [ | auto ].
  destruct (parse_pages decode (page_texts raw) [] (error_count c))
    as [ (items, err) | e ]; simpl; [ | auto ].
  match goal with
  | |- context [ _to_table accepts ?m0 items ] =>
      apply (lashinbang_to_table_frame m0 items); exact V
  end.
Qed.

Lemma lashinbang_compare_con (m : Manager Row) : con (fst (compare m)) = con m.
Proof.
  unfold compare. destruct (Qeq_bool (info_last (info m)) 0); simpl.
  - reflexivity.
  - destruct (info_error (info m) =? 0); reflexivity.
Qed.

(** A run without [update] leaves the persistent table and the log of
    the database file as they were. *)
Lemma lashinbang_main_without_update (kws : list string) (db : Store Row) :
  let s := fst (Lashinbang.main net page_count decode accepts watermark
                  now kws db false) in
  Classutil.main s = Classutil.main db /\ log s = log db.
Proof.
  unfold Lashinbang.main.
  pose proof (lashinbang_get_item_con (new_manager watermark now kws db)
                eq_refl) as H.
  simpl in H. destruct H as (_ & H1 & H2).
  destruct (get_item net page_count decode accepts
              (new_manager watermark now kws db)) as (m1, [ [] | e ]);
    simpl in *.
  - unfold get_message. pose proof (lashinbang_compare_con m1) as C.
    destruct (compare m1) as (m2, msg). simpl in *. rewrite C. auto.
  - auto.
Qed.

Lemma lashinbang_to_table_stamps (m : Manager Row) (data : list Item) (r : Row) :
  forallb accepts data = true ->
  In r (temp (view (con (fst (_to_table accepts m data))))) ->
  record_time r = Some (info_time (info m))
  /\ update_time r = Some (info_time (info m)).
Proof.
  intros A. destruct (lashinbang_to_table_succeeds m data A) as (w & E).
  rewrite E. simpl. intros H. apply in_map_iff in H.
  destruct H as (r0 & E0 & _). subst r. split; reflexivity.
Qed.

(** When the bulk insert of a run fails, [main] ends with the
    exception, for either value of [update], and the database file
    has an empty staging table and its persistent table and log as
    before. *)
Lemma lashinbang_main_aborts (kws : list string) (db : Store Row) (upd : bool)
    (c : Crawler) (raw : list (string * Pages)) (items : list Item)
    (err : Z) :
  get_many net page_count new_crawler kws = (c, Return raw) ->
  parse_pages decode (page_texts raw) [] (error_count c)
  = Return (items, err) ->
  forallb accepts items = false ->
  Lashinbang.main net page_count decode accepts watermark now kws db upd
  = (mkStore [] (Classutil.main db) (log db), Raise DatabaseError).
Proof.
  intros G P A. unfold Lashinbang.main, get_item, new_manager. simpl.
  rewrite G. simpl. rewrite P. rewrite (lashinbang_to_table_fails _ _ A).
  reflexivity.
Qed.
End World.

End LashinbangFacts.

(** ** The diff and the commit of the Mercari adapter *)

Module MercariFacts.
Import Py Classutil Mercari SqlFacts.

Lemma mercari_compare_first_run (m : Manager Row) :
  (info_last (info m) == 0)%Q ->
  compare m
  = (with_info (set_sold 0)
       (with_info (set_discount 0) (with_info (set_new 0) m)),
     ([], [], [])).
Proof.
  intros H. unfold compare. apply Qeq_bool_iff in H. rewrite H.
  reflexivity.
Qed.

Lemma mercari_compare_later (m : Manager Row) :
  ~ (info_last (info m) == 0)%Q ->
  let t := temp (view (con m)) in
  let l := Classutil.main (view (con m)) in
  snd (compare m) = (select_new t l, select_discount t l, select_sold t l)
  /\ info_new (info (fst (compare m))) = len (select_new t l)
  /\ info_discount (info (fst (compare m))) = len (select_discount t l)
  /\ info_sold (info (fst (compare m))) = len (select_sold t l)
  /\ con (fst (compare m)) = con m.
Proof.
  intros H. unfold compare.
  destruct (Qeq_bool (info_last (info m)) 0) eqn:E.
  - apply Qeq_bool_iff in E. contradiction.
  - simpl. auto.
Qed.

(** The two status-driven queries have one shape: staged rows with
    status [a] whose id is not stored, or stored with status [b]. *)
Lemma mercari_status_query_ids (a b : Z) (t l : list Row) (i : string) :
  In i (map e_item_id
          (map entry
             (filter (fun r =>
                (onsale (cols r) =? a)
                && (negb (Sql.key_in row_id String.eqb (row_id r) l)
                    || Sql.key_in row_id String.eqb (row_id r)
                         (filter (fun x => onsale (cols x) =? b) l))) t)))
  <-> exists r, In r t /\ row_id r = i /\ onsale (cols r) = a
        /\ (~ In i (map row_id l)
            \/ exists x, In x l /\ row_id x = i /\ onsale (cols x) = b).
Proof.
  rewrite map_map. split.
  - intros H. apply in_map_iff in H. destruct H as (r & E & Hr).
    simpl in E. apply filter_In in Hr. destruct Hr as (Hr & F).
    apply andb_true_iff in F. destruct F as (Fa & F).
    apply Z.eqb_eq in Fa. exists r. repeat split; auto.
    apply orb_true_iff in F. destruct F as [ F | F ].
    + left. apply negb_true_iff in F.
      apply (key_in_false row_id String.eqb string_eqb_spec) in F.
      rewrite <- E. exact F.
    + right. apply (key_in_filter row_id String.eqb string_eqb_spec) in F.
      destruct F as (x & Hx & Ex & Fx). apply Z.eqb_eq in Fx.
      exists x. repeat split; auto; congruence.
  - intros (r & Hr & E & Fa & H). apply in_map_iff. exists r.
    split; [ exact E | ]. apply filter_In. split; [ exact Hr | ].
    apply andb_true_iff. split; [ apply Z.eqb_eq; exact Fa | ].
    apply orb_true_iff. destruct H as [ H | (x & Hx & Ex & Fx) ].
    + left. apply negb_true_iff.
      apply (key_in_false row_id String.eqb string_eqb_spec).
      rewrite E. exact H.
    + right. apply (key_in_filter row_id String.eqb string_eqb_spec).
      exists x. repeat split; [ exact Hx | congruence | ].
      apply Z.eqb_eq. exact Fx.
Qed.

Lemma mercari_select_new_ids (t l : list Row) (i : string) :
  In i (map e_item_id (select_new t l))
  <-> exists r, In r t /\ row_id r = i /\ onsale (cols r) = 1
        /\ (~ In i (map row_id l)
            \/ exists x, In x l /\ row_id x = i /\ onsale (cols x) = 0).
Proof. apply mercari_status_query_ids. Qed.

Lemma mercari_select_sold_ids (t l : list Row) (i : string) :
  In i (map e_item_id (select_sold t l))
  <-> exists r, In r t /\ row_id r = i /\ onsale (cols r) = 0
        /\ (~ In i (map row_id l)
            \/ exists x, In x l /\ row_id x = i /\ onsale (cols x) = 1).
Proof. apply mercari_status_query_ids. Qed.

Lemma mercari_select_discount_spec (t l : list Row) (d : Discount) :
  In d (select_discount t l)
  <-> exists tr lr, In tr t /\ In lr l /\ row_id tr = row_id lr
        /\ price (cols tr) < price (cols lr)
        /\ onsale (cols tr) = 1
        /\ d = mkDiscount (row_id tr) (title (cols tr))
                 (item_url (cols tr)) (image_url (cols tr))
                 (price (cols lr)) (price (cols tr)).
Proof.
  unfold select_discount. rewrite in_flat_map. split.
  - intros (tr & Ht & H). apply in_map_iff in H.
    destruct H as (lr & E & Hl). apply filter_In in Hl.
    destruct Hl as (Hl & F). apply andb_true_iff in F.
    destruct F as (F1 & F2). apply andb_true_iff in F2.
    destruct F2 as (F2 & F3). apply String.eqb_eq in F1.
    apply Z.ltb_lt in F2. apply Z.eqb_eq in F3.
    exists tr, lr. repeat split; auto.
  - intros (tr & lr & Ht & Hl & E & P & S & D). exists tr.
    split; [ exact Ht | ]. apply in_map_iff. exists lr.
    split; [ auto | ]. apply filter_In. split; [ exact Hl | ].
    rewrite !andb_true_iff.
    repeat split;
      [ apply String.eqb_eq | apply Z.ltb_lt | apply Z.eqb_eq ]; auto.
Qed.

(** *** update *)

Lemma mercari_set_row_key (q : Z * Z * option Q * string) (r : Row) :
  row_id (set_row q r) = row_id r.
Proof. reflexivity. Qed.

Lemma mercari_set_row_absorb (q q' : Z * Z * option Q * string) (r : Row) :
  set_row q (set_row q' r) = set_row q r.
Proof. reflexivity. Qed.

Lemma mercari_update_main (m : Manager Row) :
  let t := temp (view (con m)) in
  let l := Classutil.main (view (con m)) in
  let l1 :=
    Sql.executemany_update row_id String.eqb snd set_row
      (update_query t l) l in
  view (con (update m))
  = mkStore t
      (l1 ++ filter (fun r =>
               negb (Sql.key_in row_id String.eqb (row_id r) l1)) t)
      (log (view (con m)) ++ [log_row (info m)])
  /\ disk (con (update m)) = view (con (update m)).
Proof. split; reflexivity. Qed.

Lemma mercari_update_query_keys (t l : list Row) (r : Row) :
  In r l ->
  (In (row_id r) (map snd (update_query t l))
   <-> In (row_id r) (map row_id t)).
Proof.
  intros Hr. unfold update_query. rewrite map_map. simpl.
  rewrite !in_map_iff. split.
  - intros (s & E & Hs). apply filter_In in Hs. exists s. tauto.
  - intros (s & E & Hs). exists s. split; [ exact E | ].
    apply filter_In. split; [ exact Hs | ].
    apply (key_in_spec row_id String.eqb string_eqb_spec). rewrite E.
    apply in_map. exact Hr.
Qed.



Lemma mercari_update_overwrites (m : Manager Row) (r : Row) :
  In r (Classutil.main (view (con m))) ->
  In (row_id r) (map row_id (temp (view (con m)))) ->
  exists s,
    In s (temp (view (con m))) /\ row_id s = row_id r
    /\ In (mkRow (mkItem (item_id (cols r)) (seller_id (cols r))
                    (title (cols r)) (item_url (cols r))
                    (image_url (cols r)) (price (cols s))
                    (onsale (cols s)))
             (record_time r) (update_time s))
         (Classutil.main (view (con (update m)))).
Proof.
  intros Hr Hi. destruct (mercari_update_main m) as (E & _). rewrite E. simpl.
  apply (mercari_update_query_keys _ _ _ Hr) in Hi.
  destruct (executemany_update_hit row_id String.eqb string_eqb_spec snd
              set_row mercari_set_row_key mercari_set_row_absorb _ _ r Hi Hr)
    as (q & Hq & Eq & Hin).
  unfold update_query in Hq. apply in_map_iff in Hq.
  destruct Hq as (s & Es & Hs). apply filter_In in Hs.
  destruct Hs as (Hs & _). subst q. simpl in Eq.
  exists s. split; [ exact Hs | ]. split; [ exact Eq | ].
  apply in_or_app. left. exact Hin.
Qed.

(** *** _to_table *)

Section World.
Variable net : nat -> Request -> Response Payload.
Variable accepts : Item -> bool.
Variable watermark : string -> list LogRow -> Q.
Variable now : Q.

Lemma mercari_to_table_fails (m : Manager Row) (data : list Item) :
  forallb accepts data = false ->
  _to_table accepts m data
  = (with_con (fun _ => mkConn (disk (con m)) (disk (con m))) m,
     Raise DatabaseError).
Proof.
  intros H. unfold _to_table.
  destruct (executemany_insert_fails row_id String.eqb accepts stage
              data (temp (view (con m))) H) as (partial & E).
  rewrite E. reflexivity.
Qed.

Lemma mercari_to_table_succeeds (m : Manager Row) (data : list Item) :
  forallb accepts data = true ->
  exists written,
    _to_table accepts m data
    = (with_con (fun _ =>
         let s := mkStore (map (stamp (info_time (info m))) written)
                    (Classutil.main (view (con m)))
                    (log (view (con m))) in
         mkConn s s) m, Return tt).
Proof.
  intros H. unfold _to_table.
  rewrite (executemany_insert_succeeds row_id String.eqb accepts stage
             data (temp (view (con m))) H).
  eexists. reflexivity.
Qed.

Lemma mercari_to_table_frame (m : Manager Row) (data : list Item) :
  view (con m) = disk (con m) ->
  let m' := fst (_to_table accepts m data) in
  view (con m') = disk (con m')
  /\ Classutil.main (disk (con m')) = Classutil.main (disk (con m))
  /\ log (disk (con m')) = log (disk (con m)).
Proof.
  intros V. destruct (forallb accepts data) eqn:A.
  - destruct (mercari_to_table_succeeds m data A) as (w & E). rewrite E.
    simpl. rewrite V. auto.
  - rewrite (mercari_to_table_fails m data A). simpl. auto.
Qed.

Lemma mercari_get_item_con (m : Manager Row) :
  view (con m) = disk (con m) ->
  let m' := fst (get_item net accepts m) in
  view (con m') = disk (con m')
  /\ Classutil.main (disk (con m')) = Classutil.main (disk (con m))
  /\ log (disk (con m')) = log (disk (con m)).
Proof.
  intros V. unfold get_item.
  destruct (get_many net (crawler m) (keywords m)) as (c, raw); simpl.
  destruct (parse_all raw [] (error_count c))
    as [ (items, err) | e ]; simpl; [ | auto ].
  match goal with
  | |- context [ _to_table accepts ?m0 items ] =>
      apply (mercari_to_table_frame m0 items); exact V
  end.
Qed.

Lemma mercari_compare_con (m : Manager Row) : con (fst (compare m)) = con m.
Proof.
  unfold compare. destruct (Qeq_bool (info_last (info m)) 0);
    reflexivity.
Qed.

Lemma mercari_main_without_update (kws : list string) (db : Store Row) :
  let s := fst (Mercari.main net accepts watermark now kws db false) in
  Classutil.main s = Classutil.main db /\ log s = log db.
Proof.
  unfold Mercari.main.
  pose proof (mercari_get_item_con (new_manager watermark now kws db)
                eq_refl) as H.
  simpl in H. destruct H as (_ & H1 & H2).
  destruct (get_item net accepts (new_manager watermark now kws db))
    as (m1, [ [] | e ]); simpl in *.
  - unfold get_message. pose proof (mercari_compare_con m1) as C.
    destruct (compare m1) as (m2, msg). simpl in *. rewrite C. auto.
  - auto.
Qed.

Lemma mercari_to_table_stamps (m : Manager Row) (data : list Item) (r : Row) :
  forallb accepts data = true ->
  In r (temp (view (con (fst (_to_table accepts m data))))) ->
  record_time r = Some (info_time (info m))
  /\ update_time r = Some (info_time (info m)).
Proof.
  intros A. destruct (mercari_to_table_succeeds m data A) as (w & E).
  rewrite E. simpl. intros H. apply in_map_iff in H.
  destruct H as (r0 & E0 & _). subst r. split; reflexivity.
Qed.

Lemma mercari_main_aborts (kws : list string) (db : Store Row) (upd : bool)
    (c : Crawler) (raw : list (string * option (list RawItem)))
    (items : list Item) (err : Z) :
  get_many net new_crawler kws = (c, raw) ->
  parse_all raw [] (error_count c) = Return (items, err) ->
  forallb accepts items = false ->
  Mercari.main net accepts watermark now kws db upd
  = (mkStore [] (Classutil.main db) (log db), Raise DatabaseError).
Proof.
  intros G P A. unfold Mercari.main, get_item, new_manager. simpl.
  rewrite G. simpl. rewrite P. rewrite (mercari_to_table_fails _ _ A).
  reflexivity.
Qed.
End World.

End MercariFacts.

(** ** The diff and the commit of the Yahoo adapter *)

Module YahooFacts.
Import Py Classutil Yahoo SqlFacts.

Lemma yahoo_compare_first_run (m : Manager Row) :
  (info_last (info m) == 0)%Q ->
  compare m
  = (with_info (set_bid 0)
       (with_info (set_discount 0) (with_info (set_new 0) m)),
     ([], [], [])).
Proof.
  intros H. unfold compare. apply Qeq_bool_iff in H. rewrite H.
  reflexivity.
Qed.

Lemma yahoo_compare_later (m : Manager Row) :
  ~ (info_last (info m) == 0)%Q ->
  let t := temp (view (con m)) in
  let l := Classutil.main (view (con m)) in
  let expire := Binary64.sub (info_last (info m)) (inject_Z 86400) in
  snd (compare m)
  = (select_new expire t l, select_discount t l, select_bid t l)
  /\ info_new (info (fst (compare m))) = len (select_new expire t l)
  /\ info_discount (info (fst (compare m))) = len (select_discount t l)
  /\ info_bid (info (fst (compare m))) = len (select_bid t l)
  /\ con (fst (compare m)) = con m.
Proof.
  intros H. unfold compare.
  destruct (Qeq_bool (info_last (info m)) 0) eqn:E.
  - apply Qeq_bool_iff in E. contradiction.
  - simpl. auto.
Qed.

Lemma yahoo_select_new_ids (expire : Q) (t l : list Row) (i : string) :
  In i (map e_item_id (select_new expire t l))
  <-> In i (map row_id t)
      /\ (~ In i (map row_id l)
          \/ exists x u, In x l /\ row_id x = i
                         /\ update_time x = Some u /\ (u < expire)%Q).
Proof.
  unfold select_new. rewrite map_map. split.
  - intros H. apply in_map_iff in H. destruct H as (r & E & Hr).
    simpl in E. apply filter_In in Hr. destruct Hr as (Hr & F).
    split; [ apply in_map_iff; exists r; auto | ].
    apply orb_true_iff in F. destruct F as [ F | F ].
    + left. apply negb_true_iff in F.
      apply (key_in_false row_id String.eqb string_eqb_spec) in F.
      rewrite <- E. exact F.
    + right. apply (key_in_filter row_id String.eqb string_eqb_spec) in F.
      destruct F as (x & Hx & Ex & Fx). apply lt_param_spec in Fx.
      destruct Fx as (u & Eu & Hu). exists x, u.
      repeat split; auto; congruence.
  - intros (H0 & H). apply in_map_iff in H0. destruct H0 as (r & E & Hr).
    apply in_map_iff. exists r. split; [ exact E | ].
    apply filter_In. split; [ exact Hr | ]. apply orb_true_iff.
    destruct H as [ H | (x & u & Hx & Ex & Eu & Hu) ].
    + left. apply negb_true_iff.
      apply (key_in_false row_id String.eqb string_eqb_spec).
      rewrite E. exact H.
    + right. apply (key_in_filter row_id String.eqb string_eqb_spec).
      exists x. repeat split; [ exact Hx | congruence | ].
      apply lt_param_spec. exists u. auto.
Qed.

Lemma yahoo_select_discount_spec (t l : list Row) (d : Discount) :
  In d (select_discount t l)
  <-> exists tr lr, In tr t /\ In lr l /\ row_id tr = row_id lr
        /\ (bid_price (cols tr) < bid_price (cols lr)
            \/ full_price (cols tr) < full_price (cols lr))
        /\ bid_num (cols lr) = 0
        /\ d = mkDiscount (row_id tr) (title (cols tr))
                 (item_url (cols tr)) (image_url (cols tr))
                 (bid_price (cols lr)) (full_price (cols lr))
                 (bid_price (cols tr)) (full_price (cols tr))
                 (end_ (cols tr)) (bid_num (cols tr)).
Proof.
  unfold select_discount. rewrite in_flat_map. split.
  - intros (tr & Ht & H). apply in_map_iff in H.
    destruct H as (lr & E & Hl). apply filter_In in Hl.
    destruct Hl as (Hl & F). apply andb_true_iff in F.
    destruct F as (F1 & F2). apply andb_true_iff in F2.
    destruct F2 as (F2 & F3). apply String.eqb_eq in F1.
    apply orb_true_iff in F2. rewrite !Z.ltb_lt in F2.
    apply Z.eqb_eq in F3.
    exists tr, lr. repeat split; auto.
  - intros (tr & lr & Ht & Hl & E & P & S & D). exists tr.
    split; [ exact Ht | ]. apply in_map_iff. exists lr.
    split; [ auto | ]. apply filter_In. split; [ exact Hl | ].
    rewrite !andb_true_iff, orb_true_iff, !Z.ltb_lt.
    repeat split; [ apply String.eqb_eq | | apply Z.eqb_eq ]; auto.
Qed.

Lemma yahoo_select_bid_spec (t l : list Row) (b : Bid) :
  In b (select_bid t l)
  <-> exists tr lr, In tr t /\ In lr l /\ row_id tr = row_id lr
        /\ bid_num (cols lr) < bid_num (cols tr)
        /\ b = mkBid (row_id tr) (title (cols tr)) (item_url (cols tr))
                 (image_url (cols tr)) (bid_price (cols tr))
                 (full_price (cols tr)) (end_ (cols tr))
                 (bid_num (cols lr)) (bid_num (cols tr)).
Proof.
  unfold select_bid. rewrite in_flat_map. split.
  - intros (tr & Ht & H). apply in_map_iff in H.
    destruct H as (lr & E & Hl). apply filter_In in Hl.
    destruct Hl as (Hl & F). apply andb_true_iff in F.
    destruct F as (F1 & F2). apply String.eqb_eq in F1.
    apply Z.ltb_lt in F2. exists tr, lr. repeat split; auto.
  - intros (tr & lr & Ht & Hl & E & P & D). exists tr.
    split; [ exact Ht | ]. apply in_map_iff. exists lr.
    split; [ auto | ]. apply filter_In. split; [ exact Hl | ].
    rewrite andb_true_iff.
    split; [ apply String.eqb_eq | apply Z.ltb_lt ]; auto.
Qed.

(** *** update *)

Lemma yahoo_set_row_key (q : Z * Z * Q * Z * option Q * string) (r : Row) :
  row_id (set_row q r) = row_id r.
Proof. reflexivity. Qed.

Lemma yahoo_set_row_absorb (q q' : Z * Z * Q * Z * option Q * string) (r : Row) :
  set_row q (set_row q' r) = set_row q r.
Proof. reflexivity. Qed.

Lemma yahoo_update_main (m : Manager Row) :
  let t := temp (view (con m)) in
  let l := Classutil.main (view (con m)) in
  let l1 :=
    Sql.executemany_update row_id String.eqb snd set_row
      (update_query t l) l in
  view (con (update m))
  = mkStore t
      (l1 ++ filter (fun r =>
               negb (Sql.key_in row_id String.eqb (row_id r) l1)) t)
      (log (view (con m)) ++ [log_row (info m)])
  /\ disk (con (update m)) = view (con (update m)).
Proof. split; reflexivity. Qed.

Lemma yahoo_update_query_keys (t l : list Row) (r : Row) :
  In r l ->
  (In (row_id r) (map snd (update_query t l))
   <-> In (row_id r) (map row_id t)).
Proof.
  intros Hr. unfold update_query. rewrite map_map. simpl.
  rewrite !in_map_iff. split.
  - intros (s & E & Hs). apply filter_In in Hs. exists s. tauto.
  - intros (s & E & Hs). exists s. split; [ exact E | ].
    apply filter_In. split; [ exact Hs | ].
    apply (key_in_spec row_id String.eqb string_eqb_spec). rewrite E.
    apply in_map. exact Hr.
Qed.



Lemma yahoo_update_overwrites (m : Manager Row) (r : Row) :
  In r (Classutil.main (view (con m))) ->
  In (row_id r) (map row_id (temp (view (con m)))) ->
  exists s,
    In s (temp (view (con m))) /\ row_id s = row_id r
    /\ In (mkRow (mkItem (item_id (cols r)) (seller_id (cols r))
                    (title (cols r)) (item_url (cols r))
                    (image_url (cols r)) (bid_price (cols s))
                    (full_price (cols s)) (end_ (cols s))
                    (bid_num (cols s)))
             (record_time r) (update_time s))
         (Classutil.main (view (con (update m)))).
Proof.
  intros Hr Hi. destruct (yahoo_update_main m) as (E & _). rewrite E. simpl.
  apply (yahoo_update_query_keys _ _ _ Hr) in Hi.
  destruct (executemany_update_hit row_id String.eqb string_eqb_spec snd
              set_row yahoo_set_row_key yahoo_set_row_absorb _ _ r Hi Hr)
    as (q & Hq & Eq & Hin).
  unfold update_query in Hq. apply in_map_iff in Hq.
  destruct Hq as (s & Es & Hs). apply filter_In in Hs.
  destruct Hs as (Hs & _). subst q. simpl in Eq.
  exists s. split; [ exact Hs | ]. split; [ exact Eq | ].
  apply in_or_app. left. exact Hin.
Qed.

(** *** _to_table *)

Section World.
Variable net : nat -> Request -> Response string.
Variable parse : string -> Parsed.
Variable accepts : Item -> bool.
Variable watermark : string -> list LogRow -> Q.
Variable now : Q.

Lemma yahoo_to_table_fails (m : Manager Row) (data : list Item) :
  forallb accepts data = false ->
  _to_table accepts m data
  = (with_con (fun _ => mkConn (disk (con m)) (disk (con m))) m,
     Raise DatabaseError).
Proof.
  intros H. unfold _to_table.
  destruct (executemany_insert_fails row_id String.eqb accepts stage
              data (temp (view (con m))) H) as (partial & E).
  rewrite E. reflexivity.
Qed.

Lemma yahoo_to_table_succeeds (m : Manager Row) (data : list Item) :
  forallb accepts data = true ->
  exists written,
    _to_table accepts m data
    = (with_con (fun _ =>
         let s := mkStore (map (stamp (info_time (info m))) written)
                    (Classutil.main (view (con m)))
                    (log (view (con m))) in
         mkConn s s) m, Return tt).
Proof.
  intros H. unfold _to_table.
  rewrite (executemany_insert_succeeds row_id String.eqb accepts stage
             data (temp (view (con m))) H).
  eexists. reflexivity.
Qed.

Lemma yahoo_to_table_frame (m : Manager Row) (data : list Item) :
  view (con m) = disk (con m) ->
  let m' := fst (_to_table accepts m data) in
  view (con m') = disk (con m')
  /\ Classutil.main (disk (con m')) = Classutil.main (disk (con m))
  /\ log (disk (con m')) = log (disk (con m)).
Proof.
  intros V. destruct (forallb accepts data) eqn:A.
  - destruct (yahoo_to_table_succeeds m data A) as (w & E). rewrite E.
    simpl. rewrite V. auto.
  - rewrite (yahoo_to_table_fails m data A). simpl. auto.
Qed.

Lemma yahoo_get_item_con (m : Manager Row) :
  view (con m) = disk (con m) ->
  let m' := fst (get_item net parse accepts m) in
  view (con m') = disk (con m')
  /\ Classutil.main (disk (con m')) = Classutil.main (disk (con m))
  /\ log (disk (con m')) = log (disk (con m)).
Proof.
  intros V. unfold get_item.
  destruct (get_many net (crawler m) (keywords m)) as (c, raw); simpl.
  destruct (parse_all parse raw [] (error_count c))
    as [ (items, err) | e ]; simpl; [ | auto ].
  match goal with
  | |- context [ _to_table accepts ?m0 items ] =>
      apply (yahoo_to_table_frame m0 items); exact V
  end.
Qed.

Lemma yahoo_compare_con (m : Manager Row) : con (fst (compare m)) = con m.
Proof.
  unfold compare. destruct (Qeq_bool (info_last (info m)) 0);
    reflexivity.
Qed.

Lemma yahoo_main_without_update (kws : list string) (db : Store Row) :
  let s := fst (Yahoo.main net parse accepts watermark now kws db
                  false) in
  Classutil.main s = Classutil.main db /\ log s = log db.
Proof.
  unfold Yahoo.main.
  pose proof (yahoo_get_item_con (new_manager watermark now kws db)
                eq_refl) as H.
  simpl in H. destruct H as (_ & H1 & H2).
  destruct (get_item net parse accepts
              (new_manager watermark now kws db))
    as (m1, [ [] | e ]); simpl in *.
  - unfold get_message. pose proof (yahoo_compare_con m1) as C.
    destruct (compare m1) as (m2, msg). simpl in *. rewrite C. auto.
  - auto.
Qed.

Lemma yahoo_to_table_stamps (m : Manager Row) (data : list Item) (r : Row) :
  forallb accepts data = true ->
  In r (temp (view (con (fst (_to_table accepts m data))))) ->
  record_time r = Some (info_time (info m))
  /\ update_time r = Some (info_time (info m)).
Proof.
  intros A. destruct (yahoo_to_table_succeeds m data A) as (w & E).
  rewrite E. simpl. intros H. apply in_map_iff in H.
  destruct H as (r0 & E0 & _). subst r. split; reflexivity.
Qed.

Lemma yahoo_main_aborts (kws : list string) (db : Store Row) (upd : bool)
    (c : Crawler) (raw : list (string * string)) (items : list Item)
    (err : Z) :
  get_many net new_crawler kws = (c, raw) ->
  parse_all parse raw [] (error_count c) = Return (items, err) ->
  forallb accepts items = false ->
  Yahoo.main net parse accepts watermark now kws db upd
  = (mkStore [] (Classutil.main db) (log db), Raise DatabaseError).
Proof.
  intros G P A. unfold Yahoo.main, get_item, new_manager. simpl.
  rewrite G. simpl. rewrite P. rewrite (yahoo_to_table_fails _ _ A).
  reflexivity.
Qed.
End World.

End YahooFacts.

(** ** The diff engine *)

Import Py Classutil.

(** C5. With a zero watermark [compare] returns three empty lists and
    sets the three counts of [info] to zero in every adapter, whatever
    the staging and the persistent table hold; the connection is not
    touched. *)
Theorem first_run_reports_nothing :
  (forall m : Manager Lashinbang.Row,
      (info_last (info m) == 0)%Q ->
      let r := Lashinbang.compare m in
      snd r = ([], [], [])
      /\ info_new (info (fst r)) = 0
      /\ info_discount (info (fst r)) = 0
      /\ info_sold (info (fst r)) = 0
      /\ con (fst r) = con m)
  /\ (forall m : Manager Mercari.Row,
      (info_last (info m) == 0)%Q ->
      let r := Mercari.compare m in
      snd r = ([], [], [])
      /\ info_new (info (fst r)) = 0
      /\ info_discount (info (fst r)) = 0
      /\ info_sold (info (fst r)) = 0
      /\ con (fst r) = con m)
  /\ (forall m : Manager Yahoo.Row,
      (info_last (info m) == 0)%Q ->
      let r := Yahoo.compare m in
      snd r = ([], [], [])
      /\ info_new (info (fst r)) = 0
      /\ info_discount (info (fst r)) = 0
      /\ info_bid (info (fst r)) = 0
      /\ con (fst r) = con m).
Proof.
  split; [ | split ]; intros m H; cbv zeta.
  - rewrite (LashinbangFacts.lashinbang_compare_first_run m H). simpl. auto.
  - rewrite (MercariFacts.mercari_compare_first_run m H). simpl. auto.
  - rewrite (YahooFacts.yahoo_compare_first_run m H). simpl. auto.
Qed.

Lemma first_run_reports_nothing_witness :
  snd (Lashinbang.compare (Sample.L.manager 0 0)) = ([], [], [])
  /\ snd (Mercari.compare (Sample.M.manager 0 0)) = ([], [], [])
  /\ snd (Yahoo.compare (Sample.Y.manager 0 0)) = ([], [], []).
Proof.
  destruct first_run_reports_nothing as (HL & HM & HY).
  split; [ | split ].
  - apply (HL (Sample.L.manager 0 0)). reflexivity.
  - apply (HM (Sample.M.manager 0 0)). reflexivity.
  - apply (HY (Sample.Y.manager 0 0)). reflexivity.
Defined.

(** C1 (as the code has it).  With a nonzero watermark and a nonzero
    error count the Lashinbang adapter returns an empty sold list and a
    sold count of zero, whichever ids are missing from staging.  The
    Mercari adapter does not look at the error count: its sold list is
    made of the staged rows with [onsale = 0] whose id is not stored or is
    stored with [onsale = 1], so an id that is missing from staging is
    never in it.  The Yahoo adapter returns no sold list. *)
Theorem sold_under_fetch_errors :
  (forall m : Manager Lashinbang.Row,
      ~ (info_last (info m) == 0)%Q ->
      info_error (info m) <> 0 ->
      let r := Lashinbang.compare m in
      snd (snd r) = [] /\ info_sold (info (fst r)) = 0)
  /\ (forall (m : Manager Mercari.Row) (i : string),
      ~ (info_last (info m) == 0)%Q ->
      let r := Mercari.compare m in
      (In i (map Mercari.e_item_id (snd (snd r)))
       <-> exists s, In s (temp (view (con m))) /\ Mercari.row_id s = i
             /\ Mercari.onsale (Mercari.cols s) = 0
             /\ (~ In i (map Mercari.row_id (Classutil.main (view (con m))))
                 \/ exists x, In x (Classutil.main (view (con m)))
                      /\ Mercari.row_id x = i
                      /\ Mercari.onsale (Mercari.cols x) = 1))
      /\ info_sold (info (fst r)) = len (snd (snd r))).
Proof.
  split.
  - intros m H E. cbv zeta.
    destruct (LashinbangFacts.lashinbang_compare_later m H) as (R & _ & _ & S & _).
    apply Z.eqb_neq in E. rewrite E in R, S. rewrite R, S. auto.
  - intros m i H. cbv zeta.
    destruct (MercariFacts.mercari_compare_later m H) as (R & _ & _ & S & _).
    rewrite R, S. simpl. split; [ | reflexivity ].
    apply MercariFacts.mercari_select_sold_ids.
Qed.

Lemma sold_under_fetch_errors_witness :
  (snd (snd (Lashinbang.compare (Sample.L.manager 100 1))) = []
   /\ info_sold (info (fst (Lashinbang.compare (Sample.L.manager 100 1))))
      = 0)
  /\ info_sold (info (fst (Mercari.compare (Sample.M.manager 100 1))))
     = len (snd (snd (Mercari.compare (Sample.M.manager 100 1)))).
Proof.
  destruct sold_under_fetch_errors as (HL & HM). split.
  - apply (HL (Sample.L.manager 100 1)).
    + unfold Qeq. simpl. lia.
    + simpl. lia.
  - apply (HM (Sample.M.manager 100 1) "m1"). unfold Qeq. simpl. lia.
Defined.

(** C1 as stated fails in the Mercari adapter: with watermark 100 and one
    fetch error, the staged sold-out item [m1] is returned as sold and the
    sold count is 1. *)
Lemma mercari_reports_sold_under_errors :
  let m := Sample.M.manager 100 1 in
  ~ (info_last (info m) == 0)%Q
  /\ info_error (info m) <> 0
  /\ snd (snd (Mercari.compare m)) <> []
  /\ info_sold (info (fst (Mercari.compare m))) <> 0.
Proof.
  cbv zeta. split; [ | split; [ | split ] ].
  - unfold Qeq. simpl. lia.
  - simpl. lia.
  - vm_compute. discriminate.
  - vm_compute. discriminate.
Qed.

(** C2 (as the code has it).  With a nonzero watermark the ids of the new
    list are: in the Lashinbang adapter the staged ids that are not stored,
    or stored with an [update_time] before the watermark; in the Yahoo
    adapter the same with the watermark moved back by 86400 seconds (the
    float difference [last - 86400] of the code); in the Mercari adapter
    the ids staged with [onsale = 1] that are not stored, or stored with
    [onsale = 0].  The new count is the length of the list. *)
Theorem new_list_rule :
  (forall (m : Manager Lashinbang.Row) (i : Z),
      ~ (info_last (info m) == 0)%Q ->
      let r := Lashinbang.compare m in
      (In i (map Lashinbang.item_id (fst (fst (snd r))))
       <-> In i (map Lashinbang.row_id (temp (view (con m))))
           /\ (~ In i (map Lashinbang.row_id (Classutil.main (view (con m))))
               \/ exists x u, In x (Classutil.main (view (con m)))
                    /\ Lashinbang.row_id x = i
                    /\ Lashinbang.update_time x = Some u
                    /\ (u < info_last (info m))%Q))
      /\ info_new (info (fst r)) = len (fst (fst (snd r))))
  /\ (forall (m : Manager Yahoo.Row) (i : string),
      ~ (info_last (info m) == 0)%Q ->
      let r := Yahoo.compare m in
      (In i (map Yahoo.e_item_id (fst (fst (snd r))))
       <-> In i (map Yahoo.row_id (temp (view (con m))))
           /\ (~ In i (map Yahoo.row_id (Classutil.main (view (con m))))
               \/ exists x u, In x (Classutil.main (view (con m)))
                    /\ Yahoo.row_id x = i
                    /\ Yahoo.update_time x = Some u
                    /\ (u < Binary64.sub (info_last (info m))
                               (inject_Z 86400))%Q))
      /\ info_new (info (fst r)) = len (fst (fst (snd r))))
  /\ (forall (m : Manager Mercari.Row) (i : string),
      ~ (info_last (info m) == 0)%Q ->
      let r := Mercari.compare m in
      (In i (map Mercari.e_item_id (fst (fst (snd r))))
       <-> exists s, In s (temp (view (con m))) /\ Mercari.row_id s = i
             /\ Mercari.onsale (Mercari.cols s) = 1
             /\ (~ In i (map Mercari.row_id (Classutil.main (view (con m))))
                 \/ exists x, In x (Classutil.main (view (con m)))
                      /\ Mercari.row_id x = i
                      /\ Mercari.onsale (Mercari.cols x) = 0))
      /\ info_new (info (fst r)) = len (fst (fst (snd r)))).
Proof.
  split; [ | split ]; intros m i H; cbv zeta.
  - destruct (LashinbangFacts.lashinbang_compare_later m H) as (R & N & _).
    rewrite R, N. simpl. split; [ | reflexivity ].
    apply LashinbangFacts.lashinbang_select_new_ids.
  - destruct (YahooFacts.yahoo_compare_later m H) as (R & N & _).
    rewrite R, N. simpl. split; [ | reflexivity ].
    apply YahooFacts.yahoo_select_new_ids.
  - destruct (MercariFacts.mercari_compare_later m H) as (R & N & _).
    rewrite R, N. simpl. split; [ | reflexivity ].
    apply MercariFacts.mercari_select_new_ids.
Qed.

Lemma new_list_rule_witness :
  info_new (info (fst (Lashinbang.compare (Sample.L.manager 101 0))))
  = len (fst (fst (snd (Lashinbang.compare (Sample.L.manager 101 0)))))
  /\ info_new (info (fst (Yahoo.compare (Sample.Y.manager 300000 0))))
     = len (fst (fst (snd (Yahoo.compare (Sample.Y.manager 300000 0)))))
  /\ info_new (info (fst (Mercari.compare (Sample.M.manager 100 0))))
     = len (fst (fst (snd (Mercari.compare (Sample.M.manager 100 0))))).
Proof.
  destruct new_list_rule as (HL & HY & HM).
  split; [ | split ].
  - apply (HL (Sample.L.manager 101 0) 42). unfold Qeq. simpl. lia.
  - apply (HY (Sample.Y.manager 300000 0) "y1"). unfold Qeq. simpl. lia.
  - apply (HM (Sample.M.manager 100 0) "m1"). unfold Qeq. simpl. lia.
Defined.

(** C2 as stated fails in two adapters.  Mercari: [m1] is staged and not
    stored, yet it is not new (it is staged as sold out).  Yahoo: [y1] is
    staged, and stored with an [update_time] of 156800, before the
    watermark 200000, yet it is not new (it is within a day of the
    watermark). *)
Lemma new_list_differs_in_mercari_and_yahoo :
  (let m := Sample.M.manager 100 0 in
   ~ (info_last (info m) == 0)%Q
   /\ In "m1" (map Mercari.row_id (temp (view (con m))))
   /\ ~ In "m1" (map Mercari.row_id (Classutil.main (view (con m))))
   /\ ~ In "m1" (map Mercari.e_item_id (fst (fst (snd (Mercari.compare m))))))
  /\ (let m := Sample.Y.manager 200000 0 in
      ~ (info_last (info m) == 0)%Q
      /\ In "y1" (map Yahoo.row_id (temp (view (con m))))
      /\ In Sample.Y.persisted_1 (Classutil.main (view (con m)))
      /\ Yahoo.row_id Sample.Y.persisted_1 = "y1"
      /\ Yahoo.update_time Sample.Y.persisted_1 = Some (inject_Z 156800)
      /\ (inject_Z 156800 < info_last (info m))%Q
      /\ ~ In "y1" (map Yahoo.e_item_id (fst (fst (snd (Yahoo.compare m)))))).
Proof.
  split; cbv zeta.
  - split; [ unfold Qeq; simpl; lia | ].
    split; [ simpl; auto | ].
    split; [ simpl; intros [ H | [] ]; discriminate H | ].
    vm_compute. intros [].
  - split; [ unfold Qeq; simpl; lia | ].
    split; [ simpl; auto | ].
    split; [ simpl; auto | ].
    split; [ reflexivity | ].
    split; [ reflexivity | ].
    split; [ unfold Qlt; simpl; lia | ].
    vm_compute. intros [].
Qed.

(** C3 (as the code has it).  With a nonzero watermark every row of the
    discount list comes from a staged row and a persisted row with the
    same id, and reports a strict decrease: in the Lashinbang and Mercari
    adapters the staged price is below the persisted price; in the Yahoo
    adapter, which stores two prices, the staged bid price is below the
    persisted bid price or the staged buy-now price is below the persisted
    one (one of the two is enough, the other may be equal or higher), and
    the persisted row has a bid count of zero. *)
Theorem discount_needs_strict_decrease :
  (forall (m : Manager Lashinbang.Row) (d : Lashinbang.Discount),
      ~ (info_last (info m) == 0)%Q ->
      In d (snd (fst (snd (Lashinbang.compare m)))) ->
      exists tr lr,
        In tr (temp (view (con m)))
        /\ In lr (Classutil.main (view (con m)))
        /\ Lashinbang.row_id tr = Lashinbang.d_item_id d
        /\ Lashinbang.row_id lr = Lashinbang.d_item_id d
        /\ Lashinbang.d_old d = Lashinbang.price (Lashinbang.cols lr)
        /\ Lashinbang.d_new d = Lashinbang.price (Lashinbang.cols tr)
        /\ Lashinbang.d_new d < Lashinbang.d_old d)
  /\ (forall (m : Manager Mercari.Row) (d : Mercari.Discount),
      ~ (info_last (info m) == 0)%Q ->
      In d (snd (fst (snd (Mercari.compare m)))) ->
      exists tr lr,
        In tr (temp (view (con m)))
        /\ In lr (Classutil.main (view (con m)))
        /\ Mercari.row_id tr = Mercari.d_item_id d
        /\ Mercari.row_id lr = Mercari.d_item_id d
        /\ Mercari.d_old d = Mercari.price (Mercari.cols lr)
        /\ Mercari.d_new d = Mercari.price (Mercari.cols tr)
        /\ Mercari.d_new d < Mercari.d_old d)
  /\ (forall (m : Manager Yahoo.Row) (d : Yahoo.Discount),
      ~ (info_last (info m) == 0)%Q ->
      In d (snd (fst (snd (Yahoo.compare m)))) ->
      exists tr lr,
        In tr (temp (view (con m)))
        /\ In lr (Classutil.main (view (con m)))
        /\ Yahoo.row_id tr = Yahoo.d_item_id d
        /\ Yahoo.row_id lr = Yahoo.d_item_id d
        /\ Yahoo.d_old_bid d = Yahoo.bid_price (Yahoo.cols lr)
        /\ Yahoo.d_old_full d = Yahoo.full_price (Yahoo.cols lr)
        /\ Yahoo.d_new_bid d = Yahoo.bid_price (Yahoo.cols tr)
        /\ Yahoo.d_new_full d = Yahoo.full_price (Yahoo.cols tr)
        /\ (Yahoo.d_new_bid d < Yahoo.d_old_bid d
            \/ Yahoo.d_new_full d < Yahoo.d_old_full d)
        /\ Yahoo.bid_num (Yahoo.cols lr) = 0).
Proof.
  split; [ | split ]; intros m d H Hd.
  - destruct (LashinbangFacts.lashinbang_compare_later m H) as (R & _).
    rewrite R in Hd. simpl in Hd.
    apply LashinbangFacts.lashinbang_select_discount_spec in Hd.
    destruct Hd as (tr & lr & Ht & Hl & E & P & D). subst d.
    exists tr, lr. simpl. auto 10.
  - destruct (MercariFacts.mercari_compare_later m H) as (R & _).
    rewrite R in Hd. simpl in Hd.
    apply MercariFacts.mercari_select_discount_spec in Hd.
    destruct Hd as (tr & lr & Ht & Hl & E & P & S & D). subst d.
    exists tr, lr. simpl. auto 10.
  - destruct (YahooFacts.yahoo_compare_later m H) as (R & _).
    rewrite R in Hd. simpl in Hd.
    apply YahooFacts.yahoo_select_discount_spec in Hd.
    destruct Hd as (tr & lr & Ht & Hl & E & P & S & D). subst d.
    exists tr, lr. simpl. auto 15.
Qed.

Lemma discount_needs_strict_decrease_witness :
  (exists tr lr,
      In tr (temp (view (con (Sample.L.manager 100 0))))
      /\ In lr (Classutil.main (view (con (Sample.L.manager 100 0))))
      /\ Lashinbang.row_id tr = 42 /\ Lashinbang.row_id lr = 42
      /\ 1000 = Lashinbang.price (Lashinbang.cols lr)
      /\ 800 = Lashinbang.price (Lashinbang.cols tr)
      /\ 800 < 1000)
  /\ (exists tr lr,
      In tr (temp (view (con (Sample.M.manager 100 0))))
      /\ In lr (Classutil.main (view (con (Sample.M.manager 100 0))))
      /\ Mercari.row_id tr = "m2" /\ Mercari.row_id lr = "m2"
      /\ 900 = Mercari.price (Mercari.cols lr)
      /\ 700 = Mercari.price (Mercari.cols tr)
      /\ 700 < 900)
  /\ (exists tr lr,
      In tr (temp (view (con (Sample.Y.manager 200000 0))))
      /\ In lr (Classutil.main (view (con (Sample.Y.manager 200000 0))))
      /\ Yahoo.row_id tr = "y1" /\ Yahoo.row_id lr = "y1"
      /\ 100 = Yahoo.bid_price (Yahoo.cols lr)
      /\ 1000 = Yahoo.full_price (Yahoo.cols lr)
      /\ 200 = Yahoo.bid_price (Yahoo.cols tr)
      /\ 900 = Yahoo.full_price (Yahoo.cols tr)
      /\ (200 < 100 \/ 900 < 1000)
      /\ Yahoo.bid_num (Yahoo.cols lr) = 0).
Proof.
  destruct discount_needs_strict_decrease as (HL & HM & HY).
  split; [ | split ].
  - apply (HL (Sample.L.manager 100 0)
             (Lashinbang.mkDiscount 42 "A" "https://shop/42" "https://img/42"
                1000 800)).
    + unfold Qeq. simpl. lia.
    + vm_compute. left. reflexivity.
  - apply (HM (Sample.M.manager 100 0)
             (Mercari.mkDiscount "m2" "two (renewed)"
                "https://jp.mercari.com/item/m2"
                "https://static.mercdn.net/item/detail/orig/photos/m2.jpg"
                900 700)).
    + unfold Qeq. simpl. lia.
    + vm_compute. left. reflexivity.
  - apply (HY (Sample.Y.manager 200000 0)
             (Yahoo.mkDiscount "y1" "one (renewed)" "https://page/y1"
                "https://img/y1" 100 1000 200 900 (Sample.q 500000) 1)).
    + unfold Qeq. simpl. lia.
    + vm_compute. left. reflexivity.
Defined.

(** C3 as stated fails in the Yahoo adapter.  With watermark 200000 the
    item [y1] is in the discount list although its price, the bid price,
    went up from 100 to 200: its buy-now price went down from 1000 to
    900, and it had no bid. *)
Lemma yahoo_discount_with_a_higher_bid_price :
  let m := Sample.Y.manager 200000 0 in
  ~ (info_last (info m) == 0)%Q
  /\ exists d,
       In d (snd (fst (snd (Yahoo.compare m))))
       /\ Yahoo.d_item_id d = "y1"
       /\ Yahoo.d_old_bid d = 100 /\ Yahoo.d_new_bid d = 200
       /\ Yahoo.d_old_bid d < Yahoo.d_new_bid d
       /\ Yahoo.d_old_full d = 1000 /\ Yahoo.d_new_full d = 900.
Proof.
  cbv zeta. split; [ unfold Qeq; simpl; lia | ].
  exists (Yahoo.mkDiscount "y1" "one (renewed)" "https://page/y1"
            "https://img/y1" 100 1000 200 900 (Sample.q 500000) 1).
  split; [ vm_compute; left; reflexivity | ].
  simpl. repeat split; lia.
Qed.

(** Under the UNIQUE constraint two rows of a table with one id are one
    row. *)
Lemma unique_key_row {Row K : Type} (key : Row -> K) (tbl : list Row)
    (x y : Row) :
  NoDup (map key tbl) -> In x tbl -> In y tbl -> key x = key y -> x = y.
Proof.
  induction tbl as [ | r tbl IH ]; simpl; intros N Hx Hy E.
  - contradiction.
  - inversion N as [ | k ks Nk Nt ]. subst.
    destruct Hx as [ Hx | Hx ], Hy as [ Hy | Hy ].
    + congruence.
    + subst r. exfalso. apply Nk. rewrite E. apply in_map. exact Hy.
    + subst r. exfalso. apply Nk. rewrite <- E. apply in_map. exact Hx.
    + apply IH; assumption.
Qed.

(** C7.  In the Yahoo adapter, with a nonzero watermark, a staged row
    whose id is not stored is in the new list; a staged row whose id is
    stored is in the new list iff the [update_time] of the stored row is
    before the watermark minus 86400 seconds, the difference being the
    float one the code takes.  For a float watermark from 43200 to 2^53
    seconds (every Unix time after noon of 1 January 1970) the difference
    is exact, and the threshold is the watermark minus 86400 as a real
    number. *)
Theorem yahoo_reappears_after_a_day :
  forall (m : Manager Yahoo.Row) (s : Yahoo.Row),
    ~ (info_last (info m) == 0)%Q ->
    In s (temp (view (con m))) ->
    let new := fst (fst (snd (Yahoo.compare m))) in
    let last := info_last (info m) in
    (~ In (Yahoo.row_id s)
         (map Yahoo.row_id (Classutil.main (view (con m)))) ->
     In (Yahoo.entry s) new)
    /\ (forall x,
          NoDup (map Yahoo.row_id (Classutil.main (view (con m)))) ->
          In x (Classutil.main (view (con m))) ->
          Yahoo.row_id x = Yahoo.row_id s ->
          (In (Yahoo.entry s) new
           <-> exists u, Yahoo.update_time x = Some u
                 /\ (u < Binary64.sub last (inject_Z 86400))%Q))
    /\ (forall x,
          Binary64.finite last ->
          (inject_Z 43200 <= last)%Q ->
          (last <= inject_Z (2 ^ 53))%Q ->
          NoDup (map Yahoo.row_id (Classutil.main (view (con m)))) ->
          In x (Classutil.main (view (con m))) ->
          Yahoo.row_id x = Yahoo.row_id s ->
          (In (Yahoo.entry s) new
           <-> exists u, Yahoo.update_time x = Some u
                 /\ (u < last - inject_Z 86400)%Q)).
Proof.
  intros m s H Hs new last.
  destruct (YahooFacts.yahoo_compare_later m H) as (R & _).
  assert (Enew : new
                 = Yahoo.select_new (Binary64.sub last (inject_Z 86400))
                     (temp (view (con m)))
                     (Classutil.main (view (con m)))).
  { unfold new. rewrite R. reflexivity. }
  clearbody new. subst new.
  assert (Back : forall e l,
             In (Yahoo.row_id s) (map Yahoo.e_item_id
                                    (Yahoo.select_new e (temp (view (con m))) l))
             -> In (Yahoo.entry s)
                  (Yahoo.select_new e (temp (view (con m))) l)).
  { intros e l Hi. apply YahooFacts.yahoo_select_new_ids in Hi.
    destruct Hi as (_ & Hc). unfold Yahoo.select_new.
    apply in_map. apply filter_In. split; [ exact Hs | ].
    apply orb_true_iff. destruct Hc as [ Hc | (x & u & Hx & Ex & Eu & Hu) ].
    - left. apply negb_true_iff.
      apply (SqlFacts.key_in_false Yahoo.row_id String.eqb
               SqlFacts.string_eqb_spec). exact Hc.
    - right.
      apply (SqlFacts.key_in_filter Yahoo.row_id String.eqb
               SqlFacts.string_eqb_spec).
      exists x. repeat split; auto.
      apply SqlFacts.lt_param_spec. exists u. auto. }
  assert (Rule : forall x,
             NoDup (map Yahoo.row_id (Classutil.main (view (con m)))) ->
             In x (Classutil.main (view (con m))) ->
             Yahoo.row_id x = Yahoo.row_id s ->
             (In (Yahoo.entry s)
                (Yahoo.select_new (Binary64.sub last (inject_Z 86400))
                   (temp (view (con m))) (Classutil.main (view (con m))))
              <-> exists u, Yahoo.update_time x = Some u
                    /\ (u < Binary64.sub last (inject_Z 86400))%Q)).
  { intros x N Hx Ex. split.
    - intros Hin.
      assert (Hi : In (Yahoo.row_id s)
                     (map Yahoo.e_item_id
                        (Yahoo.select_new
                           (Binary64.sub last (inject_Z 86400))
                           (temp (view (con m)))
                           (Classutil.main (view (con m)))))).
      { apply in_map_iff. exists (Yahoo.entry s). auto. }
      apply YahooFacts.yahoo_select_new_ids in Hi. destruct Hi as (_ & Hc).
      destruct Hc as [ Hc | (y & u & Hy & Ey & Eu & Hu) ].
      + exfalso. apply Hc. rewrite <- Ex. apply in_map. exact Hx.
      + assert (y = x).
        { apply (unique_key_row Yahoo.row_id _ _ _ N Hy Hx). congruence. }
        subst y. exists u. auto.
    - intros (u & Eu & Hu). apply Back. apply YahooFacts.yahoo_select_new_ids.
      split; [ apply in_map; exact Hs | ].
      right. exists x, u. auto. }
  split; [ | split ].
  - intros Hn. apply Back. apply YahooFacts.yahoo_select_new_ids. split.
    + apply in_map. exact Hs.
    + left. exact Hn.
  - exact Rule.
  - intros x F Lo Hi N Hx Ex.
    assert (Exact := Binary64Facts.sub_day_exact last F Lo Hi).
    rewrite (Rule x N Hx Ex). unfold Binary64.sub.
    split; intros (u & Eu & Hu); exists u; split; auto.
    + rewrite <- Exact. exact Hu.
    + rewrite Exact. exact Hu.
Qed.

Lemma yahoo_reappears_after_a_day_witness :
  In (Yahoo.entry Sample.Y.staged_1)
     (fst (fst (snd (Yahoo.compare (Sample.Y.manager 300000 0)))))
  <-> exists u, Yahoo.update_time Sample.Y.persisted_1 = Some u
        /\ (u < info_last (info (Sample.Y.manager 300000 0))
                - inject_Z 86400)%Q.
Proof.
  apply (yahoo_reappears_after_a_day (Sample.Y.manager 300000 0)
           Sample.Y.staged_1).
  - unfold Qeq. simpl. lia.
  - simpl. left. reflexivity.
  - exists 300000, 0. split; [ reflexivity | split; [ reflexivity | lia ] ].
  - unfold Qle. simpl. lia.
  - unfold Qle. simpl. lia.
  - simpl. constructor; [ intros [] | constructor ].
  - simpl. left. reflexivity.
  - reflexivity.
Defined.

(** Below half a day the float difference is not the exact one: for the
    float nearest to 0.2 it lies strictly below it. *)
Lemma yahoo_threshold_is_rounded :
  let last := (3602879701896397 # 18014398509481984)%Q in
  Binary64.finite last
  /\ (Binary64.sub last (inject_Z 86400)
      == - (5937349046095053 # 68719476736))%Q
  /\ (Binary64.sub last (inject_Z 86400) < last - inject_Z 86400)%Q.
Proof.
  cbv zeta. split; [ | split ].
  - exists 3602879701896397, (-54).
    split; [ reflexivity | split; [ reflexivity | lia ] ].
  - vm_compute. reflexivity.
  - vm_compute. reflexivity.
Qed.

(** ** The commit coordinator *)




(** ** The fetch orchestrator and the staging store *)

(** C8.  For every keyword and every page above [MAX_PAGE_LIMIT] = 12,
    [LashinbangCrawler.get_one] raises [ValueError] with the error counter
    incremented and without any request sent, whatever the network would
    answer; a page within the limit is requested once, as asked. *)
Theorem page_above_limit_is_rejected :
  forall (net : nat -> Request -> Response string) (c : Crawler)
         (keyword : string) (page : Z),
    Lashinbang.MAX_PAGE_LIMIT = 12
    /\ (12 < page ->
        exists msg,
          Lashinbang.get_one net c keyword page
          = (mkCrawler (error_count c + 1) (sent c), Raise (ValueError msg)))
    /\ (page <= 12 ->
        sent (fst (Lashinbang.get_one net c keyword page))
        = sent c ++ [Search keyword page]).
Proof.
  intros net c keyword page. split; [ reflexivity | ]. split.
  - intros H. exists keyword. unfold Lashinbang.get_one.
    replace (Lashinbang.MAX_PAGE_LIMIT <? page) with true.
    + reflexivity.
    + symmetry. apply Z.ltb_lt. exact H.
  - intros H. unfold Lashinbang.get_one.
    replace (Lashinbang.MAX_PAGE_LIMIT <? page) with false.
    + destruct (net (List.length (sent c)) (Search keyword page));
        reflexivity.
    + symmetry. apply Z.ltb_ge. exact H.
Qed.

Lemma page_above_limit_is_rejected_witness :
  exists msg,
    Lashinbang.get_one Sample.L.net_ok new_crawler "A" 13
    = (mkCrawler (error_count new_crawler + 1) (sent new_crawler),
       Raise (ValueError msg)).
Proof.
  apply (page_above_limit_is_rejected Sample.L.net_ok new_crawler "A" 13).
  lia.
Defined.

(** C9.  In every adapter: when the engine refuses a row of the batch,
    [_to_table] raises the error with the connection rolled back to the
    committed database (none of the rows written before the failure is
    left, nothing is stamped, nothing is committed); when it takes every
    row, [_to_table] returns with every staged row stamped with the run's
    time in both timestamp columns and the transaction committed.  A run
    whose bulk insert fails ends [main] with that error, with or without
    [update]: the database file has an empty staging table and the
    persistent table and the log it had. *)
Theorem staging_write_is_all_or_nothing :
  ((forall accepts (m : Manager Lashinbang.Row) data,
       forallb accepts data = false ->
       let r := Lashinbang._to_table accepts m data in
       snd r = Raise DatabaseError
       /\ view (con (fst r)) = disk (con m)
       /\ disk (con (fst r)) = disk (con m))
   /\ (forall accepts (m : Manager Lashinbang.Row) data,
       forallb accepts data = true ->
       let r := Lashinbang._to_table accepts m data in
       snd r = Return tt
       /\ disk (con (fst r)) = view (con (fst r))
       /\ forall row, In row (temp (view (con (fst r)))) ->
            Lashinbang.record_time row = Some (info_time (info m))
            /\ Lashinbang.update_time row = Some (info_time (info m)))
   /\ (forall net page_count decode accepts watermark now kws db upd
              c raw items err,
       Lashinbang.get_many net page_count new_crawler kws = (c, Return raw) ->
       Lashinbang.parse_pages decode (Lashinbang.page_texts raw) []
         (error_count c) = Return (items, err) ->
       forallb accepts items = false ->
       Lashinbang.main net page_count decode accepts watermark now kws db upd
       = (mkStore [] (Classutil.main db) (log db), Raise DatabaseError)))
  /\ ((forall accepts (m : Manager Mercari.Row) data,
       forallb accepts data = false ->
       let r := Mercari._to_table accepts m data in
       snd r = Raise DatabaseError
       /\ view (con (fst r)) = disk (con m)
       /\ disk (con (fst r)) = disk (con m))
   /\ (forall accepts (m : Manager Mercari.Row) data,
       forallb accepts data = true ->
       let r := Mercari._to_table accepts m data in
       snd r = Return tt
       /\ disk (con (fst r)) = view (con (fst r))
       /\ forall row, In row (temp (view (con (fst r)))) ->
            Mercari.record_time row = Some (info_time (info m))
            /\ Mercari.update_time row = Some (info_time (info m)))
   /\ (forall net accepts watermark now kws db upd c raw items err,
       Mercari.get_many net new_crawler kws = (c, raw) ->
       Mercari.parse_all raw [] (error_count c) = Return (items, err) ->
       forallb accepts items = false ->
       Mercari.main net accepts watermark now kws db upd
       = (mkStore [] (Classutil.main db) (log db), Raise DatabaseError)))
  /\ ((forall accepts (m : Manager Yahoo.Row) data,
       forallb accepts data = false ->
       let r := Yahoo._to_table accepts m data in
       snd r = Raise DatabaseError
       /\ view (con (fst r)) = disk (con m)
       /\ disk (con (fst r)) = disk (con m))
   /\ (forall accepts (m : Manager Yahoo.Row) data,
       forallb accepts data = true ->
       let r := Yahoo._to_table accepts m data in
       snd r = Return tt
       /\ disk (con (fst r)) = view (con (fst r))
       /\ forall row, In row (temp (view (con (fst r)))) ->
            Yahoo.record_time row = Some (info_time (info m))
            /\ Yahoo.update_time row = Some (info_time (info m)))
   /\ (forall net parse accepts watermark now kws db upd c raw items err,
       Yahoo.get_many net new_crawler kws = (c, raw) ->
       Yahoo.parse_all parse raw [] (error_count c) = Return (items, err) ->
       forallb accepts items = false ->
       Yahoo.main net parse accepts watermark now kws db upd
       = (mkStore [] (Classutil.main db) (log db), Raise DatabaseError))).
Proof.
  split; [ | split ]; (split; [ | split ]).
  - intros accepts m data A. cbv zeta.
    rewrite (LashinbangFacts.lashinbang_to_table_fails accepts m data A). simpl. auto.
  - intros accepts m data A. cbv zeta.
    split; [ | split ].
    + destruct (LashinbangFacts.lashinbang_to_table_succeeds accepts m data A)
        as (w & E). rewrite E. reflexivity.
    + destruct (LashinbangFacts.lashinbang_to_table_succeeds accepts m data A)
        as (w & E). rewrite E. reflexivity.
    + intros row. apply LashinbangFacts.lashinbang_to_table_stamps. exact A.
  - intros. eapply LashinbangFacts.lashinbang_main_aborts; eassumption.
  - intros accepts m data A. cbv zeta.
    rewrite (MercariFacts.mercari_to_table_fails accepts m data A). simpl. auto.
  - intros accepts m data A. cbv zeta.
    split; [ | split ].
    + destruct (MercariFacts.mercari_to_table_succeeds accepts m data A)
        as (w & E). rewrite E. reflexivity.
    + destruct (MercariFacts.mercari_to_table_succeeds accepts m data A)
        as (w & E). rewrite E. reflexivity.
    + intros row. apply MercariFacts.mercari_to_table_stamps. exact A.
  - intros. eapply MercariFacts.mercari_main_aborts; eassumption.
  - intros accepts m data A. cbv zeta.
    rewrite (YahooFacts.yahoo_to_table_fails accepts m data A). simpl. auto.
  - intros accepts m data A. cbv zeta.
    split; [ | split ].
    + destruct (YahooFacts.yahoo_to_table_succeeds accepts m data A)
        as (w & E). rewrite E. reflexivity.
    + destruct (YahooFacts.yahoo_to_table_succeeds accepts m data A)
        as (w & E). rewrite E. reflexivity.
    + intros row. apply YahooFacts.yahoo_to_table_stamps. exact A.
  - intros. eapply YahooFacts.yahoo_main_aborts; eassumption.
Qed.

Lemma staging_write_is_all_or_nothing_witness :
  (Lashinbang.main Sample.L.net_ok Sample.L.page_count Sample.L.decode
     Sample.L.accepts_none Sample.L.watermark (Sample.q 200) ["A"]
     Sample.L.store true
   = (mkStore [] (Classutil.main Sample.L.store) (log Sample.L.store),
      Raise DatabaseError)
   /\ snd (Lashinbang._to_table Sample.L.accepts_all
             (Sample.L.manager 100 0) [Sample.L.item_A]) = Return tt
   /\ view (con (fst (Lashinbang._to_table Sample.L.accepts_none
                        (Sample.L.manager 100 0) [Sample.L.item_A])))
      = disk (con (Sample.L.manager 100 0)))
  /\ (Mercari.main Sample.M.net_ok Sample.M.accepts_none Sample.M.watermark
        (Sample.q 200) ["one"] Sample.M.store true
      = (mkStore [] (Classutil.main Sample.M.store) (log Sample.M.store),
         Raise DatabaseError)
      /\ snd (Mercari._to_table Sample.M.accepts_all
                (Sample.M.manager 100 0) [Sample.M.item_1]) = Return tt
      /\ view (con (fst (Mercari._to_table Sample.M.accepts_none
                           (Sample.M.manager 100 0) [Sample.M.item_1])))
         = disk (con (Sample.M.manager 100 0)))
  /\ (Yahoo.main Sample.Y.net_ok Sample.Y.parse Sample.Y.accepts_none
        Sample.Y.watermark (Sample.q 200100) ["one"] Sample.Y.store true
      = (mkStore [] (Classutil.main Sample.Y.store) (log Sample.Y.store),
         Raise DatabaseError)
      /\ snd (Yahoo._to_table Sample.Y.accepts_all
                (Sample.Y.manager 200000 0) [Sample.Y.item_1]) = Return tt
      /\ view (con (fst (Yahoo._to_table Sample.Y.accepts_none
                           (Sample.Y.manager 200000 0) [Sample.Y.item_1])))
         = disk (con (Sample.Y.manager 200000 0))).
Proof.
  destruct staging_write_is_all_or_nothing
    as ((LF & LS & LM) & (MF & MS & MM) & (YF & YS & YM)).
  split; [ | split ]; (split; [ | split ]).
  - eapply LM; [ reflexivity | reflexivity | reflexivity ].
  - apply (LS Sample.L.accepts_all (Sample.L.manager 100 0)
             [Sample.L.item_A]). reflexivity.
  - apply (LF Sample.L.accepts_none (Sample.L.manager 100 0)
             [Sample.L.item_A]). reflexivity.
  - eapply MM; [ reflexivity | reflexivity | reflexivity ].
  - apply (MS Sample.M.accepts_all (Sample.M.manager 100 0)
             [Sample.M.item_1]). reflexivity.
  - apply (MF Sample.M.accepts_none (Sample.M.manager 100 0)
             [Sample.M.item_1]). reflexivity.
  - eapply YM; [ reflexivity | reflexivity | reflexivity ].
  - apply (YS Sample.Y.accepts_all (Sample.Y.manager 200000 0)
             [Sample.Y.item_1]). reflexivity.
  - apply (YF Sample.Y.accepts_none (Sample.Y.manager 200000 0)
             [Sample.Y.item_1]). reflexivity.
Defined.

(** A request of the Lashinbang or Yahoo crawler that times out leaves
    [get_one] through an exception that its [except] clause does not
    name: the request has been sent, and the error counter is where it
    was.  A bad status counts. *)
Lemma lashinbang_get_one_timed_out
    (net : nat -> Request -> Response string) (c : Crawler)
    (keyword : string) (page : Z) :
  page <= Lashinbang.MAX_PAGE_LIMIT ->
  net (List.length (sent c)) (Search keyword page) = TimedOut ->
  Lashinbang.get_one net c keyword page
  = (mkCrawler (error_count c) (sent c ++ [Search keyword page]),
     Raise Timeout).
Proof.
  intros H T. unfold Lashinbang.get_one.
  replace (Lashinbang.MAX_PAGE_LIMIT <? page) with false.
  - rewrite T. reflexivity.
  - symmetry. apply Z.ltb_ge. exact H.
Qed.

Lemma lashinbang_get_one_bad_status
    (net : nat -> Request -> Response string) (c : Crawler)
    (keyword : string) (page : Z) :
  page <= Lashinbang.MAX_PAGE_LIMIT ->
  net (List.length (sent c)) (Search keyword page) = BadStatus ->
  Lashinbang.get_one net c keyword page
  = (mkCrawler (error_count c + 1) (sent c ++ [Search keyword page]),
     Raise HTTPError).
Proof.
  intros H T. unfold Lashinbang.get_one.
  replace (Lashinbang.MAX_PAGE_LIMIT <? page) with false.
  - rewrite T. reflexivity.
  - symmetry. apply Z.ltb_ge. exact H.
Qed.

Lemma yahoo_get_one_timed_out
    (net : nat -> Request -> Response string) (c : Crawler)
    (keyword : string) :
  net (List.length (sent c)) (Search keyword 1) = TimedOut ->
  Yahoo.get_one net c keyword
  = (mkCrawler (error_count c) (sent c ++ [Search keyword 1]),
     Raise Timeout).
Proof. intros T. unfold Yahoo.get_one. rewrite T. reflexivity. Qed.

(** C6, on the code.  One keyword, whose only page times out: in the
    Lashinbang and in the Yahoo adapter the run's error count stays 0,
    where a bad status gives 1; the Mercari adapter counts the timed-out
    page once, in [get_item], and a bad status twice.  The request is sent once and the page is
    recorded as [None].  The Lashinbang run, with no error on record,
    then reports both stored items as sold, which the run with a bad
    status does not. *)
Theorem timed_out_page_is_not_counted :
  let lashinbang net :=
    Lashinbang.get_item net Sample.L.page_count Sample.L.decode
      Sample.L.accepts_all
      (Lashinbang.new_manager Sample.L.watermark (Sample.q 200) ["A"]
         Sample.L.db) in
  let yahoo net :=
    Yahoo.get_item net Sample.Y.parse Sample.Y.accepts_all
      (Yahoo.new_manager Sample.Y.watermark (Sample.q 200100) ["one"]
         Sample.Y.db) in
  let mercari net :=
    Mercari.get_item net Sample.M.accepts_all
      (Mercari.new_manager Sample.M.watermark (Sample.q 200) ["one"]
         Sample.M.db) in
  (info_error (info (fst (lashinbang Sample.L.net_timeout))) = 0
   /\ info_error (info (fst (lashinbang Sample.L.net_bad_status))) = 1)
  /\ (info_error (info (fst (yahoo Sample.Y.net_timeout))) = 0
      /\ info_error (info (fst (yahoo Sample.Y.net_bad_status))) = 1)
  /\ (info_error (info (fst (mercari Sample.M.net_timeout))) = 1
      /\ info_error (info (fst (mercari Sample.M.net_bad_status))) = 2)
  /\ (sent (crawler (fst (lashinbang Sample.L.net_timeout)))
      = [AgeCheck; Search "A" 1]
      /\ snd (Lashinbang.get_many Sample.L.net_timeout Sample.L.page_count
                new_crawler ["A"])
         = Return [("A", Lashinbang.mkPages 1 [(1, None)])])
  /\ snd (Lashinbang.main Sample.L.net_timeout Sample.L.page_count
            Sample.L.decode Sample.L.accepts_all Sample.L.watermark
            (Sample.q 200) ["A"] Sample.L.db false)
     = Return ([], [],
               [Lashinbang.cols Sample.L.persisted_A;
                Lashinbang.cols Sample.L.persisted_B], false)
  /\ snd (Lashinbang.main Sample.L.net_bad_status Sample.L.page_count
            Sample.L.decode Sample.L.accepts_all Sample.L.watermark
            (Sample.q 200) ["A"] Sample.L.db false)
     = Return ([], [], [], true).
Proof.
  cbv zeta. repeat split; vm_compute; reflexivity.
Qed.

(** ** The scheduled entry point *)

Module AutorunFacts.
Import Autorun.

Section World.
Variable net_l : nat -> Request -> Response string.
Variable page_count : string -> option Z.
Variable decode : string -> Lashinbang.Decoded.
Variable accepts_l : Lashinbang.Item -> bool.
Variable net_m : nat -> Request -> Response Mercari.Payload.
Variable accepts_m : Mercari.Item -> bool.
Variable net_y : nat -> Request -> Response string.
Variable parse : string -> Yahoo.Parsed.
Variable accepts_y : Yahoo.Item -> bool.
Variable watermark : string -> list LogRow -> Q.
Variable now_l now_m now_y : Q.

Lemma frame_trans (a b c : Database) : frame a b -> frame b c -> frame a c.
Proof.
  unfold frame. intros (H1 & H2 & H3 & H4) (K1 & K2 & K3 & K4).
  repeat split; congruence.
Qed.

Lemma lashinbang_main_frame (kws : list string) (db : Database) :
  frame db
    (fst (lashinbang_main net_l page_count decode accepts_l watermark
            now_l kws db)).
Proof.
  unfold lashinbang_main.
  pose proof (LashinbangFacts.lashinbang_main_without_update net_l page_count
                decode accepts_l watermark now_l kws
                (lashinbang_store db)) as H.
  destruct (Lashinbang.main net_l page_count decode accepts_l watermark
              now_l kws (lashinbang_store db) false) as (s, r).
  simpl in *. unfold frame. simpl. tauto.
Qed.

Lemma mercari_main_frame (kws : list string) (db : Database) :
  frame db (fst (mercari_main net_m accepts_m watermark now_m kws db)).
Proof.
  unfold mercari_main.
  pose proof (MercariFacts.mercari_main_without_update net_m accepts_m
                watermark now_m kws (mercari_store db)) as H.
  destruct (Mercari.main net_m accepts_m watermark now_m kws
              (mercari_store db) false) as (s, r).
  simpl in *. unfold frame. simpl. tauto.
Qed.

Lemma yahoo_main_frame (kws : list string) (db : Database) :
  frame db
    (fst (yahoo_main net_y parse accepts_y watermark now_y kws db)).
Proof.
  unfold yahoo_main.
  pose proof (YahooFacts.yahoo_main_without_update net_y parse accepts_y
                watermark now_y kws (yahoo_store db)) as H.
  destruct (Yahoo.main net_y parse accepts_y watermark now_y kws
              (yahoo_store db) false) as (s, r).
  simpl in *. unfold frame. simpl. tauto.
Qed.

Lemma main_frame (config : Config) (db : Database) :
  frame db
    (fst (Autorun.main net_l page_count decode accepts_l net_m accepts_m
            net_y parse accepts_y watermark now_l now_m now_y config db)).
Proof.
  unfold Autorun.main.
  pose proof (lashinbang_main_frame (cfg_lashinbang config) db) as HL.
  destruct (lashinbang_main net_l page_count decode accepts_l watermark
              now_l (cfg_lashinbang config) db)
    as (db1, [ (msg_l, f_l) | e ]); simpl in *; [ | exact HL ].
  pose proof (mercari_main_frame (cfg_mercari config) db1) as HM.
  destruct (mercari_main net_m accepts_m watermark now_m
              (cfg_mercari config) db1)
    as (db2, [ (msg_m, f_m) | e ]); simpl in *;
    [ | exact (frame_trans _ _ _ HL HM) ].
  pose proof (yahoo_main_frame (cfg_yahoo config) db2) as HY.
  destruct (yahoo_main net_y parse accepts_y watermark now_y
              (cfg_yahoo config) db2)
    as (db3, [ (msg_y, f_y) | e ]); simpl in *;
    exact (frame_trans _ _ _ (frame_trans _ _ _ HL HM) HY).
Qed.
End World.

End AutorunFacts.

(** C10.  [bot_autorun.main] calls the three [main] functions with
    [update] at its default [False], so no [update] runs: whatever the
    configuration, the network, the parsers and the database engine do,
    and whether the run ends with a report or with an exception, the
    database file afterwards has the persistent table of each site and
    the log it had before; the watermark, which is derived from the log,
    is therefore the same for every site. *)
Theorem autorun_never_commits :
  forall (net_l : nat -> Request -> Response string)
         (page_count : string -> option Z)
         (decode : string -> Lashinbang.Decoded)
         (accepts_l : Lashinbang.Item -> bool)
         (net_m : nat -> Request -> Response Mercari.Payload)
         (accepts_m : Mercari.Item -> bool)
         (net_y : nat -> Request -> Response string)
         (parse : string -> Yahoo.Parsed)
         (accepts_y : Yahoo.Item -> bool)
         (watermark : string -> list LogRow -> Q)
         (now_l now_m now_y : Q)
         (config : Autorun.Config) (db : Autorun.Database),
    let db' :=
      fst (Autorun.main net_l page_count decode accepts_l net_m accepts_m
             net_y parse accepts_y watermark now_l now_m now_y config db) in
    Autorun.lashinbang db' = Autorun.lashinbang db
    /\ Autorun.mercari db' = Autorun.mercari db
    /\ Autorun.yahoo db' = Autorun.yahoo db
    /\ Autorun.log db' = Autorun.log db
    /\ forall site,
         watermark site (Autorun.log db') = watermark site (Autorun.log db).
Proof.
  intros. subst db'.
  destruct (AutorunFacts.main_frame net_l page_count decode accepts_l net_m
              accepts_m net_y parse accepts_y watermark now_l now_m now_y
              config db) as (H1 & H2 & H3 & H4).
  repeat split; try assumption.
  intros site. rewrite H4. reflexivity.
Qed.

(** * Further properties of the pipeline *)

(** ** Tables under INSERT OR IGNORE and UPDATE *)

Module TableFacts.
Import Sql SqlFacts.

Section Keyed.
Context {Row K : Type} (key : Row -> K) (eqb : K -> K -> bool).
Hypothesis eqb_spec : forall a b, eqb a b = true <-> a = b.

Lemma insert_or_ignore_keys (r : Row) (tbl : list Row) :
  map key (insert_or_ignore key eqb r tbl)
  = if key_in key eqb (key r) tbl then map key tbl
    else map key tbl ++ [key r].
Proof.
  unfold insert_or_ignore. destruct (key_in key eqb (key r) tbl).
  - reflexivity.
  - rewrite map_app. reflexivity.
Qed.

Lemma insert_or_ignore_has_key (r : Row) (tbl : list Row) :
  In (key r) (map key (insert_or_ignore key eqb r tbl)).
Proof.
  rewrite insert_or_ignore_keys.
  destruct (key_in key eqb (key r) tbl) eqn:E.
  - apply (key_in_spec key eqb eqb_spec). exact E.
  - apply in_or_app. right. left. reflexivity.
Qed.

Lemma insert_or_ignore_incl (r x : Row) (tbl : list Row) :
  In x tbl -> In x (insert_or_ignore key eqb r tbl).
Proof.
  unfold insert_or_ignore. destruct (key_in key eqb (key r) tbl).
  - auto.
  - intros H. apply in_or_app. left. exact H.
Qed.

Lemma insert_or_ignore_nodup (r : Row) (tbl : list Row) :
  NoDup (map key tbl) -> NoDup (map key (insert_or_ignore key eqb r tbl)).
Proof.
  intros N. rewrite insert_or_ignore_keys.
  destruct (key_in key eqb (key r) tbl) eqn:E.
  - exact N.
  - apply (key_in_false key eqb eqb_spec) in E.
    apply NoDup_app.
    + exact N.
    + constructor; [ intros [] | constructor ].
    + intros a Ha [ Hb | [] ]. subst a. contradiction.
Qed.

Section InsertAll.
Context {I : Type} (mk : I -> Row).

Lemma insert_all_nodup (data : list I) (tbl : list Row) :
  NoDup (map key tbl) ->
  NoDup (map key
           (fold_left (fun t i => insert_or_ignore key eqb (mk i) t)
              data tbl)).
Proof.
  revert tbl. induction data as [ | i data IH ]; intros tbl N; simpl.
  - exact N.
  - apply IH. apply insert_or_ignore_nodup. exact N.
Qed.

Lemma insert_all_keys (data : list I) (tbl : list Row) (k : K) :
  In k (map key
          (fold_left (fun t i => insert_or_ignore key eqb (mk i) t)
             data tbl))
  <-> In k (map key tbl) \/ In k (map (fun i => key (mk i)) data).
Proof.
  revert tbl. induction data as [ | i data IH ]; intros tbl; simpl.
  - tauto.
  - rewrite IH, insert_or_ignore_keys.
    destruct (key_in key eqb (key (mk i)) tbl) eqn:E.
    + apply (key_in_spec key eqb eqb_spec) in E.
      split; [ tauto | ].
      intros [ H | [ H | H ] ]; auto. subst k. auto.
    + rewrite in_app_iff. simpl. tauto.
Qed.

(** Rows already in the table stay, in place. *)
Lemma insert_all_prefix (data : list I) (tbl : list Row) :
  exists added,
    fold_left (fun t i => insert_or_ignore key eqb (mk i) t) data tbl
    = tbl ++ added.
Proof.
  revert tbl. induction data as [ | i data IH ]; intros tbl; simpl.
  - exists []. rewrite app_nil_r. reflexivity.
  - destruct (IH (insert_or_ignore key eqb (mk i) tbl)) as (added & E).
    rewrite E. unfold insert_or_ignore.
    destruct (key_in key eqb (key (mk i)) tbl).
    + exists added. reflexivity.
    + exists (mk i :: added). rewrite <- app_assoc. reflexivity.
Qed.

(** First write wins: a row that was not in the table comes from the
    first item of the batch with its key. *)
Lemma insert_all_first (data : list I) (tbl : list Row) (r : Row) :
  In r (fold_left (fun t i => insert_or_ignore key eqb (mk i) t) data tbl) ->
  In r tbl
  \/ exists pre i post,
       data = pre ++ i :: post /\ r = mk i
       /\ ~ In (key r) (map key tbl)
       /\ ~ In (key r) (map (fun i => key (mk i)) pre).
Proof.
  revert tbl. induction data as [ | i0 data IH ]; intros tbl H; simpl in H.
  - left. exact H.
  - destruct (IH _ H) as [ H1 | (pre & i & post & E & Er & N1 & N2) ].
    + unfold insert_or_ignore in H1.
      destruct (key_in key eqb (key (mk i0)) tbl) eqn:Ek.
      * left. exact H1.
      * apply in_app_or in H1. destruct H1 as [ H1 | [ H1 | [] ] ].
        -- left. exact H1.
        -- right. exists [], i0, data. subst r.
           apply (key_in_false key eqb eqb_spec) in Ek.
           repeat split; auto.
    + right. exists (i0 :: pre), i, post. subst data.
      split; [ reflexivity | ]. split; [ exact Er | ]. split.
      * intros Hk. apply N1. apply in_map_iff in Hk.
        destruct Hk as (x & Ex & Hx). rewrite <- Ex. apply in_map.
        apply insert_or_ignore_incl. exact Hx.
      * simpl. intros [ Hk | Hk ]; [ | contradiction ].
        apply N1. rewrite <- Hk. apply insert_or_ignore_has_key.
Qed.
End InsertAll.

Section UpdateRows.
Context {P : Type} (kof : P -> K) (set : P -> Row -> Row).
Hypothesis set_key : forall q r, key (set q r) = key r.
Hypothesis set_absorb : forall q q' r, set q (set q' r) = set q r.

(** Every row after the UPDATEs is a row of before, untouched when no
    tuple names its key and written from a tuple with its key
    otherwise. *)
Lemma executemany_update_rows (query : list P) (tbl : list Row) (r' : Row) :
  In r' (executemany_update key eqb kof set query tbl) ->
  exists r,
    In r tbl
    /\ ((r' = r /\ ~ In (key r) (map kof query))
        \/ exists q, In q query /\ kof q = key r /\ r' = set q r).
Proof.
  unfold executemany_update. revert tbl.
  induction query as [ | q0 query IH ]; intros tbl H; simpl in H.
  - exists r'. split; [ exact H | ]. left. split; [ reflexivity | ].
    intros [].
  - destruct (IH _ H) as (r1 & H1 & C).
    unfold update_where_key in H1. apply in_map_iff in H1.
    destruct H1 as (r & E1 & Hr). exists r. split; [ exact Hr | ].
    destruct (eqb (key r) (kof q0)) eqn:Ek.
    + apply eqb_spec in Ek. subst r1.
      destruct C as [ (E & N) | (q & Hq & Eq & E) ].
      * right. exists q0. simpl. auto.
      * right. exists q. simpl. rewrite set_key in Eq.
        rewrite set_absorb in E. auto.
    + subst r1. destruct C as [ (E & N) | (q & Hq & Eq & E) ].
      * left. split; [ exact E | ]. simpl. intros [ F | F ].
        -- assert (T : eqb (key r) (kof q0) = true)
             by (apply eqb_spec; auto).
           congruence.
        -- contradiction.
      * right. exists q. simpl. auto.
Qed.
End UpdateRows.
End Keyed.

End TableFacts.

(** ** What a successful staging write leaves *)

Lemma lashinbang_to_table_temp (accepts : Lashinbang.Item -> bool)
    (m : Manager Lashinbang.Row) (data : list Lashinbang.Item) :
  forallb accepts data = true ->
  temp (view (con (fst (Lashinbang._to_table accepts m data))))
  = map (Lashinbang.stamp (info_time (info m)))
      (fold_left
         (fun t i =>
            Sql.insert_or_ignore Lashinbang.row_id Z.eqb (Lashinbang.stage i) t)
         data (temp (view (con m)))).
Proof.
  intros A. unfold Lashinbang._to_table.
  rewrite (SqlFacts.executemany_insert_succeeds Lashinbang.row_id Z.eqb
             accepts Lashinbang.stage data (temp (view (con m))) A).
  reflexivity.
Qed.

Lemma lashinbang_staging_unique (accepts : Lashinbang.Item -> bool)
    (m : Manager Lashinbang.Row) (data : list Lashinbang.Item) :
  forallb accepts data = true ->
  let before := temp (view (con m)) in
  let staged := temp (view (con (fst (Lashinbang._to_table accepts m data)))) in
  (NoDup (map Lashinbang.row_id before) -> NoDup (map Lashinbang.row_id staged))
  /\ (forall i,
        In i (map Lashinbang.row_id staged)
        <-> In i (map Lashinbang.row_id before)
            \/ In i (map Lashinbang.item_id data))
  /\ (forall r,
        In r staged ->
        (exists r0, In r0 before /\ Lashinbang.cols r = Lashinbang.cols r0)
        \/ exists pre it post,
             data = pre ++ it :: post /\ Lashinbang.cols r = it
             /\ ~ In (Lashinbang.item_id it) (map Lashinbang.item_id pre)
             /\ ~ In (Lashinbang.item_id it) (map Lashinbang.row_id before)).
Proof.
  intros A. cbv zeta. rewrite (lashinbang_to_table_temp accepts m data A).
  assert (K : forall l,
             map Lashinbang.row_id (map (Lashinbang.stamp (info_time (info m))) l)
             = map Lashinbang.row_id l).
  { intros l. rewrite map_map. reflexivity. }
  rewrite K. split; [ | split ].
  - apply (TableFacts.insert_all_nodup Lashinbang.row_id Z.eqb
             SqlFacts.Z_eqb_spec).
  - intros i.
    apply (TableFacts.insert_all_keys Lashinbang.row_id Z.eqb
             SqlFacts.Z_eqb_spec Lashinbang.stage).
  - intros r Hr. apply in_map_iff in Hr. destruct Hr as (w & Ew & Hw).
    subst r. simpl.
    destruct (TableFacts.insert_all_first Lashinbang.row_id Z.eqb
                SqlFacts.Z_eqb_spec Lashinbang.stage data _ w Hw)
      as [ H | (pre & it & post & E & Er & N1 & N2) ].
    + left. exists w. auto.
    + right. exists pre, it, post. subst w. simpl.
      repeat split; auto.
Qed.

Lemma mercari_to_table_temp (accepts : Mercari.Item -> bool)
    (m : Manager Mercari.Row) (data : list Mercari.Item) :
  forallb accepts data = true ->
  temp (view (con (fst (Mercari._to_table accepts m data))))
  = map (Mercari.stamp (info_time (info m)))
      (fold_left
         (fun t i =>
            Sql.insert_or_ignore Mercari.row_id String.eqb (Mercari.stage i) t)
         data (temp (view (con m)))).
Proof.
  intros A. unfold Mercari._to_table.
  rewrite (SqlFacts.executemany_insert_succeeds Mercari.row_id String.eqb
             accepts Mercari.stage data (temp (view (con m))) A).
  reflexivity.
Qed.

Lemma mercari_staging_unique (accepts : Mercari.Item -> bool)
    (m : Manager Mercari.Row) (data : list Mercari.Item) :
  forallb accepts data = true ->
  let before := temp (view (con m)) in
  let staged := temp (view (con (fst (Mercari._to_table accepts m data)))) in
  (NoDup (map Mercari.row_id before) -> NoDup (map Mercari.row_id staged))
  /\ (forall i,
        In i (map Mercari.row_id staged)
        <-> In i (map Mercari.row_id before)
            \/ In i (map Mercari.item_id data))
  /\ (forall r,
        In r staged ->
        (exists r0, In r0 before /\ Mercari.cols r = Mercari.cols r0)
        \/ exists pre it post,
             data = pre ++ it :: post /\ Mercari.cols r = it
             /\ ~ In (Mercari.item_id it) (map Mercari.item_id pre)
             /\ ~ In (Mercari.item_id it) (map Mercari.row_id before)).
Proof.
  intros A. cbv zeta. rewrite (mercari_to_table_temp accepts m data A).
  assert (K : forall l,
             map Mercari.row_id (map (Mercari.stamp (info_time (info m))) l)
             = map Mercari.row_id l).
  { intros l. rewrite map_map. reflexivity. }
  rewrite K. split; [ | split ].
  - apply (TableFacts.insert_all_nodup Mercari.row_id String.eqb
             SqlFacts.string_eqb_spec).
  - intros i.
    apply (TableFacts.insert_all_keys Mercari.row_id String.eqb
             SqlFacts.string_eqb_spec Mercari.stage).
  - intros r Hr. apply in_map_iff in Hr. destruct Hr as (w & Ew & Hw).
    subst r. simpl.
    destruct (TableFacts.insert_all_first Mercari.row_id String.eqb
                SqlFacts.string_eqb_spec Mercari.stage data _ w Hw)
      as [ H | (pre & it & post & E & Er & N1 & N2) ].
    + left. exists w. auto.
    + right. exists pre, it, post. subst w. simpl.
      repeat split; auto.
Qed.

Lemma yahoo_to_table_temp (accepts : Yahoo.Item -> bool)
    (m : Manager Yahoo.Row) (data : list Yahoo.Item) :
  forallb accepts data = true ->
  temp (view (con (fst (Yahoo._to_table accepts m data))))
  = map (Yahoo.stamp (info_time (info m)))
      (fold_left
         (fun t i =>
            Sql.insert_or_ignore Yahoo.row_id String.eqb (Yahoo.stage i) t)
         data (temp (view (con m)))).
Proof.
  intros A. unfold Yahoo._to_table.
  rewrite (SqlFacts.executemany_insert_succeeds Yahoo.row_id String.eqb
             accepts Yahoo.stage data (temp (view (con m))) A).
  reflexivity.
Qed.

Lemma yahoo_staging_unique (accepts : Yahoo.Item -> bool)
    (m : Manager Yahoo.Row) (data : list Yahoo.Item) :
  forallb accepts data = true ->
  let before := temp (view (con m)) in
  let staged := temp (view (con (fst (Yahoo._to_table accepts m data)))) in
  (NoDup (map Yahoo.row_id before) -> NoDup (map Yahoo.row_id staged))
  /\ (forall i,
        In i (map Yahoo.row_id staged)
        <-> In i (map Yahoo.row_id before)
            \/ In i (map Yahoo.item_id data))
  /\ (forall r,
        In r staged ->
        (exists r0, In r0 before /\ Yahoo.cols r = Yahoo.cols r0)
        \/ exists pre it post,
             data = pre ++ it :: post /\ Yahoo.cols r = it
             /\ ~ In (Yahoo.item_id it) (map Yahoo.item_id pre)
             /\ ~ In (Yahoo.item_id it) (map Yahoo.row_id before)).
Proof.
  intros A. cbv zeta. rewrite (yahoo_to_table_temp accepts m data A).
  assert (K : forall l,
             map Yahoo.row_id (map (Yahoo.stamp (info_time (info m))) l)
             = map Yahoo.row_id l).
  { intros l. rewrite map_map. reflexivity. }
  rewrite K. split; [ | split ].
  - apply (TableFacts.insert_all_nodup Yahoo.row_id String.eqb
             SqlFacts.string_eqb_spec).
  - intros i.
    apply (TableFacts.insert_all_keys Yahoo.row_id String.eqb
             SqlFacts.string_eqb_spec Yahoo.stage).
  - intros r Hr. apply in_map_iff in Hr. destruct Hr as (w & Ew & Hw).
    subst r. simpl.
    destruct (TableFacts.insert_all_first Yahoo.row_id String.eqb
                SqlFacts.string_eqb_spec Yahoo.stage data _ w Hw)
      as [ H | (pre & it & post & E & Er & N1 & N2) ].
    + left. exists w. auto.
    + right. exists pre, it, post. subst w. simpl.
      repeat split; auto.
Qed.

(** X1.  When the engine takes every row of the batch, the staging table
    after [_to_table] has, in every adapter: no two rows with one id if
    it had none before; as ids those it had and those of the batch; and
    as rows those it had (stamped anew) and, for each other id, the
    columns of the first item of the batch with that id (INSERT OR IGNORE
    drops the later ones). *)
Theorem staging_keeps_first_of_each_id :
  (forall (accepts : Lashinbang.Item -> bool) (m : Manager Lashinbang.Row)
           (data : list Lashinbang.Item),
      forallb accepts data = true ->
      let before := temp (view (con m)) in
      let staged :=
        temp (view (con (fst (Lashinbang._to_table accepts m data)))) in
      (NoDup (map Lashinbang.row_id before) ->
       NoDup (map Lashinbang.row_id staged))
      /\ (forall i,
            In i (map Lashinbang.row_id staged)
            <-> In i (map Lashinbang.row_id before)
                \/ In i (map Lashinbang.item_id data))
      /\ (forall r,
            In r staged ->
            (exists r0, In r0 before /\ Lashinbang.cols r = Lashinbang.cols r0)
            \/ exists pre it post,
                 data = pre ++ it :: post /\ Lashinbang.cols r = it
                 /\ ~ In (Lashinbang.item_id it) (map Lashinbang.item_id pre)
                 /\ ~ In (Lashinbang.item_id it) (map Lashinbang.row_id before)))
  /\ (forall (accepts : Mercari.Item -> bool) (m : Manager Mercari.Row)
           (data : list Mercari.Item),
      forallb accepts data = true ->
      let before := temp (view (con m)) in
      let staged :=
        temp (view (con (fst (Mercari._to_table accepts m data)))) in
      (NoDup (map Mercari.row_id before) ->
       NoDup (map Mercari.row_id staged))
      /\ (forall i,
            In i (map Mercari.row_id staged)
            <-> In i (map Mercari.row_id before)
                \/ In i (map Mercari.item_id data))
      /\ (forall r,
            In r staged ->
            (exists r0, In r0 before /\ Mercari.cols r = Mercari.cols r0)
            \/ exists pre it post,
                 data = pre ++ it :: post /\ Mercari.cols r = it
                 /\ ~ In (Mercari.item_id it) (map Mercari.item_id pre)
                 /\ ~ In (Mercari.item_id it) (map Mercari.row_id before)))
  /\ (forall (accepts : Yahoo.Item -> bool) (m : Manager Yahoo.Row)
           (data : list Yahoo.Item),
      forallb accepts data = true ->
      let before := temp (view (con m)) in
      let staged :=
        temp (view (con (fst (Yahoo._to_table accepts m data)))) in
      (NoDup (map Yahoo.row_id before) ->
       NoDup (map Yahoo.row_id staged))
      /\ (forall i,
            In i (map Yahoo.row_id staged)
            <-> In i (map Yahoo.row_id before)
                \/ In i (map Yahoo.item_id data))
      /\ (forall r,
            In r staged ->
            (exists r0, In r0 before /\ Yahoo.cols r = Yahoo.cols r0)
            \/ exists pre it post,
                 data = pre ++ it :: post /\ Yahoo.cols r = it
                 /\ ~ In (Yahoo.item_id it) (map Yahoo.item_id pre)
                 /\ ~ In (Yahoo.item_id it) (map Yahoo.row_id before))).
Proof.
  split; [ | split ]; intros accepts m data A.
  - apply (lashinbang_staging_unique accepts m data A).
  - apply (mercari_staging_unique accepts m data A).
  - apply (yahoo_staging_unique accepts m data A).
Qed.

Lemma staging_keeps_first_of_each_id_witness :
  NoDup (map Lashinbang.row_id
           (temp (view (con (fst (Lashinbang._to_table Sample.L.accepts_all
                                    (Sample.L.manager 100 0)
                                    [Lashinbang.cols Sample.L.persisted_B;
                                     Sample.L.item_A;
                                     Lashinbang.cols Sample.L.persisted_B]))))))
  /\ NoDup (map Mercari.row_id
              (temp (view (con (fst (Mercari._to_table Sample.M.accepts_all
                                       (Sample.M.manager 100 0)
                                       [Sample.M.item_1; Sample.M.item_1]))))))
  /\ NoDup (map Yahoo.row_id
              (temp (view (con (fst (Yahoo._to_table Sample.Y.accepts_all
                                       (Sample.Y.manager 200000 0)
                                       [Sample.Y.item_1; Sample.Y.item_1])))))).
Proof.
  destruct staging_keeps_first_of_each_id as (HL & HM & HY).
  split; [ | split ].
  - apply (HL Sample.L.accepts_all (Sample.L.manager 100 0)
             [Lashinbang.cols Sample.L.persisted_B; Sample.L.item_A;
              Lashinbang.cols Sample.L.persisted_B]).
    + reflexivity.
    + simpl. constructor; [ intros [] | constructor ].
  - apply (HM Sample.M.accepts_all (Sample.M.manager 100 0)
             [Sample.M.item_1; Sample.M.item_1]).
    + reflexivity.
    + simpl. constructor.
      * intros [ H | [] ]. discriminate H.
      * constructor; [ intros [] | constructor ].
  - apply (HY Sample.Y.accepts_all (Sample.Y.manager 200000 0)
             [Sample.Y.item_1; Sample.Y.item_1]).
    + reflexivity.
    + simpl. constructor; [ intros [] | constructor ].
Defined.

(** ** What the commit leaves *)

Lemma filtered_keys_unique {Row K : Type} (key : Row -> K)
    (keep : Row -> bool) :
  forall tbl : list Row,
    NoDup (map key tbl) -> NoDup (map key (filter keep tbl)).
Proof.
  intros tbl. induction tbl as [ | r tbl IH ]; intros N.
  - constructor.
  - inversion N as [ | k ks Nk Nt ]. subst. simpl.
    destruct (keep r); [ | apply IH; exact Nt ].
    simpl. constructor; [ | apply IH; exact Nt ].
    intros H. apply in_map_iff in H. destruct H as (x & Ex & Hx).
    apply filter_In in Hx. destruct Hx as (Hx & _).
    apply Nk. rewrite <- Ex. apply in_map. exact Hx.
Qed.

Lemma nil_of_no_member {A : Type} (l : list A) :
  (forall x, ~ In x l) -> l = [].
Proof.
  destruct l as [ | a l ]; intros H.
  - reflexivity.
  - exfalso. apply (H a). left. reflexivity.
Qed.

Lemma lashinbang_update_nodup (m : Manager Lashinbang.Row) :
  NoDup (map Lashinbang.row_id (Classutil.main (view (con m)))) ->
  NoDup (map Lashinbang.row_id (temp (view (con m)))) ->
  NoDup (map Lashinbang.row_id (Classutil.main (view (con (Lashinbang.update m))))).
Proof.
  intros Nm Nt. destruct (LashinbangFacts.lashinbang_update_main m) as (E & _).
  rewrite E. simpl. rewrite map_app.
  rewrite (SqlFacts.executemany_update_keys Lashinbang.row_id Z.eqb snd
             Lashinbang.set_row LashinbangFacts.lashinbang_set_row_key).
  apply NoDup_app.
  - exact Nm.
  - apply filtered_keys_unique. exact Nt.
  - intros a Ha Hb. apply in_map_iff in Hb. destruct Hb as (s & Es & Hs).
    apply filter_In in Hs. destruct Hs as (Hs & K).
    apply negb_true_iff in K.
    apply (SqlFacts.key_in_false Lashinbang.row_id Z.eqb SqlFacts.Z_eqb_spec) in K.
    apply K.
    rewrite (SqlFacts.executemany_update_keys Lashinbang.row_id Z.eqb snd
               Lashinbang.set_row LashinbangFacts.lashinbang_set_row_key).
    rewrite Es. exact Ha.
Qed.

Lemma lashinbang_update_stores (m : Manager Lashinbang.Row) (s : Lashinbang.Row) :
  NoDup (map Lashinbang.row_id (temp (view (con m)))) ->
  In s (temp (view (con m))) ->
  exists r',
    In r' (Classutil.main (view (con (Lashinbang.update m))))
    /\ Lashinbang.row_id r' = Lashinbang.row_id s
    /\ Lashinbang.price (Lashinbang.cols r') = Lashinbang.price (Lashinbang.cols s)
    /\ Lashinbang.update_time r' = Lashinbang.update_time s.
Proof.
  intros Nt Hs.
  destruct (Sql.key_in Lashinbang.row_id Z.eqb (Lashinbang.row_id s)
              (Classutil.main (view (con m)))) eqn:K.
  - apply (SqlFacts.key_in_spec Lashinbang.row_id Z.eqb SqlFacts.Z_eqb_spec) in K.
    apply in_map_iff in K. destruct K as (r & Er & Hr).
    destruct (LashinbangFacts.lashinbang_update_overwrites m r Hr) as (s' & Hs' & Es' & Hin).
    { rewrite Er. apply in_map. exact Hs. }
    assert (s' = s).
    { apply (unique_key_row Lashinbang.row_id _ _ _ Nt Hs' Hs). congruence. }
    subst s'. eexists. split; [ exact Hin | ]. simpl.
    repeat split; auto.
  - exists s. split; [ | repeat split; reflexivity ].
    destruct (LashinbangFacts.lashinbang_update_main m) as (E & _). rewrite E. simpl.
    apply in_or_app. right. apply filter_In. split; [ exact Hs | ].
    apply negb_true_iff.
    apply (SqlFacts.key_in_false Lashinbang.row_id Z.eqb SqlFacts.Z_eqb_spec).
    rewrite (SqlFacts.executemany_update_keys Lashinbang.row_id Z.eqb snd
               Lashinbang.set_row LashinbangFacts.lashinbang_set_row_key).
    apply (SqlFacts.key_in_false Lashinbang.row_id Z.eqb SqlFacts.Z_eqb_spec).
    exact K.
Qed.

(** After [update] a stored row with a staged id carries the staged
    values of the columns the UPDATE writes. *)
Lemma lashinbang_update_matches (m : Manager Lashinbang.Row) (tr lr : Lashinbang.Row) :
  NoDup (map Lashinbang.row_id (temp (view (con m)))) ->
  In tr (temp (view (con m))) ->
  In lr (Classutil.main (view (con (Lashinbang.update m)))) ->
  Lashinbang.row_id tr = Lashinbang.row_id lr ->
  Lashinbang.price (Lashinbang.cols lr) = Lashinbang.price (Lashinbang.cols tr).
Proof.
  intros Nt Ht Hl Eid. destruct (LashinbangFacts.lashinbang_update_main m) as (E & _).
  rewrite E in Hl. simpl in Hl. apply in_app_or in Hl.
  destruct Hl as [ Hl | Hl ].
  - destruct (TableFacts.executemany_update_rows Lashinbang.row_id Z.eqb
                SqlFacts.Z_eqb_spec snd Lashinbang.set_row LashinbangFacts.lashinbang_set_row_key
                LashinbangFacts.lashinbang_set_row_absorb _ _ lr Hl)
      as (r & Hr & [ (E1 & N) | (q & Hq & Eq & E1) ]).
    + exfalso. apply N. apply (LashinbangFacts.lashinbang_update_query_keys _ _ _ Hr).
      subst lr. rewrite <- Eid. apply in_map. exact Ht.
    + unfold Lashinbang.update_query in Hq. apply in_map_iff in Hq.
      destruct Hq as (s & Es & Hs). apply filter_In in Hs.
      destruct Hs as (Hs & _). subst q. simpl in Eq.
      assert (s = tr).
      { apply (unique_key_row Lashinbang.row_id _ _ _ Nt Hs Ht).
        subst lr. rewrite LashinbangFacts.lashinbang_set_row_key in Eid.
        congruence. }
      subst s lr. simpl. repeat split; reflexivity.
  - apply filter_In in Hl. destruct Hl as (Hl & _).
    assert (lr = tr).
    { apply (unique_key_row Lashinbang.row_id _ _ _ Nt Hl Ht). congruence. }
    subst lr. repeat split; reflexivity.
Qed.

Lemma lashinbang_compare_counts (m : Manager Lashinbang.Row) :
  let r := Lashinbang.compare m in
  info_new (info (fst r)) = len (fst (fst (snd r)))
  /\ info_discount (info (fst r)) = len (snd (fst (snd r)))
  /\ info_sold (info (fst r)) = len (snd (snd r))
  /\ info_site (info (fst r)) = info_site (info m)
  /\ info_time (info (fst r)) = info_time (info m)
  /\ info_error (info (fst r)) = info_error (info m)
  /\ info_page (info (fst r)) = info_page (info m)
  /\ info_count (info (fst r)) = info_count (info m)
  /\ info_last (info (fst r)) = info_last (info m)
  /\ con (fst r) = con m.
Proof.
  cbv zeta. unfold Lashinbang.compare.
  destruct (Qeq_bool (info_last (info m)) 0); simpl.
  - repeat split; reflexivity.
  - destruct (info_error (info m) =? 0); simpl; repeat split; reflexivity.
Qed.

Lemma mercari_update_nodup (m : Manager Mercari.Row) :
  NoDup (map Mercari.row_id (Classutil.main (view (con m)))) ->
  NoDup (map Mercari.row_id (temp (view (con m)))) ->
  NoDup (map Mercari.row_id (Classutil.main (view (con (Mercari.update m))))).
Proof.
  intros Nm Nt. destruct (MercariFacts.mercari_update_main m) as (E & _).
  rewrite E. simpl. rewrite map_app.
  rewrite (SqlFacts.executemany_update_keys Mercari.row_id String.eqb snd
             Mercari.set_row MercariFacts.mercari_set_row_key).
  apply NoDup_app.
  - exact Nm.
  - apply filtered_keys_unique. exact Nt.
  - intros a Ha Hb. apply in_map_iff in Hb. destruct Hb as (s & Es & Hs).
    apply filter_In in Hs. destruct Hs as (Hs & K).
    apply negb_true_iff in K.
    apply (SqlFacts.key_in_false Mercari.row_id String.eqb SqlFacts.string_eqb_spec) in K.
    apply K.
    rewrite (SqlFacts.executemany_update_keys Mercari.row_id String.eqb snd
               Mercari.set_row MercariFacts.mercari_set_row_key).
    rewrite Es. exact Ha.
Qed.

Lemma mercari_update_stores (m : Manager Mercari.Row) (s : Mercari.Row) :
  NoDup (map Mercari.row_id (temp (view (con m)))) ->
  In s (temp (view (con m))) ->
  exists r',
    In r' (Classutil.main (view (con (Mercari.update m))))
    /\ Mercari.row_id r' = Mercari.row_id s
    /\ Mercari.price (Mercari.cols r') = Mercari.price (Mercari.cols s) /\ Mercari.onsale (Mercari.cols r') = Mercari.onsale (Mercari.cols s)
    /\ Mercari.update_time r' = Mercari.update_time s.
Proof.
  intros Nt Hs.
  destruct (Sql.key_in Mercari.row_id String.eqb (Mercari.row_id s)
              (Classutil.main (view (con m)))) eqn:K.
  - apply (SqlFacts.key_in_spec Mercari.row_id String.eqb SqlFacts.string_eqb_spec) in K.
    apply in_map_iff in K. destruct K as (r & Er & Hr).
    destruct (MercariFacts.mercari_update_overwrites m r Hr) as (s' & Hs' & Es' & Hin).
    { rewrite Er. apply in_map. exact Hs. }
    assert (s' = s).
    { apply (unique_key_row Mercari.row_id _ _ _ Nt Hs' Hs). congruence. }
    subst s'. eexists. split; [ exact Hin | ]. simpl.
    repeat split; auto.
  - exists s. split; [ | repeat split; reflexivity ].
    destruct (MercariFacts.mercari_update_main m) as (E & _). rewrite E. simpl.
    apply in_or_app. right. apply filter_In. split; [ exact Hs | ].
    apply negb_true_iff.
    apply (SqlFacts.key_in_false Mercari.row_id String.eqb SqlFacts.string_eqb_spec).
    rewrite (SqlFacts.executemany_update_keys Mercari.row_id String.eqb snd
               Mercari.set_row MercariFacts.mercari_set_row_key).
    apply (SqlFacts.key_in_false Mercari.row_id String.eqb SqlFacts.string_eqb_spec).
    exact K.
Qed.

(** After [update] a stored row with a staged id carries the staged
    values of the columns the UPDATE writes. *)
Lemma mercari_update_matches (m : Manager Mercari.Row) (tr lr : Mercari.Row) :
  NoDup (map Mercari.row_id (temp (view (con m)))) ->
  In tr (temp (view (con m))) ->
  In lr (Classutil.main (view (con (Mercari.update m)))) ->
  Mercari.row_id tr = Mercari.row_id lr ->
  Mercari.price (Mercari.cols lr) = Mercari.price (Mercari.cols tr) /\ Mercari.onsale (Mercari.cols lr) = Mercari.onsale (Mercari.cols tr).
Proof.
  intros Nt Ht Hl Eid. destruct (MercariFacts.mercari_update_main m) as (E & _).
  rewrite E in Hl. simpl in Hl. apply in_app_or in Hl.
  destruct Hl as [ Hl | Hl ].
  - destruct (TableFacts.executemany_update_rows Mercari.row_id String.eqb
                SqlFacts.string_eqb_spec snd Mercari.set_row MercariFacts.mercari_set_row_key
                MercariFacts.mercari_set_row_absorb _ _ lr Hl)
      as (r & Hr & [ (E1 & N) | (q & Hq & Eq & E1) ]).
    + exfalso. apply N. apply (MercariFacts.mercari_update_query_keys _ _ _ Hr).
      subst lr. rewrite <- Eid. apply in_map. exact Ht.
    + unfold Mercari.update_query in Hq. apply in_map_iff in Hq.
      destruct Hq as (s & Es & Hs). apply filter_In in Hs.
      destruct Hs as (Hs & _). subst q. simpl in Eq.
      assert (s = tr).
      { apply (unique_key_row Mercari.row_id _ _ _ Nt Hs Ht).
        subst lr. rewrite MercariFacts.mercari_set_row_key in Eid.
        congruence. }
      subst s lr. simpl. repeat split; reflexivity.
  - apply filter_In in Hl. destruct Hl as (Hl & _).
    assert (lr = tr).
    { apply (unique_key_row Mercari.row_id _ _ _ Nt Hl Ht). congruence. }
    subst lr. repeat split; reflexivity.
Qed.

Lemma mercari_compare_counts (m : Manager Mercari.Row) :
  let r := Mercari.compare m in
  info_new (info (fst r)) = len (fst (fst (snd r)))
  /\ info_discount (info (fst r)) = len (snd (fst (snd r)))
  /\ info_sold (info (fst r)) = len (snd (snd r))
  /\ info_site (info (fst r)) = info_site (info m)
  /\ info_time (info (fst r)) = info_time (info m)
  /\ info_error (info (fst r)) = info_error (info m)
  /\ info_page (info (fst r)) = info_page (info m)
  /\ info_count (info (fst r)) = info_count (info m)
  /\ info_last (info (fst r)) = info_last (info m)
  /\ con (fst r) = con m.
Proof.
  cbv zeta. unfold Mercari.compare.
  destruct (Qeq_bool (info_last (info m)) 0); simpl.
  - repeat split; reflexivity.
  - repeat split; reflexivity.
Qed.

Lemma yahoo_update_nodup (m : Manager Yahoo.Row) :
  NoDup (map Yahoo.row_id (Classutil.main (view (con m)))) ->
  NoDup (map Yahoo.row_id (temp (view (con m)))) ->
  NoDup (map Yahoo.row_id (Classutil.main (view (con (Yahoo.update m))))).
Proof.
  intros Nm Nt. destruct (YahooFacts.yahoo_update_main m) as (E & _).
  rewrite E. simpl. rewrite map_app.
  rewrite (SqlFacts.executemany_update_keys Yahoo.row_id String.eqb snd
             Yahoo.set_row YahooFacts.yahoo_set_row_key).
  apply NoDup_app.
  - exact Nm.
  - apply filtered_keys_unique. exact Nt.
  - intros a Ha Hb. apply in_map_iff in Hb. destruct Hb as (s & Es & Hs).
    apply filter_In in Hs. destruct Hs as (Hs & K).
    apply negb_true_iff in K.
    apply (SqlFacts.key_in_false Yahoo.row_id String.eqb SqlFacts.string_eqb_spec) in K.
    apply K.
    rewrite (SqlFacts.executemany_update_keys Yahoo.row_id String.eqb snd
               Yahoo.set_row YahooFacts.yahoo_set_row_key).
    rewrite Es. exact Ha.
Qed.

Lemma yahoo_update_stores (m : Manager Yahoo.Row) (s : Yahoo.Row) :
  NoDup (map Yahoo.row_id (temp (view (con m)))) ->
  In s (temp (view (con m))) ->
  exists r',
    In r' (Classutil.main (view (con (Yahoo.update m))))
    /\ Yahoo.row_id r' = Yahoo.row_id s
    /\ Yahoo.bid_price (Yahoo.cols r') = Yahoo.bid_price (Yahoo.cols s) /\ Yahoo.full_price (Yahoo.cols r') = Yahoo.full_price (Yahoo.cols s) /\ Yahoo.end_ (Yahoo.cols r') = Yahoo.end_ (Yahoo.cols s) /\ Yahoo.bid_num (Yahoo.cols r') = Yahoo.bid_num (Yahoo.cols s)
    /\ Yahoo.update_time r' = Yahoo.update_time s.
Proof.
  intros Nt Hs.
  destruct (Sql.key_in Yahoo.row_id String.eqb (Yahoo.row_id s)
              (Classutil.main (view (con m)))) eqn:K.
  - apply (SqlFacts.key_in_spec Yahoo.row_id String.eqb SqlFacts.string_eqb_spec) in K.
    apply in_map_iff in K. destruct K as (r & Er & Hr).
    destruct (YahooFacts.yahoo_update_overwrites m r Hr) as (s' & Hs' & Es' & Hin).
    { rewrite Er. apply in_map. exact Hs. }
    assert (s' = s).
    { apply (unique_key_row Yahoo.row_id _ _ _ Nt Hs' Hs). congruence. }
    subst s'. eexists. split; [ exact Hin | ]. simpl.
    repeat split; auto.
  - exists s. split; [ | repeat split; reflexivity ].
    destruct (YahooFacts.yahoo_update_main m) as (E & _). rewrite E. simpl.
    apply in_or_app. right. apply filter_In. split; [ exact Hs | ].
    apply negb_true_iff.
    apply (SqlFacts.key_in_false Yahoo.row_id String.eqb SqlFacts.string_eqb_spec).
    rewrite (SqlFacts.executemany_update_keys Yahoo.row_id String.eqb snd
               Yahoo.set_row YahooFacts.yahoo_set_row_key).
    apply (SqlFacts.key_in_false Yahoo.row_id String.eqb SqlFacts.string_eqb_spec).
    exact K.
Qed.

(** After [update] a stored row with a staged id carries the staged
    values of the columns the UPDATE writes. *)
Lemma yahoo_update_matches (m : Manager Yahoo.Row) (tr lr : Yahoo.Row) :
  NoDup (map Yahoo.row_id (temp (view (con m)))) ->
  In tr (temp (view (con m))) ->
  In lr (Classutil.main (view (con (Yahoo.update m)))) ->
  Yahoo.row_id tr = Yahoo.row_id lr ->
  Yahoo.bid_price (Yahoo.cols lr) = Yahoo.bid_price (Yahoo.cols tr) /\ Yahoo.full_price (Yahoo.cols lr) = Yahoo.full_price (Yahoo.cols tr) /\ Yahoo.end_ (Yahoo.cols lr) = Yahoo.end_ (Yahoo.cols tr) /\ Yahoo.bid_num (Yahoo.cols lr) = Yahoo.bid_num (Yahoo.cols tr).
Proof.
  intros Nt Ht Hl Eid. destruct (YahooFacts.yahoo_update_main m) as (E & _).
  rewrite E in Hl. simpl in Hl. apply in_app_or in Hl.
  destruct Hl as [ Hl | Hl ].
  - destruct (TableFacts.executemany_update_rows Yahoo.row_id String.eqb
                SqlFacts.string_eqb_spec snd Yahoo.set_row YahooFacts.yahoo_set_row_key
                YahooFacts.yahoo_set_row_absorb _ _ lr Hl)
      as (r & Hr & [ (E1 & N) | (q & Hq & Eq & E1) ]).
    + exfalso. apply N. apply (YahooFacts.yahoo_update_query_keys _ _ _ Hr).
      subst lr. rewrite <- Eid. apply in_map. exact Ht.
    + unfold Yahoo.update_query in Hq. apply in_map_iff in Hq.
      destruct Hq as (s & Es & Hs). apply filter_In in Hs.
      destruct Hs as (Hs & _). subst q. simpl in Eq.
      assert (s = tr).
      { apply (unique_key_row Yahoo.row_id _ _ _ Nt Hs Ht).
        subst lr. rewrite YahooFacts.yahoo_set_row_key in Eid.
        congruence. }
      subst s lr. simpl. repeat split; reflexivity.
  - apply filter_In in Hl. destruct Hl as (Hl & _).
    assert (lr = tr).
    { apply (unique_key_row Yahoo.row_id _ _ _ Nt Hl Ht). congruence. }
    subst lr. repeat split; reflexivity.
Qed.

Lemma yahoo_compare_counts (m : Manager Yahoo.Row) :
  let r := Yahoo.compare m in
  info_new (info (fst r)) = len (fst (fst (snd r)))
  /\ info_discount (info (fst r)) = len (snd (fst (snd r)))
  /\ info_bid (info (fst r)) = len (snd (snd r))
  /\ info_site (info (fst r)) = info_site (info m)
  /\ info_time (info (fst r)) = info_time (info m)
  /\ info_error (info (fst r)) = info_error (info m)
  /\ info_page (info (fst r)) = info_page (info m)
  /\ info_count (info (fst r)) = info_count (info m)
  /\ info_last (info (fst r)) = info_last (info m)
  /\ con (fst r) = con m.
Proof.
  cbv zeta. unfold Yahoo.compare.
  destruct (Qeq_bool (info_last (info m)) 0); simpl.
  - repeat split; reflexivity.
  - repeat split; reflexivity.
Qed.

(** ** A second diff after the commit, and the log *)

Lemma lashinbang_update_temp (m : Manager Lashinbang.Row) :
  temp (view (con (Lashinbang.update m))) = temp (view (con m)).
Proof.
  destruct (LashinbangFacts.lashinbang_update_main m) as (E & _). rewrite E. reflexivity.
Qed.

Lemma lashinbang_no_discount_after_update (m : Manager Lashinbang.Row) :
  NoDup (map Lashinbang.row_id (temp (view (con m)))) ->
  Lashinbang.select_discount (temp (view (con (Lashinbang.update m))))
    (Classutil.main (view (con (Lashinbang.update m)))) = [].
Proof.
  intros Nt. apply nil_of_no_member. intros d Hd.
  apply LashinbangFacts.lashinbang_select_discount_spec in Hd.
  destruct Hd as (tr & lr & Ht & Hl & Hd).
  rewrite lashinbang_update_temp in Ht.
  destruct Hd as (Eid & Hd).
  pose proof (lashinbang_update_matches m tr lr Nt Ht Hl Eid) as M.
  destruct Hd as (P & _). lia.
Qed.

Section LashinbangRun.
Variable net : nat -> Request -> Response string.
Variable page_count : string -> option Z.
Variable decode : string -> Lashinbang.Decoded.
Variable accepts : Lashinbang.Item -> bool.
Variable watermark : string -> list LogRow -> Q.
Variable now : Q.

Lemma lashinbang_get_item_info (m : Manager Lashinbang.Row) :
  let m' := fst (Lashinbang.get_item net page_count decode accepts m) in
  info_site (info m') = info_site (info m)
  /\ info_time (info m') = info_time (info m)
  /\ info_last (info m') = info_last (info m).
Proof.
  cbv zeta. unfold Lashinbang.get_item.
  destruct (Lashinbang.get_many net page_count (crawler m) (keywords m)) as (c, [ raw | e ]); simpl; [ | auto ].
  match goal with
  | |- context [ match ?p with Return _ => _ | Raise _ => _ end ] =>
      destruct p as [ (items, err) | e ]; simpl; [ | auto ]
  end.
  unfold Lashinbang._to_table.
  match goal with
  | |- context [ Sql.executemany_insert ?k ?e ?a ?s ?d ?t ] =>
      destruct (Sql.executemany_insert k e a s d t) as (w, [ exc | ]);
        simpl; auto
  end.
Qed.

(** A run with [update] that returns a report has appended one row to
    the log. *)
Lemma lashinbang_main_commits (kws : list string) (db : Store Lashinbang.Row)
    new discount third (flag : bool) :
  snd (Lashinbang.main net page_count decode accepts watermark now kws db true)
  = Return (new, discount, third, flag) ->
  exists e p c,
    log (fst (Lashinbang.main net page_count decode accepts watermark now kws db true))
    = log db
      ++ [mkLogRow "lashinbang" now e p c (len new) (len discount) (len third)].
Proof.
  unfold Lashinbang.main.
  pose proof (LashinbangFacts.lashinbang_get_item_con net page_count decode accepts
                (Lashinbang.new_manager watermark now kws db) eq_refl) as C.
  pose proof (lashinbang_get_item_info
                (Lashinbang.new_manager watermark now kws db)) as I.
  simpl in C, I. destruct C as (C1 & _ & C3). destruct I as (I1 & I2 & _).
  destruct (Lashinbang.get_item net page_count decode accepts
              (Lashinbang.new_manager watermark now kws db))
    as (m1, [ [] | e ]); simpl in *; [ | discriminate ].
  unfold Lashinbang.get_message.
  pose proof (lashinbang_compare_counts m1) as N. cbv zeta in N.
  destruct (Lashinbang.compare m1) as (m2, ((n, d), t)). simpl in *.
  destruct N as (N1 & N2 & N3 & N4 & N5 & _ & _ & _ & _ & N10).
  intros H. inversion H. subst n d t.
  unfold Lashinbang.log_row. rewrite N1, N2, N3, N4, N5, I1, I2, N10, C1, C3.
  eexists _, _, _. reflexivity.
Qed.

(** When [get_item] raises, [main] ends with this exception before
    [compare] and [update] are reached, and has written neither the
    persistent table nor the log. *)
Lemma lashinbang_main_raises (kws : list string) (db : Store Lashinbang.Row)
    (upd : bool) (e : Exn) :
  snd (Lashinbang.get_item net page_count decode accepts
         (Lashinbang.new_manager watermark now kws db)) = Raise e ->
  snd (Lashinbang.main net page_count decode accepts watermark now kws db upd) = Raise e
  /\ Classutil.main (fst (Lashinbang.main net page_count decode accepts watermark now kws db upd))
     = Classutil.main db
  /\ log (fst (Lashinbang.main net page_count decode accepts watermark now kws db upd)) = log db.
Proof.
  unfold Lashinbang.main.
  pose proof (LashinbangFacts.lashinbang_get_item_con net page_count decode accepts
                (Lashinbang.new_manager watermark now kws db) eq_refl) as C.
  simpl in C. destruct C as (_ & C2 & C3).
  destruct (Lashinbang.get_item net page_count decode accepts
              (Lashinbang.new_manager watermark now kws db))
    as (m1, [ [] | e1 ]); simpl in *.
  - discriminate.
  - intros H. injection H as H. subst e1. auto.
Qed.
End LashinbangRun.

Lemma mercari_update_temp (m : Manager Mercari.Row) :
  temp (view (con (Mercari.update m))) = temp (view (con m)).
Proof.
  destruct (MercariFacts.mercari_update_main m) as (E & _). rewrite E. reflexivity.
Qed.

Lemma mercari_no_discount_after_update (m : Manager Mercari.Row) :
  NoDup (map Mercari.row_id (temp (view (con m)))) ->
  Mercari.select_discount (temp (view (con (Mercari.update m))))
    (Classutil.main (view (con (Mercari.update m)))) = [].
Proof.
  intros Nt. apply nil_of_no_member. intros d Hd.
  apply MercariFacts.mercari_select_discount_spec in Hd.
  destruct Hd as (tr & lr & Ht & Hl & Hd).
  rewrite mercari_update_temp in Ht.
  destruct Hd as (Eid & Hd).
  pose proof (mercari_update_matches m tr lr Nt Ht Hl Eid) as M.
  destruct Hd as (P & _). destruct M as (M & _). lia.
Qed.

Section MercariRun.
Variable net : nat -> Request -> Response Mercari.Payload.
Variable accepts : Mercari.Item -> bool.
Variable watermark : string -> list LogRow -> Q.
Variable now : Q.

Lemma mercari_get_item_info (m : Manager Mercari.Row) :
  let m' := fst (Mercari.get_item net accepts m) in
  info_site (info m') = info_site (info m)
  /\ info_time (info m') = info_time (info m)
  /\ info_last (info m') = info_last (info m).
Proof.
  cbv zeta. unfold Mercari.get_item.
  destruct (Mercari.get_many net (crawler m) (keywords m)) as (c, raw); simpl.
  match goal with
  | |- context [ match ?p with Return _ => _ | Raise _ => _ end ] =>
      destruct p as [ (items, err) | e ]; simpl; [ | auto ]
  end.
  unfold Mercari._to_table.
  match goal with
  | |- context [ Sql.executemany_insert ?k ?e ?a ?s ?d ?t ] =>
      destruct (Sql.executemany_insert k e a s d t) as (w, [ exc | ]);
        simpl; auto
  end.
Qed.

(** A run with [update] that returns a report has appended one row to
    the log. *)
Lemma mercari_main_commits (kws : list string) (db : Store Mercari.Row)
    new discount third (flag : bool) :
  snd (Mercari.main net accepts watermark now kws db true)
  = Return (new, discount, third, flag) ->
  exists e p c,
    log (fst (Mercari.main net accepts watermark now kws db true))
    = log db
      ++ [mkLogRow "mercari" now e p c (len new) (len discount) (len third)].
Proof.
  unfold Mercari.main.
  pose proof (MercariFacts.mercari_get_item_con net accepts
                (Mercari.new_manager watermark now kws db) eq_refl) as C.
  pose proof (mercari_get_item_info
                (Mercari.new_manager watermark now kws db)) as I.
  simpl in C, I. destruct C as (C1 & _ & C3). destruct I as (I1 & I2 & _).
  destruct (Mercari.get_item net accepts
              (Mercari.new_manager watermark now kws db))
    as (m1, [ [] | e ]); simpl in *; [ | discriminate ].
  unfold Mercari.get_message.
  pose proof (mercari_compare_counts m1) as N. cbv zeta in N.
  destruct (Mercari.compare m1) as (m2, ((n, d), t)). simpl in *.
  destruct N as (N1 & N2 & N3 & N4 & N5 & _ & _ & _ & _ & N10).
  intros H. inversion H. subst n d t.
  unfold Mercari.log_row. rewrite N1, N2, N3, N4, N5, I1, I2, N10, C1, C3.
  eexists _, _, _. reflexivity.
Qed.

(** When [get_item] raises, [main] ends with this exception before
    [compare] and [update] are reached, and has written neither the
    persistent table nor the log. *)
Lemma mercari_main_raises (kws : list string) (db : Store Mercari.Row)
    (upd : bool) (e : Exn) :
  snd (Mercari.get_item net accepts
         (Mercari.new_manager watermark now kws db)) = Raise e ->
  snd (Mercari.main net accepts watermark now kws db upd) = Raise e
  /\ Classutil.main (fst (Mercari.main net accepts watermark now kws db upd))
     = Classutil.main db
  /\ log (fst (Mercari.main net accepts watermark now kws db upd)) = log db.
Proof.
  unfold Mercari.main.
  pose proof (MercariFacts.mercari_get_item_con net accepts
                (Mercari.new_manager watermark now kws db) eq_refl) as C.
  simpl in C. destruct C as (_ & C2 & C3).
  destruct (Mercari.get_item net accepts
              (Mercari.new_manager watermark now kws db))
    as (m1, [ [] | e1 ]); simpl in *.
  - discriminate.
  - intros H. injection H as H. subst e1. auto.
Qed.
End MercariRun.

Lemma yahoo_update_temp (m : Manager Yahoo.Row) :
  temp (view (con (Yahoo.update m))) = temp (view (con m)).
Proof.
  destruct (YahooFacts.yahoo_update_main m) as (E & _). rewrite E. reflexivity.
Qed.

Lemma yahoo_no_discount_after_update (m : Manager Yahoo.Row) :
  NoDup (map Yahoo.row_id (temp (view (con m)))) ->
  Yahoo.select_discount (temp (view (con (Yahoo.update m))))
    (Classutil.main (view (con (Yahoo.update m)))) = [].
Proof.
  intros Nt. apply nil_of_no_member. intros d Hd.
  apply YahooFacts.yahoo_select_discount_spec in Hd.
  destruct Hd as (tr & lr & Ht & Hl & Hd).
  rewrite yahoo_update_temp in Ht.
  destruct Hd as (Eid & Hd).
  pose proof (yahoo_update_matches m tr lr Nt Ht Hl Eid) as M.
  destruct Hd as (P & _). destruct M as (M1 & M2 & _). lia.
Qed.

Lemma yahoo_no_bid_after_update (m : Manager Yahoo.Row) :
  NoDup (map Yahoo.row_id (temp (view (con m)))) ->
  Yahoo.select_bid (temp (view (con (Yahoo.update m))))
    (Classutil.main (view (con (Yahoo.update m)))) = [].
Proof.
  intros Nt. apply nil_of_no_member. intros b Hb.
  apply YahooFacts.yahoo_select_bid_spec in Hb.
  destruct Hb as (tr & lr & Ht & Hl & Eid & P & _).
  rewrite yahoo_update_temp in Ht.
  destruct (yahoo_update_matches m tr lr Nt Ht Hl Eid) as (_ & _ & _ & M).
  lia.
Qed.

Section YahooRun.
Variable net : nat -> Request -> Response string.
Variable parse : string -> Yahoo.Parsed.
Variable accepts : Yahoo.Item -> bool.
Variable watermark : string -> list LogRow -> Q.
Variable now : Q.

Lemma yahoo_get_item_info (m : Manager Yahoo.Row) :
  let m' := fst (Yahoo.get_item net parse accepts m) in
  info_site (info m') = info_site (info m)
  /\ info_time (info m') = info_time (info m)
  /\ info_last (info m') = info_last (info m).
Proof.
  cbv zeta. unfold Yahoo.get_item.
  destruct (Yahoo.get_many net (crawler m) (keywords m)) as (c, raw); simpl.
  match goal with
  | |- context [ match ?p with Return _ => _ | Raise _ => _ end ] =>
      destruct p as [ (items, err) | e ]; simpl; [ | auto ]
  end.
  unfold Yahoo._to_table.
  match goal with
  | |- context [ Sql.executemany_insert ?k ?e ?a ?s ?d ?t ] =>
      destruct (Sql.executemany_insert k e a s d t) as (w, [ exc | ]);
        simpl; auto
  end.
Qed.

(** A run with [update] that returns a report has appended one row to
    the log. *)
Lemma yahoo_main_commits (kws : list string) (db : Store Yahoo.Row)
    new discount third (flag : bool) :
  snd (Yahoo.main net parse accepts watermark now kws db true)
  = Return (new, discount, third, flag) ->
  exists e p c,
    log (fst (Yahoo.main net parse accepts watermark now kws db true))
    = log db
      ++ [mkLogRow "yahoo" now e p c (len new) (len discount) (len third)].
Proof.
  unfold Yahoo.main.
  pose proof (YahooFacts.yahoo_get_item_con net parse accepts
                (Yahoo.new_manager watermark now kws db) eq_refl) as C.
  pose proof (yahoo_get_item_info
                (Yahoo.new_manager watermark now kws db)) as I.
  simpl in C, I. destruct C as (C1 & _ & C3). destruct I as (I1 & I2 & _).
  destruct (Yahoo.get_item net parse accepts
              (Yahoo.new_manager watermark now kws db))
    as (m1, [ [] | e ]); simpl in *; [ | discriminate ].
  unfold Yahoo.get_message.
  pose proof (yahoo_compare_counts m1) as N. cbv zeta in N.
  destruct (Yahoo.compare m1) as (m2, ((n, d), t)). simpl in *.
  destruct N as (N1 & N2 & N3 & N4 & N5 & _ & _ & _ & _ & N10).
  intros H. inversion H. subst n d t.
  unfold Yahoo.log_row. rewrite N1, N2, N3, N4, N5, I1, I2, N10, C1, C3.
  eexists _, _, _. reflexivity.
Qed.

(** When [get_item] raises, [main] ends with this exception before
    [compare] and [update] are reached, and has written neither the
    persistent table nor the log. *)
Lemma yahoo_main_raises (kws : list string) (db : Store Yahoo.Row)
    (upd : bool) (e : Exn) :
  snd (Yahoo.get_item net parse accepts
         (Yahoo.new_manager watermark now kws db)) = Raise e ->
  snd (Yahoo.main net parse accepts watermark now kws db upd) = Raise e
  /\ Classutil.main (fst (Yahoo.main net parse accepts watermark now kws db upd))
     = Classutil.main db
  /\ log (fst (Yahoo.main net parse accepts watermark now kws db upd)) = log db.
Proof.
  unfold Yahoo.main.
  pose proof (YahooFacts.yahoo_get_item_con net parse accepts
                (Yahoo.new_manager watermark now kws db) eq_refl) as C.
  simpl in C. destruct C as (_ & C2 & C3).
  destruct (Yahoo.get_item net parse accepts
              (Yahoo.new_manager watermark now kws db))
    as (m1, [ [] | e1 ]); simpl in *.
  - discriminate.
  - intros H. injection H as H. subst e1. auto.
Qed.
End YahooRun.

Ltac distinct_ids :=
  repeat (constructor; [ simpl; intuition discriminate | ]); constructor.

(** X2.  [update] keeps the ids of the persistent table unique, in every
    adapter: if no two persistent rows and no two staged rows share an
    id before the call, no two persistent rows share one after it. *)
Theorem commit_keeps_ids_unique :
  (forall m : Manager Lashinbang.Row,
      NoDup (map Lashinbang.row_id (Classutil.main (view (con m)))) ->
      NoDup (map Lashinbang.row_id (temp (view (con m)))) ->
      NoDup (map Lashinbang.row_id
               (Classutil.main (view (con (Lashinbang.update m))))))
  /\ (forall m : Manager Mercari.Row,
      NoDup (map Mercari.row_id (Classutil.main (view (con m)))) ->
      NoDup (map Mercari.row_id (temp (view (con m)))) ->
      NoDup (map Mercari.row_id
               (Classutil.main (view (con (Mercari.update m))))))
  /\ (forall m : Manager Yahoo.Row,
      NoDup (map Yahoo.row_id (Classutil.main (view (con m)))) ->
      NoDup (map Yahoo.row_id (temp (view (con m)))) ->
      NoDup (map Yahoo.row_id
               (Classutil.main (view (con (Yahoo.update m)))))).
Proof.
  split; [ | split ]; intros m.
  - apply lashinbang_update_nodup.
  - apply mercari_update_nodup.
  - apply yahoo_update_nodup.
Qed.

Lemma commit_keeps_ids_unique_witness :
  NoDup (map Lashinbang.row_id
           (Classutil.main
              (view (con (Lashinbang.update (Sample.L.manager 100 0))))))
  /\ NoDup (map Mercari.row_id
              (Classutil.main
                 (view (con (Mercari.update (Sample.M.manager 100 0))))))
  /\ NoDup (map Yahoo.row_id
              (Classutil.main
                 (view (con (Yahoo.update (Sample.Y.manager 200000 0)))))).
Proof.
  destruct commit_keeps_ids_unique as (HL & HM & HY).
  split; [ | split ].
  - apply (HL (Sample.L.manager 100 0)); distinct_ids.
  - apply (HM (Sample.M.manager 100 0)); distinct_ids.
  - apply (HY (Sample.Y.manager 200000 0)); distinct_ids.
Defined.

(** X3.  After [update], in every adapter and for staging with unique
    ids, every staged row has a persistent row with its id that carries
    the staged values of the columns the UPDATE writes and the staged
    [update_time], whether the id was stored before or not. *)
Theorem commit_stores_every_staged_row :
  (forall (m : Manager Lashinbang.Row) (s : Lashinbang.Row),
      NoDup (map Lashinbang.row_id (temp (view (con m)))) ->
      In s (temp (view (con m))) ->
      exists r',
        In r' (Classutil.main (view (con (Lashinbang.update m))))
        /\ Lashinbang.row_id r' = Lashinbang.row_id s
        /\ Lashinbang.price (Lashinbang.cols r') = Lashinbang.price (Lashinbang.cols s)
        /\ Lashinbang.update_time r' = Lashinbang.update_time s)
  /\ (forall (m : Manager Mercari.Row) (s : Mercari.Row),
      NoDup (map Mercari.row_id (temp (view (con m)))) ->
      In s (temp (view (con m))) ->
      exists r',
        In r' (Classutil.main (view (con (Mercari.update m))))
        /\ Mercari.row_id r' = Mercari.row_id s
        /\ Mercari.price (Mercari.cols r') = Mercari.price (Mercari.cols s)
            /\ Mercari.onsale (Mercari.cols r') = Mercari.onsale (Mercari.cols s)
        /\ Mercari.update_time r' = Mercari.update_time s)
  /\ (forall (m : Manager Yahoo.Row) (s : Yahoo.Row),
      NoDup (map Yahoo.row_id (temp (view (con m)))) ->
      In s (temp (view (con m))) ->
      exists r',
        In r' (Classutil.main (view (con (Yahoo.update m))))
        /\ Yahoo.row_id r' = Yahoo.row_id s
        /\ Yahoo.bid_price (Yahoo.cols r') = Yahoo.bid_price (Yahoo.cols s)
            /\ Yahoo.full_price (Yahoo.cols r') = Yahoo.full_price (Yahoo.cols s)
            /\ Yahoo.end_ (Yahoo.cols r') = Yahoo.end_ (Yahoo.cols s)
            /\ Yahoo.bid_num (Yahoo.cols r') = Yahoo.bid_num (Yahoo.cols s)
        /\ Yahoo.update_time r' = Yahoo.update_time s).
Proof.
  split; [ | split ]; intros m s.
  - apply lashinbang_update_stores.
  - apply mercari_update_stores.
  - apply yahoo_update_stores.
Qed.

Lemma commit_stores_every_staged_row_witness :
  (exists r',
      In r' (Classutil.main
               (view (con (Lashinbang.update (Sample.L.manager 100 0)))))
      /\ Lashinbang.row_id r' = 42
      /\ Lashinbang.price (Lashinbang.cols r') = 800
      /\ Lashinbang.update_time r' = Some (Sample.q 200))
  /\ (exists r',
      In r' (Classutil.main
               (view (con (Mercari.update (Sample.M.manager 100 0)))))
      /\ Mercari.row_id r' = "m1"
      /\ Mercari.price (Mercari.cols r') = 300
      /\ Mercari.onsale (Mercari.cols r') = 0
      /\ Mercari.update_time r' = Some (Sample.q 200))
  /\ (exists r',
      In r' (Classutil.main
               (view (con (Yahoo.update (Sample.Y.manager 200000 0)))))
      /\ Yahoo.row_id r' = "y1"
      /\ Yahoo.bid_price (Yahoo.cols r') = 200
      /\ Yahoo.full_price (Yahoo.cols r') = 900
      /\ Yahoo.end_ (Yahoo.cols r') = Sample.q 500000
      /\ Yahoo.bid_num (Yahoo.cols r') = 1
      /\ Yahoo.update_time r' = Some (Sample.q 200100)).
Proof.
  destruct commit_stores_every_staged_row as (HL & HM & HY).
  split; [ | split ].
  - apply (HL (Sample.L.manager 100 0) Sample.L.staged_A).
    + distinct_ids.
    + simpl. left. reflexivity.
  - apply (HM (Sample.M.manager 100 0) Sample.M.staged_1).
    + distinct_ids.
    + simpl. left. reflexivity.
  - apply (HY (Sample.Y.manager 200000 0) Sample.Y.staged_1).
    + distinct_ids.
    + simpl. left. reflexivity.
Defined.

Lemma lashinbang_second_diff (m : Manager Lashinbang.Row) :
  NoDup (map Lashinbang.row_id (temp (view (con m)))) ->
  snd (fst (snd (Lashinbang.compare (Lashinbang.update m)))) = [].
Proof.
  intros Nt.
  destruct (Qeq_dec (info_last (info (Lashinbang.update m))) 0) as [ Z | Z ].
  - rewrite (LashinbangFacts.lashinbang_compare_first_run _ Z). reflexivity.
  - destruct (LashinbangFacts.lashinbang_compare_later _ Z) as (R & _).
    rewrite R. simpl fst. simpl snd.
    apply lashinbang_no_discount_after_update. exact Nt.
Qed.

Lemma mercari_second_diff (m : Manager Mercari.Row) :
  NoDup (map Mercari.row_id (temp (view (con m)))) ->
  snd (fst (snd (Mercari.compare (Mercari.update m)))) = [].
Proof.
  intros Nt.
  destruct (Qeq_dec (info_last (info (Mercari.update m))) 0) as [ Z | Z ].
  - rewrite (MercariFacts.mercari_compare_first_run _ Z). reflexivity.
  - destruct (MercariFacts.mercari_compare_later _ Z) as (R & _).
    rewrite R. simpl fst. simpl snd.
    apply mercari_no_discount_after_update. exact Nt.
Qed.

Lemma yahoo_second_diff (m : Manager Yahoo.Row) :
  NoDup (map Yahoo.row_id (temp (view (con m)))) ->
  snd (fst (snd (Yahoo.compare (Yahoo.update m)))) = []
  /\ snd (snd (Yahoo.compare (Yahoo.update m))) = [].
Proof.
  intros Nt.
  destruct (Qeq_dec (info_last (info (Yahoo.update m))) 0) as [ Z | Z ].
  - rewrite (YahooFacts.yahoo_compare_first_run _ Z). split; reflexivity.
  - destruct (YahooFacts.yahoo_compare_later _ Z) as (R & _).
    rewrite R. simpl fst. simpl snd. split.
    + apply yahoo_no_discount_after_update. exact Nt.
    + apply yahoo_no_bid_after_update. exact Nt.
Qed.

(** X4.  A [compare] run right after [update], against the same staging
    (with unique ids), returns no discount in any adapter, and no bid
    increase in the Yahoo adapter: the commit has taken over the staged
    prices and bid counts. *)
Theorem second_diff_after_commit_is_quiet :
  (forall m : Manager Lashinbang.Row,
      NoDup (map Lashinbang.row_id (temp (view (con m)))) ->
      snd (fst (snd (Lashinbang.compare (Lashinbang.update m)))) = [])
  /\ (forall m : Manager Mercari.Row,
      NoDup (map Mercari.row_id (temp (view (con m)))) ->
      snd (fst (snd (Mercari.compare (Mercari.update m)))) = [])
  /\ (forall m : Manager Yahoo.Row,
      NoDup (map Yahoo.row_id (temp (view (con m)))) ->
      snd (fst (snd (Yahoo.compare (Yahoo.update m)))) = []
      /\ snd (snd (Yahoo.compare (Yahoo.update m))) = []).
Proof.
  split; [ | split ]; intros m.
  - apply lashinbang_second_diff.
  - apply mercari_second_diff.
  - apply yahoo_second_diff.
Qed.

Lemma second_diff_after_commit_is_quiet_witness :
  snd (fst (snd (Lashinbang.compare
                   (Lashinbang.update (Sample.L.manager 100 0))))) = []
  /\ snd (fst (snd (Mercari.compare
                      (Mercari.update (Sample.M.manager 100 0))))) = []
  /\ (snd (fst (snd (Yahoo.compare
                       (Yahoo.update (Sample.Y.manager 200000 0))))) = []
      /\ snd (snd (Yahoo.compare
                     (Yahoo.update (Sample.Y.manager 200000 0)))) = []).
Proof.
  destruct second_diff_after_commit_is_quiet as (HL & HM & HY).
  split; [ | split ].
  - apply (HL (Sample.L.manager 100 0)). distinct_ids.
  - apply (HM (Sample.M.manager 100 0)). distinct_ids.
  - apply (HY (Sample.Y.manager 200000 0)). distinct_ids.
Defined.

(** X5.  A run of [main] with [update=True] that returns its report has
    appended exactly one row to the log, after the rows that were there:
    the row carries the site's name, the run's timestamp, and as new,
    discount and sold counts the lengths of the three lists of the
    report (in the Yahoo adapter the [sold] column takes the length of
    the bid list). *)
Theorem committed_run_logs_once :
  (forall net page_count decode accepts watermark now kws db
          new discount sold flag,
      snd (Lashinbang.main net page_count decode accepts watermark now kws
             db true)
      = Return (new, discount, sold, flag) ->
      exists e p c,
        log (fst (Lashinbang.main net page_count decode accepts watermark
                    now kws db true))
        = log db
          ++ [mkLogRow "lashinbang" now e p c (len new) (len discount)
                (len sold)])
  /\ (forall net accepts watermark now kws db new discount sold flag,
      snd (Mercari.main net accepts watermark now kws db true)
      = Return (new, discount, sold, flag) ->
      exists e p c,
        log (fst (Mercari.main net accepts watermark now kws db true))
        = log db
          ++ [mkLogRow "mercari" now e p c (len new) (len discount)
                (len sold)])
  /\ (forall net parse accepts watermark now kws db new discount bid flag,
      snd (Yahoo.main net parse accepts watermark now kws db true)
      = Return (new, discount, bid, flag) ->
      exists e p c,
        log (fst (Yahoo.main net parse accepts watermark now kws db true))
        = log db
          ++ [mkLogRow "yahoo" now e p c (len new) (len discount)
                (len bid)]).
Proof.
  split; [ | split ]; intros.
  - eapply lashinbang_main_commits; eassumption.
  - eapply mercari_main_commits; eassumption.
  - eapply yahoo_main_commits; eassumption.
Qed.

Lemma committed_run_logs_once_witness :
  (exists e p c,
      log (fst (Lashinbang.main Sample.L.net_ok Sample.L.page_count
                  Sample.L.decode Sample.L.accepts_all Sample.L.watermark
                  (Sample.q 200) ["A"] Sample.L.db true))
      = log Sample.L.db
        ++ [mkLogRow "lashinbang" (Sample.q 200) e p c 0 1 1])
  /\ (exists e p c,
      log (fst (Mercari.main Sample.M.net_ok Sample.M.accepts_all
                  Sample.M.watermark (Sample.q 200) ["one"] Sample.M.db
                  true))
      = log Sample.M.db ++ [mkLogRow "mercari" (Sample.q 200) e p c 0 0 1])
  /\ (exists e p c,
      log (fst (Yahoo.main Sample.Y.net_ok Sample.Y.parse
                  Sample.Y.accepts_all Sample.Y.watermark (Sample.q 200100)
                  ["one"] Sample.Y.db true))
      = log Sample.Y.db
        ++ [mkLogRow "yahoo" (Sample.q 200100) e p c 0 1 1]).
Proof.
  destruct committed_run_logs_once as (HL & HM & HY).
  split; [ | split ].
  - apply (HL Sample.L.net_ok Sample.L.page_count Sample.L.decode
             Sample.L.accepts_all Sample.L.watermark (Sample.q 200) ["A"]
             Sample.L.db []
             [Lashinbang.mkDiscount 42 "A" "https://shop/42"
                "https://img/42" 1000 800]
             [Lashinbang.cols Sample.L.persisted_B] false).
    vm_compute. reflexivity.
  - apply (HM Sample.M.net_ok Sample.M.accepts_all Sample.M.watermark
             (Sample.q 200) ["one"] Sample.M.db [] []
             [Mercari.entry (Mercari.stage Sample.M.item_1)] false).
    vm_compute. reflexivity.
  - apply (HY Sample.Y.net_ok Sample.Y.parse Sample.Y.accepts_all
             Sample.Y.watermark (Sample.q 200100) ["one"] Sample.Y.db []
             [Yahoo.mkDiscount "y1" "one (renewed)" "https://page/y1"
                "https://img/y1" 100 1000 200 900 (Sample.q 500000) 1]
             [Yahoo.mkBid "y1" "one (renewed)" "https://page/y1"
                "https://img/y1" 200 900 (Sample.q 500000) 0 1] false).
    vm_compute. reflexivity.
Defined.

(** X6.  When [get_item] raises (the age check or a page count that
    cannot be read, an exception of the parsing that no handler catches,
    a staging batch the engine refuses), [main] ends with this exception
    in every adapter and for either value of [update]: [compare] and
    [update] are not reached, and neither the persistent table nor the
    log is written.  (A failure inside [update] itself is not part of
    the model and not covered.) *)
Theorem failed_get_item_ends_the_run :
  (forall net page_count decode accepts watermark now kws db upd e,
      snd (Lashinbang.get_item net page_count decode accepts
             (Lashinbang.new_manager watermark now kws db)) = Raise e ->
      let r := Lashinbang.main net page_count decode accepts watermark now
                 kws db upd in
      snd r = Raise e
      /\ Classutil.main (fst r) = Classutil.main db
      /\ log (fst r) = log db)
  /\ (forall net accepts watermark now kws db upd e,
      snd (Mercari.get_item net accepts
             (Mercari.new_manager watermark now kws db)) = Raise e ->
      let r := Mercari.main net accepts watermark now kws db upd in
      snd r = Raise e
      /\ Classutil.main (fst r) = Classutil.main db
      /\ log (fst r) = log db)
  /\ (forall net parse accepts watermark now kws db upd e,
      snd (Yahoo.get_item net parse accepts
             (Yahoo.new_manager watermark now kws db)) = Raise e ->
      let r := Yahoo.main net parse accepts watermark now kws db upd in
      snd r = Raise e
      /\ Classutil.main (fst r) = Classutil.main db
      /\ log (fst r) = log db).
Proof.
  split; [ | split ]; intros; cbv zeta.
  - eapply lashinbang_main_raises; eassumption.
  - eapply mercari_main_raises; eassumption.
  - eapply yahoo_main_raises; eassumption.
Qed.

Lemma failed_get_item_ends_the_run_witness :
  (let r := Lashinbang.main Sample.L.net_ok (fun _ => None) Sample.L.decode
              Sample.L.accepts_all Sample.L.watermark (Sample.q 200) ["A"]
              Sample.L.db true in
   snd r = Raise StopIteration
   /\ Classutil.main (fst r) = Classutil.main Sample.L.db
   /\ log (fst r) = log Sample.L.db)
  /\ (let r := Mercari.main Sample.M.net_ok Sample.M.accepts_none
                 Sample.M.watermark (Sample.q 200) ["one"] Sample.M.db true in
      snd r = Raise DatabaseError
      /\ Classutil.main (fst r) = Classutil.main Sample.M.db
      /\ log (fst r) = log Sample.M.db)
  /\ (let r := Yahoo.main Sample.Y.net_ok Sample.Y.parse
                 Sample.Y.accepts_none Sample.Y.watermark (Sample.q 200100)
                 ["one"] Sample.Y.db true in
      snd r = Raise DatabaseError
      /\ Classutil.main (fst r) = Classutil.main Sample.Y.db
      /\ log (fst r) = log Sample.Y.db).
Proof.
  destruct failed_get_item_ends_the_run as (HL & HM & HY).
  split; [ | split ].
  - apply (HL Sample.L.net_ok (fun _ => None) Sample.L.decode
             Sample.L.accepts_all Sample.L.watermark (Sample.q 200) ["A"]
             Sample.L.db true StopIteration).
    reflexivity.
  - apply (HM Sample.M.net_ok Sample.M.accepts_none Sample.M.watermark
             (Sample.q 200) ["one"] Sample.M.db true DatabaseError).
    reflexivity.
  - apply (HY Sample.Y.net_ok Sample.Y.parse Sample.Y.accepts_none
             Sample.Y.watermark (Sample.q 200100) ["one"] Sample.Y.db true
             DatabaseError).
    reflexivity.
Defined.

(** ** More on the diff *)

(** X7.  [compare] can be run again: called on the manager it returns, it
    returns the same manager and the same three lists, in every adapter
    (it writes only the three counts of [info], which it does not
    read). *)
Theorem compare_twice_is_compare_once :
  (forall m : Manager Lashinbang.Row,
      Lashinbang.compare (fst (Lashinbang.compare m)) = Lashinbang.compare m)
  /\ (forall m : Manager Mercari.Row,
      Mercari.compare (fst (Mercari.compare m)) = Mercari.compare m)
  /\ (forall m : Manager Yahoo.Row,
      Yahoo.compare (fst (Yahoo.compare m)) = Yahoo.compare m).
Proof.
  split; [ | split ]; intros m.
  - unfold Lashinbang.compare.
    destruct (Qeq_bool (info_last (info m)) 0) eqn:L; simpl.
    + rewrite L. reflexivity.
    + destruct (info_error (info m) =? 0) eqn:E; simpl; rewrite L, E;
        reflexivity.
  - unfold Mercari.compare.
    destruct (Qeq_bool (info_last (info m)) 0) eqn:L; simpl; rewrite L;
      reflexivity.
  - unfold Yahoo.compare.
    destruct (Qeq_bool (info_last (info m)) 0) eqn:L; simpl; rewrite L;
      reflexivity.
Qed.

(** X8.  In the Lashinbang adapter, with a nonzero watermark and no
    fetch error, the ids of the sold list are exactly the stored ids
    that are not staged and whose [update_time] is not before the
    watermark, and the sold count is the length of the list.  Whatever
    the error count, no id of the sold list is staged, so none is in the
    new or in the discount list. *)
Theorem lashinbang_sold_rule :
  forall m : Manager Lashinbang.Row,
    ~ (info_last (info m) == 0)%Q ->
    let r := Lashinbang.compare m in
    (info_error (info m) = 0 ->
     forall i,
       In i (map Lashinbang.item_id (snd (snd r)))
       <-> ~ In i (map Lashinbang.row_id (temp (view (con m))))
           /\ exists x u,
                In x (Classutil.main (view (con m)))
                /\ Lashinbang.row_id x = i
                /\ Lashinbang.update_time x = Some u
                /\ (info_last (info m) <= u)%Q)
    /\ info_sold (info (fst r)) = len (snd (snd r))
    /\ (forall i,
          In i (map Lashinbang.item_id (snd (snd r))) ->
          ~ In i (map Lashinbang.row_id (temp (view (con m))))
          /\ ~ In i (map Lashinbang.item_id (fst (fst (snd r))))
          /\ ~ In i (map Lashinbang.d_item_id (snd (fst (snd r))))).
Proof.
  intros m H r.
  assert (S : forall i,
             In i (map Lashinbang.item_id (snd (snd r))) ->
             ~ In i (map Lashinbang.row_id (temp (view (con m))))).
  { intros i Hi. subst r.
    destruct (LashinbangFacts.lashinbang_compare_later m H) as (R & _).
    rewrite R in Hi. simpl in Hi.
    destruct (info_error (info m) =? 0).
    - apply LashinbangFacts.lashinbang_select_sold_ids in Hi. tauto.
    - destruct Hi. }
  split; [ | split ].
  - intros E i. subst r.
    destruct (LashinbangFacts.lashinbang_compare_later m H) as (R & _).
    rewrite R. simpl. rewrite E. simpl.
    apply LashinbangFacts.lashinbang_select_sold_ids.
  - subst r. apply (lashinbang_compare_counts m).
  - intros i Hi. pose proof (S i Hi) as N. split; [ exact N | ].
    subst r.
    destruct (LashinbangFacts.lashinbang_compare_later m H) as (R & _).
    rewrite R. simpl. split.
    + intros Hn. apply LashinbangFacts.lashinbang_select_new_ids in Hn.
      tauto.
    + intros Hd. apply in_map_iff in Hd. destruct Hd as (d & Ed & Hd).
      apply LashinbangFacts.lashinbang_select_discount_spec in Hd.
      destruct Hd as (tr & lr & Ht & Hl & Eid & _ & D). subst d.
      simpl in Ed. apply N. rewrite <- Ed, <- Eid. apply in_map. exact Ht.
Qed.

Lemma lashinbang_sold_rule_witness :
  info_sold (info (fst (Lashinbang.compare (Sample.L.manager 100 0))))
  = len (snd (snd (Lashinbang.compare (Sample.L.manager 100 0)))).
Proof.
  apply (lashinbang_sold_rule (Sample.L.manager 100 0)).
  unfold Qeq. simpl. lia.
Defined.

(** X9.  An item can be reported twice.  With a nonzero watermark, a
    staged row whose id is stored with an [update_time] before the
    threshold and with a higher price is both in the new and in the
    discount list: in the Lashinbang adapter (threshold: the watermark),
    in the Yahoo adapter (threshold: the float difference of the watermark
    and 86400; a higher stored bid price or buy-now price, and no stored
    bid), and in the Mercari adapter for a row staged on sale whose id is
    stored as not on sale. *)
Theorem reappeared_and_cheaper_is_new_and_discount :
  (forall (m : Manager Lashinbang.Row) (tr lr : Lashinbang.Row) (u : Q),
      ~ (info_last (info m) == 0)%Q ->
      In tr (temp (view (con m))) ->
      In lr (Classutil.main (view (con m))) ->
      Lashinbang.row_id tr = Lashinbang.row_id lr ->
      Lashinbang.update_time lr = Some u ->
      (u < info_last (info m))%Q ->
      Lashinbang.price (Lashinbang.cols tr)
      < Lashinbang.price (Lashinbang.cols lr) ->
      let r := Lashinbang.compare m in
      In (Lashinbang.row_id tr)
         (map Lashinbang.item_id (fst (fst (snd r))))
      /\ In (Lashinbang.row_id tr)
            (map Lashinbang.d_item_id (snd (fst (snd r)))))
  /\ (forall (m : Manager Yahoo.Row) (tr lr : Yahoo.Row) (u : Q),
      ~ (info_last (info m) == 0)%Q ->
      In tr (temp (view (con m))) ->
      In lr (Classutil.main (view (con m))) ->
      Yahoo.row_id tr = Yahoo.row_id lr ->
      Yahoo.update_time lr = Some u ->
      (u < Binary64.sub (info_last (info m)) (inject_Z 86400))%Q ->
      Yahoo.bid_price (Yahoo.cols tr) < Yahoo.bid_price (Yahoo.cols lr)
      \/ Yahoo.full_price (Yahoo.cols tr) < Yahoo.full_price (Yahoo.cols lr) ->
      Yahoo.bid_num (Yahoo.cols lr) = 0 ->
      let r := Yahoo.compare m in
      In (Yahoo.row_id tr) (map Yahoo.e_item_id (fst (fst (snd r))))
      /\ In (Yahoo.row_id tr) (map Yahoo.d_item_id (snd (fst (snd r)))))
  /\ (forall (m : Manager Mercari.Row) (tr lr : Mercari.Row),
      ~ (info_last (info m) == 0)%Q ->
      In tr (temp (view (con m))) ->
      In lr (Classutil.main (view (con m))) ->
      Mercari.row_id tr = Mercari.row_id lr ->
      Mercari.onsale (Mercari.cols tr) = 1 ->
      Mercari.onsale (Mercari.cols lr) = 0 ->
      Mercari.price (Mercari.cols tr) < Mercari.price (Mercari.cols lr) ->
      let r := Mercari.compare m in
      In (Mercari.row_id tr) (map Mercari.e_item_id (fst (fst (snd r))))
      /\ In (Mercari.row_id tr) (map Mercari.d_item_id (snd (fst (snd r))))).
Proof.
  split; [ | split ].
  - intros m tr lr u H Ht Hl Eid Eu Hu P r. subst r.
    destruct (LashinbangFacts.lashinbang_compare_later m H) as (R & _).
    rewrite R. simpl. split.
    + apply LashinbangFacts.lashinbang_select_new_ids. split.
      * apply in_map. exact Ht.
      * right. exists lr, u. auto.
    + apply in_map_iff. eexists. split.
      2: { apply LashinbangFacts.lashinbang_select_discount_spec.
           exists tr, lr. repeat split; eauto. }
      simpl. auto.
  - intros m tr lr u H Ht Hl Eid Eu Hu P B r. subst r.
    destruct (YahooFacts.yahoo_compare_later m H) as (R & _).
    rewrite R. simpl. split.
    + apply YahooFacts.yahoo_select_new_ids. split.
      * apply in_map. exact Ht.
      * right. exists lr, u. auto.
    + apply in_map_iff. eexists. split.
      2: { apply YahooFacts.yahoo_select_discount_spec.
           exists tr, lr. repeat split; eauto. }
      reflexivity.
  - intros m tr lr H Ht Hl Eid St Sl P r. subst r.
    destruct (MercariFacts.mercari_compare_later m H) as (R & _).
    rewrite R. simpl. split.
    + apply MercariFacts.mercari_select_new_ids. exists tr.
      repeat split; auto. right. exists lr. auto.
    + apply in_map_iff. eexists. split.
      2: { apply MercariFacts.mercari_select_discount_spec.
           exists tr, lr. repeat split; eauto. }
      reflexivity.
Qed.

Lemma reappeared_and_cheaper_is_new_and_discount_witness :
  (In 42 (map Lashinbang.item_id
            (fst (fst (snd (Lashinbang.compare (Sample.L.manager 101 0))))))
   /\ In 42 (map Lashinbang.d_item_id
               (snd (fst (snd (Lashinbang.compare
                                 (Sample.L.manager 101 0)))))))
  /\ (In "y1" (map Yahoo.e_item_id
                 (fst (fst (snd (Yahoo.compare
                                   (Sample.Y.manager 300000 0))))))
      /\ In "y1" (map Yahoo.d_item_id
                    (snd (fst (snd (Yahoo.compare
                                      (Sample.Y.manager 300000 0)))))))
  /\ (let m :=
        mkManager ["two"] (Sample.info_of "mercari" 200 100 0)
          (connect
             (mkStore [Sample.M.staged_2]
                [Mercari.mkRow
                   (Mercari.mkItem "m2" "s2" "two"
                      "https://jp.mercari.com/item/m2" "https://img/m2" 900 0)
                   (Some (Sample.q 50)) (Some (Sample.q 50))] []))
          new_crawler in
      In "m2" (map Mercari.e_item_id (fst (fst (snd (Mercari.compare m)))))
      /\ In "m2" (map Mercari.d_item_id
                    (snd (fst (snd (Mercari.compare m)))))).
Proof.
  destruct reappeared_and_cheaper_is_new_and_discount as (HL & HY & HM).
  split; [ | split ].
  - apply (HL (Sample.L.manager 101 0) Sample.L.staged_A
              Sample.L.persisted_A (Sample.q 100)).
    + unfold Qeq. simpl. lia.
    + simpl. left. reflexivity.
    + simpl. left. reflexivity.
    + reflexivity.
    + reflexivity.
    + unfold Qlt. simpl. lia.
    + simpl. lia.
  - apply (HY (Sample.Y.manager 300000 0) Sample.Y.staged_1
              Sample.Y.persisted_1 (Sample.q 156800)).
    + unfold Qeq. simpl. lia.
    + simpl. left. reflexivity.
    + simpl. left. reflexivity.
    + reflexivity.
    + reflexivity.
    + vm_compute. reflexivity.
    + right. simpl. lia.
    + reflexivity.
  - cbv zeta.
    apply (HM (mkManager ["two"] (Sample.info_of "mercari" 200 100 0)
                 (connect
                    (mkStore [Sample.M.staged_2]
                       [Mercari.mkRow
                          (Mercari.mkItem "m2" "s2" "two"
                             "https://jp.mercari.com/item/m2"
                             "https://img/m2" 900 0)
                          (Some (Sample.q 50)) (Some (Sample.q 50))] []))
                 new_crawler)
              Sample.M.staged_2
              (Mercari.mkRow
                 (Mercari.mkItem "m2" "s2" "two"
                    "https://jp.mercari.com/item/m2" "https://img/m2" 900 0)
                 (Some (Sample.q 50)) (Some (Sample.q 50)))).
    + unfold Qeq. simpl. lia.
    + simpl. left. reflexivity.
    + simpl. left. reflexivity.
    + reflexivity.
    + reflexivity.
    + reflexivity.
    + simpl. lia.
Defined.

(** X10.  In the Mercari adapter, with a nonzero watermark and staging
    with unique ids, no id of the sold list is in the new list or in the
    discount list: sold rows are staged with [onsale = 0], new and
    discount rows with [onsale = 1]. *)
Theorem mercari_sold_is_apart :
  forall (m : Manager Mercari.Row) (i : string),
    ~ (info_last (info m) == 0)%Q ->
    NoDup (map Mercari.row_id (temp (view (con m)))) ->
    let r := Mercari.compare m in
    In i (map Mercari.e_item_id (snd (snd r))) ->
    ~ In i (map Mercari.e_item_id (fst (fst (snd r))))
    /\ ~ In i (map Mercari.d_item_id (snd (fst (snd r)))).
Proof.
  intros m i H Nt r Hs. subst r.
  destruct (MercariFacts.mercari_compare_later m H) as (R & _).
  rewrite R in *. simpl in *.
  apply MercariFacts.mercari_select_sold_ids in Hs.
  destruct Hs as (s & Hs & Es & Os & _). split.
  - intros Hn. apply MercariFacts.mercari_select_new_ids in Hn.
    destruct Hn as (n & Hn & En & On & _).
    assert (n = s).
    { apply (unique_key_row Mercari.row_id _ _ _ Nt Hn Hs). congruence. }
    subst n. lia.
  - intros Hd. apply in_map_iff in Hd. destruct Hd as (d & Ed & Hd).
    apply MercariFacts.mercari_select_discount_spec in Hd.
    destruct Hd as (tr & lr & Ht & Hl & Eid & _ & Ot & D). subst d.
    simpl in Ed.
    assert (tr = s).
    { apply (unique_key_row Mercari.row_id _ _ _ Nt Ht Hs). congruence. }
    subst tr. lia.
Qed.

Lemma mercari_sold_is_apart_witness :
  ~ In "m1" (map Mercari.e_item_id
               (fst (fst (snd (Mercari.compare (Sample.M.manager 100 0))))))
  /\ ~ In "m1" (map Mercari.d_item_id
                  (snd (fst (snd (Mercari.compare
                                    (Sample.M.manager 100 0)))))).
Proof.
  apply (mercari_sold_is_apart (Sample.M.manager 100 0) "m1").
  - unfold Qeq. simpl. lia.
  - distinct_ids.
  - vm_compute. left. reflexivity.
Defined.

(** X11.  In the Yahoo adapter, with a nonzero watermark, every row of
    the bid list comes from a staged and a stored row with the same id
    and reports a strictly higher bid count: the stored count as
    [old_num], the staged one as [new_num]; and every such pair of rows
    gives a row of the list, so the bid count of [info] counts them. *)
Theorem yahoo_bid_rule :
  forall m : Manager Yahoo.Row,
    ~ (info_last (info m) == 0)%Q ->
    let r := Yahoo.compare m in
    (forall b,
        In b (snd (snd r)) ->
        exists tr lr,
          In tr (temp (view (con m)))
          /\ In lr (Classutil.main (view (con m)))
          /\ Yahoo.row_id tr = Yahoo.b_item_id b
          /\ Yahoo.row_id lr = Yahoo.b_item_id b
          /\ Yahoo.b_old_num b = Yahoo.bid_num (Yahoo.cols lr)
          /\ Yahoo.b_new_num b = Yahoo.bid_num (Yahoo.cols tr)
          /\ Yahoo.b_old_num b < Yahoo.b_new_num b)
    /\ (forall tr lr,
          In tr (temp (view (con m))) ->
          In lr (Classutil.main (view (con m))) ->
          Yahoo.row_id tr = Yahoo.row_id lr ->
          Yahoo.bid_num (Yahoo.cols lr) < Yahoo.bid_num (Yahoo.cols tr) ->
          In (Yahoo.row_id tr) (map Yahoo.b_item_id (snd (snd r))))
    /\ info_bid (info (fst r)) = len (snd (snd r)).
Proof.
  intros m H r. subst r.
  destruct (YahooFacts.yahoo_compare_later m H) as (R & _ & _ & B & _).
  rewrite R, B. simpl. split; [ | split ].
  - intros b Hb. apply YahooFacts.yahoo_select_bid_spec in Hb.
    destruct Hb as (tr & lr & Ht & Hl & Eid & P & E). subst b.
    exists tr, lr. simpl. auto 10.
  - intros tr lr Ht Hl Eid P. apply in_map_iff. eexists. split.
    2: { apply YahooFacts.yahoo_select_bid_spec. exists tr, lr.
         repeat split; eauto. }
    reflexivity.
  - reflexivity.
Qed.

Lemma yahoo_bid_rule_witness :
  info_bid (info (fst (Yahoo.compare (Sample.Y.manager 200000 0))))
  = len (snd (snd (Yahoo.compare (Sample.Y.manager 200000 0)))).
Proof.
  apply (yahoo_bid_rule (Sample.Y.manager 200000 0)).
  unfold Qeq. simpl. lia.
Defined.

(** ** The fetch orchestrator *)

Module DictFacts.
Import Py.

Section Dict.
Context {K V : Type} (eqb : K -> K -> bool).
Hypothesis eqb_spec : forall a b, eqb a b = true <-> a = b.

Lemma eqb_same (a : K) : eqb a a = true.
Proof. apply eqb_spec. reflexivity. Qed.

Lemma eqb_other (a b : K) : a <> b -> eqb a b = false.
Proof.
  intros N. destruct (eqb a b) eqn:E; [ | reflexivity ].
  apply eqb_spec in E. contradiction.
Qed.

Lemma dict_get_set_same (k : K) (v : V) (d : list (K * V)) :
  dict_get eqb k (dict_set eqb k v d) = Some v.
Proof.
  induction d as [ | (k', v') d IH ]; simpl.
  - rewrite eqb_same. reflexivity.
  - destruct (eqb k k') eqn:E; simpl.
    + rewrite eqb_same. reflexivity.
    + rewrite E. exact IH.
Qed.

Lemma dict_get_set_other (k k' : K) (v : V) (d : list (K * V)) :
  k' <> k -> dict_get eqb k' (dict_set eqb k v d) = dict_get eqb k' d.
Proof.
  intros N. induction d as [ | (k0, v0) d IH ]; simpl.
  - rewrite (eqb_other _ _ N). reflexivity.
  - destruct (eqb k k0) eqn:E; simpl.
    + apply eqb_spec in E. subst k0.
      rewrite (eqb_other _ _ N). reflexivity.
    + destruct (eqb k' k0); [ reflexivity | exact IH ].
Qed.

Lemma dict_get_none (k : K) (d : list (K * V)) :
  dict_get eqb k d = None <-> ~ In k (map fst d).
Proof.
  induction d as [ | (k', v') d IH ]; simpl.
  - tauto.
  - destruct (eqb k k') eqn:E.
    + apply eqb_spec in E. split; [ discriminate | ]. intros N.
      exfalso. apply N. left. auto.
    + rewrite IH. split.
      * intros N [ H | H ]; [ | contradiction ].
        subst k'. rewrite eqb_same in E. discriminate.
      * tauto.
Qed.

Lemma dict_get_in (k : K) (v : V) (d : list (K * V)) :
  dict_get eqb k d = Some v -> In (k, v) d.
Proof.
  induction d as [ | (k', v') d IH ]; simpl.
  - discriminate.
  - destruct (eqb k k') eqn:E.
    + apply eqb_spec in E. intros H. inversion H. subst. left. reflexivity.
    + intros H. right. apply IH. exact H.
Qed.

Lemma in_dict_get (k : K) (v : V) (d : list (K * V)) :
  NoDup (map fst d) -> In (k, v) d -> dict_get eqb k d = Some v.
Proof.
  induction d as [ | (k', v') d IH ]; simpl; intros N H.
  - contradiction.
  - inversion N as [ | x xs Nx Nd ]. subst.
    destruct H as [ H | H ].
    + inversion H. subst. rewrite eqb_same. reflexivity.
    + destruct (eqb k k') eqn:E.
      * apply eqb_spec in E. subst k'. exfalso. apply Nx.
        apply in_map_iff. exists (k, v). auto.
      * apply IH; assumption.
Qed.

(** Assigning to a key writes one pair and leaves the others. *)
Lemma dict_set_in (k k' : K) (v v' : V) (d : list (K * V)) :
  In (k', v') (dict_set eqb k v d) -> (k' = k /\ v' = v) \/ In (k', v') d.
Proof.
  induction d as [ | (k0, v0) d IH ]; simpl.
  - intros [ H | [] ]. inversion H. auto.
  - destruct (eqb k k0) eqn:E; simpl.
    + intros [ H | H ]; [ inversion H; auto | auto ].
    + intros [ H | H ]; [ auto | ]. destruct (IH H); auto.
Qed.

Lemma dict_set_keys (k k' : K) (v : V) (d : list (K * V)) :
  In k' (map fst (dict_set eqb k v d)) <-> k' = k \/ In k' (map fst d).
Proof.
  induction d as [ | (k0, v0) d IH ]; simpl.
  - intuition.
  - destruct (eqb k k0) eqn:E; simpl.
    + apply eqb_spec in E. subst k0. intuition.
    + rewrite IH. intuition.
Qed.

Lemma dict_set_present (k : K) (v : V) (d : list (K * V)) :
  In k (map fst d) -> map fst (dict_set eqb k v d) = map fst d.
Proof.
  induction d as [ | (k0, v0) d IH ]; simpl.
  - contradiction.
  - destruct (eqb k k0) eqn:E; simpl.
    + apply eqb_spec in E. subst k0. reflexivity.
    + intros [ H | H ].
      * subst k0. rewrite eqb_same in E. discriminate.
      * rewrite (IH H). reflexivity.
Qed.

Lemma dict_set_absent (k : K) (v : V) (d : list (K * V)) :
  ~ In k (map fst d) -> dict_set eqb k v d = d ++ [(k, v)].
Proof.
  induction d as [ | (k0, v0) d IH ]; simpl; intros N.
  - reflexivity.
  - destruct (eqb k k0) eqn:E.
    + apply eqb_spec in E. exfalso. apply N. left. auto.
    + rewrite IH; [ reflexivity | ]. intros H. apply N. right. exact H.
Qed.

Lemma dict_set_nodup (k : K) (v : V) (d : list (K * V)) :
  NoDup (map fst d) -> NoDup (map fst (dict_set eqb k v d)).
Proof.
  intros N. destruct (dict_get eqb k d) eqn:G.
  - rewrite dict_set_present; [ exact N | ].
    apply dict_get_in in G. apply in_map_iff. exists (k, v0). auto.
  - apply dict_get_none in G. rewrite (dict_set_absent _ _ _ G).
    rewrite map_app. apply NoDup_app.
    + exact N.
    + constructor; [ intros [] | constructor ].
    + intros a Ha [ Hb | [] ]. simpl in Hb. subst a. contradiction.
Qed.
End Dict.

End DictFacts.

Lemma range_spec (n i : Z) : In i (Py.range n) <-> 0 <= i < n.
Proof.
  unfold Py.range. rewrite in_map_iff. split.
  - intros (k & E & H). apply in_seq in H. lia.
  - intros H. exists (Z.to_nat i). split; [ lia | ].
    apply in_seq. lia.
Qed.

Section YahooFetch.
Variable net : nat -> Request -> Response string.




End YahooFetch.

Section MercariFetch.
Variable net : nat -> Request -> Response Mercari.Payload.




End MercariFetch.

Section LashinbangFetch.
Variable net : nat -> Request -> Response string.
Variable page_count : string -> option Z.

Lemma lashinbang_submit_all_jobs (c : Crawler) (jobs : list (string * Z)) :
  map fst (snd (Lashinbang.submit_all net c jobs)) = jobs.
Proof.
  revert c. induction jobs as [ | (kw, p) jobs IH ]; intros c; simpl.
  - reflexivity.
  - destruct (Lashinbang.get_one net c kw p) as (c1, r).
    specialize (IH c1).
    destruct (Lashinbang.submit_all net c1 jobs) as (c2, rs). simpl in *.
    rewrite IH. reflexivity.
Qed.

(** A future holds the [ValueError] of [get_one] only for a page above
    the limit. *)
Lemma lashinbang_submit_all_guard (c : Crawler) (jobs : list (string * Z))
    (j : string * Z) (r : result string) (msg : string) :
  In (j, r) (snd (Lashinbang.submit_all net c jobs)) ->
  r = Raise (ValueError msg) ->
  In j jobs /\ Lashinbang.MAX_PAGE_LIMIT < snd j.
Proof.
  revert c. induction jobs as [ | (kw, p) jobs IH ]; intros c; simpl.
  - intros [].
  - destruct (Lashinbang.get_one net c kw p) as (c1, r0) eqn:G.
    specialize (IH c1).
    destruct (Lashinbang.submit_all net c1 jobs) as (c2, rs). simpl in *.
    intros [ E | H ] V.
    + injection E as Ej Er. subst j r0 r. split; [ left; reflexivity | ].
      unfold Lashinbang.get_one in G. simpl.
      destruct (Lashinbang.MAX_PAGE_LIMIT <? p) eqn:B.
      * apply Z.ltb_lt. exact B.
      * destruct (net (List.length (sent c)) (Search kw p));
          inversion G.
    + destruct (IH H V) as (Hj & B). auto.
Qed.

Lemma lashinbang_first_pass_inv
    (done : list ((string * Z) * result string))
    (res res' : list (string * Lashinbang.Pages)) :
  Lashinbang.first_pass page_count done res = Return res' ->
  NoDup (map fst res) ->
  (forall kw pg, In (kw, pg) res ->
     Lashinbang.pages pg <= 12
     /\ dict_get Z.eqb 1 (Lashinbang.texts pg) <> None) ->
  NoDup (map fst res')
  /\ (forall kw pg, In (kw, pg) res' ->
        Lashinbang.pages pg <= 12
        /\ dict_get Z.eqb 1 (Lashinbang.texts pg) <> None)
  /\ (forall kw,
        In kw (map fst res')
        <-> In kw (map fst res) \/ In kw (map (fun d => fst (fst d)) done)).
Proof.
  revert res. induction done as [ | ((kw0, p0), r0) done IH ];
    intros res F N P; simpl in F.
  - inversion F. subst res'. split; [ exact N | ]. split; [ exact P | ].
    simpl. tauto.
  - assert (Step : forall pg0,
               Lashinbang.pages pg0 <= 12 ->
               dict_get Z.eqb 1 (Lashinbang.texts pg0) <> None ->
               Lashinbang.first_pass page_count done
                 (dict_set String.eqb kw0 pg0 res) = Return res' ->
               NoDup (map fst res')
               /\ (forall kw pg, In (kw, pg) res' ->
                     Lashinbang.pages pg <= 12
                     /\ dict_get Z.eqb 1 (Lashinbang.texts pg) <> None)
               /\ (forall kw,
                     In kw (map fst res')
                     <-> In kw (map fst res)
                         \/ In kw (map (fun d => fst (fst d))
                                     (((kw0, p0), r0) :: done)))).
    { intros pg0 B1 B2 F1.
      destruct (IH _ F1) as (N1 & P1 & K1).
      - apply DictFacts.dict_set_nodup; [ apply String.eqb_eq | exact N ].
      - intros kw pg Hin. apply DictFacts.dict_set_in in Hin.
        destruct Hin as [ (_ & E) | Hin ].
        + subst pg. auto.
        + apply (P kw pg Hin).
      - split; [ exact N1 | ]. split; [ exact P1 | ].
        intros kw. rewrite K1.
        rewrite (DictFacts.dict_set_keys String.eqb String.eqb_eq).
        simpl. intuition. }
    destruct r0 as [ text | e ].
    + destruct (page_count text) as [ n | ]; [ | discriminate ].
      apply (Step (Lashinbang.mkPages (Z.min n Lashinbang.MAX_PAGE_LIMIT)
                     [(1, Some text)])); [ | | exact F ].
      * simpl. apply Z.le_min_r.
      * simpl. discriminate.
    + apply (Step (Lashinbang.mkPages 1 [(1, None)])); [ | | exact F ].
      * simpl. lia.
      * simpl. discriminate.
Qed.

End LashinbangFetch.

Lemma lashinbang_second_jobs_spec (kws : list string)
    (res : list (string * Lashinbang.Pages)) (kw : string) (p : Z) :
  In (kw, p) (Lashinbang.second_jobs kws res)
  <-> In kw kws
      /\ exists pg, dict_get String.eqb kw res = Some pg
           /\ 2 <= p <= Lashinbang.pages pg.
Proof.
  unfold Lashinbang.second_jobs. rewrite in_flat_map. split.
  - intros (k & Hk & H). destruct (dict_get String.eqb k res) as [ pg | ] eqn:G.
    + apply in_map_iff in H. destruct H as (i & E & Hi).
      inversion E. subst. apply range_spec in Hi.
      split; [ exact Hk | ]. exists pg. split; [ exact G | lia ].
    + destruct H.
  - intros (Hk & pg & G & B). exists kw. split; [ exact Hk | ].
    rewrite G. apply in_map_iff. exists (p - 2). split.
    + f_equal. lia.
    + apply range_spec. lia.
Qed.

Lemma lashinbang_second_pass_inv
    (done : list ((string * Z) * result string))
    (res : list (string * Lashinbang.Pages)) :
  NoDup (map fst res) ->
  NoDup (map fst (Lashinbang.second_pass done res))
  /\ (forall kw,
        In kw (map fst (Lashinbang.second_pass done res))
        <-> In kw (map fst res))
  /\ forall kw pg',
       In (kw, pg') (Lashinbang.second_pass done res) ->
       exists pg,
         In (kw, pg) res
         /\ Lashinbang.pages pg' = Lashinbang.pages pg
         /\ (forall p,
               dict_get Z.eqb p (Lashinbang.texts pg) <> None ->
               dict_get Z.eqb p (Lashinbang.texts pg') <> None)
         /\ (forall p r,
               In ((kw, p), r) done ->
               dict_get Z.eqb p (Lashinbang.texts pg') <> None).
Proof.
  revert res. induction done as [ | ((kw0, p0), r0) done IH ];
    intros res N; simpl.
  - split; [ exact N | ]. split; [ tauto | ].
    intros kw pg' H. exists pg'. repeat split; auto.
  - set (text := match r0 with Return t => Some t | Raise _ => None end).
    destruct (dict_get String.eqb kw0 res) as [ pg0 | ] eqn:G.
    + set (pg1 := Lashinbang.mkPages (Lashinbang.pages pg0)
                    (dict_set Z.eqb p0 text (Lashinbang.texts pg0))).
      assert (N1 : NoDup (map fst (dict_set String.eqb kw0 pg1 res))).
      { apply DictFacts.dict_set_nodup; [ apply String.eqb_eq | exact N ]. }
      destruct (IH _ N1) as (N2 & K2 & R2).
      split; [ exact N2 | ]. split.
      * intros kw. rewrite K2.
        rewrite (DictFacts.dict_set_keys String.eqb String.eqb_eq).
        split; [ | tauto ]. intros [ E | H ]; [ | exact H ].
        subst kw. apply DictFacts.dict_get_in in G; [ | apply String.eqb_eq ].
        apply in_map_iff. exists (kw0, pg0). auto.
      * intros kw pg' H. destruct (R2 kw pg' H) as (pg & Hin & Ep & Mono & Jobs).
        apply DictFacts.dict_set_in in Hin.
        destruct Hin as [ (Ek & Eg) | Hin ].
        -- subst kw pg. exists pg0. split.
           ++ apply DictFacts.dict_get_in in G; [ exact G | apply String.eqb_eq ].
           ++ split; [ exact Ep | ]. split.
              ** intros p D. apply Mono. unfold pg1. simpl.
                 destruct (Z.eq_dec p p0) as [ E | E ].
                 --- subst p.
                     rewrite (DictFacts.dict_get_set_same Z.eqb Z.eqb_eq).
                     discriminate.
                 --- rewrite (DictFacts.dict_get_set_other Z.eqb Z.eqb_eq);
                       assumption.
              ** intros p r [ E | Hj ].
                 --- injection E as E2 E3. subst p r.
                     apply Mono. unfold pg1. simpl.
                     rewrite (DictFacts.dict_get_set_same Z.eqb Z.eqb_eq).
                     discriminate.
                 --- apply (Jobs p r Hj).
        -- exists pg. split; [ exact Hin | ]. split; [ exact Ep | ].
           split; [ exact Mono | ].
           intros p r [ E | Hj ]; [ | apply (Jobs p r Hj) ].
           injection E as E1 E2 E3. subst kw p r.
           assert (pg = pg0).
           { apply (DictFacts.in_dict_get String.eqb String.eqb_eq) in Hin;
               [ congruence | exact N ]. }
           subst pg.
           (* the pair for [kw0] was replaced, so [(kw0, pg0)] and
              [(kw0, pg1)] are both in a table with unique keys *)
           assert (H1 : In (kw0, pg1) (dict_set String.eqb kw0 pg1 res)).
           { apply DictFacts.dict_get_in with (eqb := String.eqb);
               [ apply String.eqb_eq | ].
             apply DictFacts.dict_get_set_same. apply String.eqb_eq. }
           destruct (R2 kw0 pg' H) as (pg2 & Hin2 & _ & Mono2 & _).
           assert (pg2 = pg1).
           { apply (DictFacts.in_dict_get String.eqb String.eqb_eq) in Hin2;
               [ | exact N1 ].
             rewrite (DictFacts.dict_get_set_same String.eqb String.eqb_eq)
               in Hin2. congruence. }
           subst pg2. apply Mono2. unfold pg1. simpl.
           rewrite (DictFacts.dict_get_set_same Z.eqb Z.eqb_eq).
           discriminate.
    + destruct (IH _ N) as (N2 & K2 & R2).
      split; [ exact N2 | ]. split; [ exact K2 | ].
      intros kw pg' H. destruct (R2 kw pg' H) as (pg & Hin & Ep & Mono & Jobs).
      exists pg. split; [ exact Hin | ]. split; [ exact Ep | ].
      split; [ exact Mono | ].
      intros p r [ E | Hj ]; [ | apply (Jobs p r Hj) ].
      injection E as E1 E2 E3. subst kw p r. exfalso.
      apply (DictFacts.dict_get_none String.eqb String.eqb_eq) in G.
      apply G. apply in_map_iff. exists (kw0, pg). auto.
Qed.

Lemma lashinbang_get_many_first_jobs (kws : list string) :
  map fst (map (fun kw : string => (kw, 1)) kws) = kws.
Proof. rewrite map_map. simpl. apply map_id. Qed.

(** X12.  When [LashinbangCrawler.get_many] returns, its dict has one
    entry per distinct keyword; every entry has at most [MAX_PAGE_LIMIT]
    pages, and every page number from 1 to its page count is a key of the
    entry (with the text, or [None] for a failed request): the lookups
    [raw[kw][p + 1]] of [get_item] never miss a key. *)
Theorem lashinbang_get_many_pages_are_complete
    (net : nat -> Request -> Response string)
    (page_count : string -> option Z) (c c' : Crawler) (kws : list string)
    (raw : list (string * Lashinbang.Pages)) :
  Lashinbang.get_many net page_count c kws = (c', Return raw) ->
  NoDup (map fst raw)
  /\ (forall kw, In kw (map fst raw) <-> In kw kws)
  /\ (forall kw pg,
        In (kw, pg) raw ->
        Lashinbang.pages pg <= Lashinbang.MAX_PAGE_LIMIT
        /\ forall p,
             1 <= p <= Lashinbang.pages pg ->
             dict_get Z.eqb p (Lashinbang.texts pg) <> None)
  /\ (forall cell, In cell (Lashinbang.page_texts raw) -> cell <> None).
Proof.
  unfold Lashinbang.get_many. intros H.
  destruct (Lashinbang.pass_age_check net c) as (c0, [ u | e ]);
    [ | discriminate ].
  pose proof (lashinbang_submit_all_jobs net c0
                (map (fun kw : string => (kw, 1)) kws)) as J1.
  destruct (Lashinbang.submit_all net c0
              (map (fun kw : string => (kw, 1)) kws)) as (c1, done1).
  simpl in J1.
  destruct (Lashinbang.first_pass page_count done1 []) as [ res | e ] eqn:F;
    [ | discriminate ].
  pose proof (lashinbang_submit_all_jobs net c1
                (Lashinbang.second_jobs kws res)) as J2.
  destruct (Lashinbang.submit_all net c1 (Lashinbang.second_jobs kws res))
    as (c2, done2).
  simpl in J2. inversion H. subst c' raw. clear H.
  destruct (lashinbang_first_pass_inv page_count done1 [] res F
              (NoDup_nil _)) as (N1 & P1 & K1).
  { intros kw pg []. }
  assert (K : forall kw, In kw (map fst res) <-> In kw kws).
  { intros kw. rewrite K1. simpl.
    replace (map (fun d : string * Z * result string => fst (fst d)) done1)
      with (map fst (map fst done1)) by (rewrite map_map; reflexivity).
    rewrite J1, lashinbang_get_many_first_jobs. tauto. }
  destruct (lashinbang_second_pass_inv done2 res N1) as (N2 & K2 & R2).
  assert (Pg : forall kw pg,
             In (kw, pg) (Lashinbang.second_pass done2 res) ->
             Lashinbang.pages pg <= Lashinbang.MAX_PAGE_LIMIT
             /\ forall p,
                  1 <= p <= Lashinbang.pages pg ->
                  dict_get Z.eqb p (Lashinbang.texts pg) <> None).
  { intros kw pg' Hin.
    destruct (R2 kw pg' Hin) as (pg & Hpg & Ep & Mono & Jobs).
    destruct (P1 kw pg Hpg) as (B & One). rewrite Ep.
    split; [ exact B | ]. intros p Hp.
    destruct (Z.eq_dec p 1) as [ E | E ].
    - subst p. apply Mono. exact One.
    - assert (Hj : In (kw, p) (Lashinbang.second_jobs kws res)).
      { apply lashinbang_second_jobs_spec. split.
        - apply K. apply in_map_iff. exists (kw, pg). auto.
        - exists pg. split; [ | lia ].
          apply (DictFacts.in_dict_get String.eqb String.eqb_eq);
            assumption. }
      rewrite <- J2 in Hj. apply in_map_iff in Hj.
      destruct Hj as ((j, r) & Ej & Hj). simpl in Ej. subst j.
      apply (Jobs p r Hj). }
  split; [ exact N2 | ]. split.
  - intros kw. rewrite K2. apply K.
  - split; [ exact Pg | ].
    intros cell Hc. unfold Lashinbang.page_texts in Hc.
    apply in_flat_map in Hc. destruct Hc as ((kw, pg) & He & Hc).
    apply in_map_iff in Hc. destruct Hc as (p & Ep & Hp). simpl in *.
    apply range_spec in Hp. subst cell.
    apply (Pg kw pg He). lia.
Qed.

Lemma lashinbang_get_many_pages_are_complete_witness :
  NoDup (map fst
           [("A", Lashinbang.mkPages 1
                    [(1, Some (Py.slice_9_m2 "callback({...})"))])]).
Proof.
  eapply (lashinbang_get_many_pages_are_complete Sample.L.net_ok
            Sample.L.page_count new_crawler _ ["A"]).
  reflexivity.
Defined.

(** X13.  [LashinbangCrawler.get_many] asks for nothing out of range.
    The page count of a keyword is cut to [MAX_PAGE_LIMIT] before the
    second round is submitted, so every call of [get_one] that [get_many]
    submits, in the first or in the second round, is for a keyword of
    the list at a page from 1 to [MAX_PAGE_LIMIT]: no future of either
    round holds the [ValueError] of [get_one]. *)
Theorem lashinbang_get_many_never_hits_the_page_guard
    (net : nat -> Request -> Response string)
    (page_count : string -> option Z) (c c0 c1 : Crawler)
    (kws : list string) (done1 : list ((string * Z) * result string))
    (res : list (string * Lashinbang.Pages)) :
  Lashinbang.pass_age_check net c = (c0, Return tt) ->
  Lashinbang.submit_all net c0 (map (fun kw : string => (kw, 1)) kws)
  = (c1, done1) ->
  Lashinbang.first_pass page_count done1 [] = Return res ->
  let jobs2 := Lashinbang.second_jobs kws res in
  let round2 := Lashinbang.submit_all net c1 jobs2 in
  Lashinbang.get_many net page_count c kws
  = (fst round2, Return (Lashinbang.second_pass (snd round2) res))
  /\ (forall kw p,
        In (kw, p) jobs2 ->
        In kw kws /\ 2 <= p <= Lashinbang.MAX_PAGE_LIMIT)
  /\ (forall j r msg,
        In (j, r) (done1 ++ snd round2) -> r <> Raise (ValueError msg)).
Proof.
  intros A S1 F jobs2 round2.
  destruct (lashinbang_first_pass_inv page_count done1 [] res F
              (NoDup_nil _)) as (N1 & P1 & _).
  { intros kw pg []. }
  assert (J2 : forall kw p,
             In (kw, p) jobs2 ->
             In kw kws /\ 2 <= p <= Lashinbang.MAX_PAGE_LIMIT).
  { intros kw p H. apply lashinbang_second_jobs_spec in H.
    destruct H as (Hk & pg & G & B). split; [ exact Hk | ].
    apply DictFacts.dict_get_in in G; [ | apply String.eqb_eq ].
    destruct (P1 kw pg G) as (L & _).
    unfold Lashinbang.MAX_PAGE_LIMIT. lia. }
  split; [ | split; [ exact J2 | ] ].
  - unfold Lashinbang.get_many. rewrite A, S1, F.
    subst round2 jobs2.
    destruct (Lashinbang.submit_all net c1 (Lashinbang.second_jobs kws res));
      reflexivity.
  - intros j r msg H V. apply in_app_or in H. destruct H as [ H | H ].
    + assert (H' : In (j, r)
                     (snd (Lashinbang.submit_all net c0
                             (map (fun kw : string => (kw, 1)) kws)))).
      { rewrite S1. exact H. }
      destruct (lashinbang_submit_all_guard net c0 _ j r msg H' V)
        as (Hj & B).
      apply in_map_iff in Hj. destruct Hj as (kw & E & _). subst j.
      simpl in B. unfold Lashinbang.MAX_PAGE_LIMIT in B. lia.
    + destruct (lashinbang_submit_all_guard net c1 _ j r msg H V)
        as (Hj & B).
      destruct j as (kw, p). destruct (J2 kw p Hj) as (_ & L).
      simpl in B. lia.
Qed.

Lemma lashinbang_get_many_never_hits_the_page_guard_witness :
  In "A" ["A"] /\ 2 <= 12 <= Lashinbang.MAX_PAGE_LIMIT.
Proof.
  destruct (lashinbang_get_many_never_hits_the_page_guard
              Sample.L.net_ok (fun _ => Some 40) new_crawler
              (fst (Lashinbang.pass_age_check Sample.L.net_ok new_crawler))
              (fst (Lashinbang.submit_all Sample.L.net_ok
                      (fst (Lashinbang.pass_age_check Sample.L.net_ok
                              new_crawler))
                      [("A", 1)]))
              ["A"]
              (snd (Lashinbang.submit_all Sample.L.net_ok
                      (fst (Lashinbang.pass_age_check Sample.L.net_ok
                              new_crawler))
                      [("A", 1)]))
              [("A", Lashinbang.mkPages 12
                       [(1, Some (Py.slice_9_m2 "callback({...})"))])]
              eq_refl eq_refl eq_refl) as (_ & J & _).
  apply (J "A" 12). vm_compute. do 10 right. left. reflexivity.
Defined.



(** ** Text helpers *)

Lemma string_length_append (a b : string) :
  String.length (a ++ b)%string = (String.length a + String.length b)%nat.
Proof.
  induction a as [ | ch a IH ]; simpl.
  - reflexivity.
  - rewrite IH. reflexivity.
Qed.

Lemma substring_none (n : nat) (s : string) : substring n 0 s = EmptyString.
Proof.
  revert n. induction s as [ | ch s IH ]; intros n.
  - destruct n; reflexivity.
  - destruct n; simpl; [ reflexivity | apply IH ].
Qed.

Lemma substring_skip (a s : string) (m : nat) :
  substring (String.length a) m (a ++ s)%string = substring 0 m s.
Proof.
  induction a as [ | ch a IH ]; simpl.
  - reflexivity.
  - exact IH.
Qed.

Lemma substring_take (b t : string) :
  substring 0 (String.length b) (b ++ t)%string = b.
Proof.
  induction b as [ | ch b IH ]; simpl.
  - destruct t; reflexivity.
  - rewrite IH. reflexivity.
Qed.

(** X16.  The slice [r.text[9:-2]] of [LashinbangCrawler.get_one]
    unwraps a JSONP answer: a text made of nine characters, a body and
    two characters gives the body; a text of at most eleven characters
    gives the empty text. *)
Theorem slice_unwraps_the_callback :
  (forall head body tail : string,
      String.length head = 9%nat ->
      String.length tail = 2%nat ->
      Py.slice_9_m2 (head ++ body ++ tail)%string = body)
  /\ (forall s : string,
        (String.length s <= 11)%nat -> Py.slice_9_m2 s = EmptyString).
Proof.
  split.
  - intros head body tail Hh Ht. unfold Py.slice_9_m2.
    rewrite !string_length_append, Hh, Ht.
    replace (9 + (String.length body + 2) - 2 - 9)%nat
      with (String.length body) by lia.
    rewrite <- Hh at 1. rewrite substring_skip. apply substring_take.
  - intros s H. unfold Py.slice_9_m2.
    replace (String.length s - 2 - 9)%nat with 0%nat by lia.
    apply substring_none.
Qed.

Lemma slice_unwraps_the_callback_witness :
  Py.slice_9_m2 ("callback(" ++ "{}" ++ ");")%string = "{}".
Proof.
  apply (proj1 slice_unwraps_the_callback "callback(" "{}" ");");
    reflexivity.
Defined.

Lemma after_last_slash_none (s : string) :
  Mercari.after_last_slash s = None
  <-> ~ In "/"%char (list_ascii_of_string s).
Proof.
  induction s as [ | ch s IH ]; simpl.
  - tauto.
  - destruct (Mercari.after_last_slash s) as [ t | ].
    + split; [ discriminate | ]. intros N. exfalso.
      assert (F : ~ In "/"%char (list_ascii_of_string s)) by tauto.
      apply IH in F. discriminate.
    + destruct (Ascii.eqb ch "/") eqn:E.
      * apply Ascii.eqb_eq in E. split; [ discriminate | ].
        intros N. exfalso. apply N. left. exact E.
      * apply Ascii.eqb_neq in E. split; [ | reflexivity ].
        intros _ [ H | H ]; [ contradiction | ].
        apply IH in H; auto.
Qed.

Lemma after_last_slash_some (p t : string) :
  ~ In "/"%char (list_ascii_of_string t) ->
  Mercari.after_last_slash (p ++ String "/" t)%string = Some t.
Proof.
  intros N. induction p as [ | ch p IH ]; simpl.
  - apply after_last_slash_none in N. rewrite N. reflexivity.
  - rewrite IH. reflexivity.
Qed.

Lemma after_last_slash_split (s t : string) :
  Mercari.after_last_slash s = Some t ->
  exists p, s = (p ++ String "/" t)%string
            /\ ~ In "/"%char (list_ascii_of_string t).
Proof.
  revert t. induction s as [ | ch s IH ]; simpl; intros t H.
  - discriminate.
  - destruct (Mercari.after_last_slash s) as [ t0 | ] eqn:A.
    + inversion H. subst t0. destruct (IH t eq_refl) as (p & E & N).
      exists (String ch p). simpl. rewrite E. auto.
    + destruct (Ascii.eqb ch "/") eqn:E; [ | discriminate ].
      apply Ascii.eqb_eq in E. inversion H. subst.
      exists EmptyString. split; [ reflexivity | ].
      apply after_last_slash_none. exact A.
Qed.

(** X17.  [MercariManager._get_image_url] keeps what follows the last
    slash of the thumbnail url and puts it under the fixed photo path;
    it raises [IndexError] exactly when the url has no slash. *)
Theorem image_url_keeps_the_file_name :
  (forall path name : string,
      ~ In "/"%char (list_ascii_of_string name) ->
      Mercari._get_image_url (path ++ String "/" name)%string
      = Return
          ("https://static.mercdn.net/item/detail/orig/photos/" ++ name)
          %string)
  /\ (forall url : string,
        Mercari._get_image_url url = Raise IndexError
        <-> ~ In "/"%char (list_ascii_of_string url))
  /\ (forall url out : string,
        Mercari._get_image_url url = Return out ->
        exists path name,
          url = (path ++ String "/" name)%string
          /\ ~ In "/"%char (list_ascii_of_string name)
          /\ out
             = ("https://static.mercdn.net/item/detail/orig/photos/"
                ++ name)%string).
Proof.
  split; [ | split ].
  - intros path name N. unfold Mercari._get_image_url.
    rewrite (after_last_slash_some path name N). reflexivity.
  - intros url. unfold Mercari._get_image_url.
    rewrite <- after_last_slash_none.
    destruct (Mercari.after_last_slash url); split; congruence.
  - intros url out. unfold Mercari._get_image_url.
    destruct (Mercari.after_last_slash url) as [ name | ] eqn:A;
      [ | discriminate ].
    intros H. inversion H.
    destruct (after_last_slash_split url name A) as (path & E & N).
    exists path, name. auto.
Qed.

Lemma image_url_keeps_the_file_name_witness :
  Mercari._get_image_url
    ("https://static.mercdn.net/thumb" ++ String "/" "m1.jpg")%string
  = Return
      ("https://static.mercdn.net/item/detail/orig/photos/" ++ "m1.jpg")
      %string.
Proof.
  apply (proj1 image_url_keeps_the_file_name
           "https://static.mercdn.net/thumb" "m1.jpg").
  simpl. intuition discriminate.
Defined.

Lemma make_items_returns (data : list Mercari.RawItem)
    (items : list Mercari.Item) :
  Mercari.make_items data = Return items ->
  Forall2
    (fun raw it =>
       Mercari.make_item raw = Return it
       /\ Mercari.item_id it = Mercari.raw_id raw
       /\ Mercari.seller_id it = Mercari.raw_seller raw
       /\ Mercari.title it = Mercari.raw_name raw
       /\ Mercari.price it = Mercari.raw_price raw
       /\ Mercari.item_url it
          = ("https://jp.mercari.com/item/" ++ Mercari.raw_id raw)%string
       /\ (exists url rest,
             Mercari.raw_thumbnails raw = url :: rest
             /\ Mercari._get_image_url url = Return (Mercari.image_url it))
       /\ (Mercari.onsale it = 1 \/ Mercari.onsale it = 0)
       /\ (Mercari.onsale it = 1 <-> Mercari.raw_status raw = "on_sale"))
    data items.
Proof.
  revert items. induction data as [ | raw data IH ]; simpl; intros items H.
  - inversion H. constructor.
  - destruct (Mercari.make_item raw) as [ it | e ] eqn:M; [ | discriminate ].
    destruct (Mercari.make_items data) as [ its | e ]; [ | discriminate ].
    inversion H. subst items. constructor; [ | apply IH; reflexivity ].
    split; [ exact M | ].
    unfold Mercari.make_item, Mercari.first_thumbnail in M.
    destruct (Mercari.raw_thumbnails raw) as [ | url rest ];
      [ discriminate | ].
    destruct (Mercari._get_image_url url) as [ img | e ] eqn:G;
      [ | discriminate ].
    inversion M. subst it. simpl.
    assert (T : exists url0 rest0,
               url :: rest = url0 :: rest0
               /\ Mercari._get_image_url url0 = Return img).
    { exists url, rest. auto. }
    destruct (String.eqb (Mercari.raw_status raw) "on_sale") eqn:S.
    + apply String.eqb_eq in S. repeat split; auto.
    + apply String.eqb_neq in S. repeat split; auto.
      * intros F. exfalso. lia.
      * intros F. contradiction.
Qed.

(** An element without a usable first thumbnail ends the loop. *)
Lemma make_items_raises (data : list Mercari.RawItem)
    (raw : Mercari.RawItem) :
  In raw data ->
  Mercari.raw_thumbnails raw = []
  \/ (exists url rest,
        Mercari.raw_thumbnails raw = url :: rest
        /\ ~ In "/"%char (list_ascii_of_string url)) ->
  Mercari.make_items data = Raise IndexError.
Proof.
  intros Hin Bad.
  assert (B : Mercari.make_item raw = Raise IndexError).
  { unfold Mercari.make_item, Mercari.first_thumbnail.
    destruct Bad as [ E | (url & rest & E & N) ]; rewrite E.
    - reflexivity.
    - apply after_last_slash_none in N.
      unfold Mercari._get_image_url. rewrite N. reflexivity. }
  assert (Only : forall r e, Mercari.make_item r = Raise e -> e = IndexError).
  { intros r e. unfold Mercari.make_item, Mercari.first_thumbnail.
    destruct (Mercari.raw_thumbnails r) as [ | url rest ].
    - intros H. inversion H. reflexivity.
    - unfold Mercari._get_image_url.
      destruct (Mercari.after_last_slash url); intros H; inversion H.
      reflexivity. }
  induction data as [ | r data IH ]; simpl in *.
  - contradiction.
  - destruct (Mercari.make_item r) as [ it | e ] eqn:M.
    + destruct Hin as [ E | Hin ]; [ subst r; congruence | ].
      rewrite (IH Hin). reflexivity.
    + rewrite (Only r e M). reflexivity.
Qed.

(** X18.  Building the Mercari items of one answer (the loop of
    [get_item] over ['data'], for elements that carry the keys it reads
    with the types of the API): when it returns, there is one item per
    element, in order, with the element's id, seller, name and price, the
    item page url made from the id, the image url made from the first
    thumbnail, and [onsale] 1 or 0, 1 exactly for the status
    ["on_sale"]. *)
Theorem mercari_items_follow_the_answer :
  forall data items,
    Mercari.make_items data = Return items ->
    Forall2
      (fun raw it =>
         Mercari.make_item raw = Return it
         /\ Mercari.item_id it = Mercari.raw_id raw
         /\ Mercari.seller_id it = Mercari.raw_seller raw
         /\ Mercari.title it = Mercari.raw_name raw
         /\ Mercari.price it = Mercari.raw_price raw
         /\ Mercari.item_url it
            = ("https://jp.mercari.com/item/" ++ Mercari.raw_id raw)%string
         /\ (exists url rest,
               Mercari.raw_thumbnails raw = url :: rest
               /\ Mercari._get_image_url url
                  = Return (Mercari.image_url it))
         /\ (Mercari.onsale it = 1 \/ Mercari.onsale it = 0)
         /\ (Mercari.onsale it = 1
             <-> Mercari.raw_status raw = "on_sale"))
      data items.
Proof.
  apply make_items_returns.
Qed.

Lemma mercari_items_follow_the_answer_witness :
  Forall2
    (fun raw it =>
       Mercari.make_item raw = Return it
       /\ Mercari.item_id it = Mercari.raw_id raw
       /\ Mercari.seller_id it = Mercari.raw_seller raw
       /\ Mercari.title it = Mercari.raw_name raw
       /\ Mercari.price it = Mercari.raw_price raw
       /\ Mercari.item_url it
          = ("https://jp.mercari.com/item/" ++ Mercari.raw_id raw)%string
       /\ (exists url rest,
             Mercari.raw_thumbnails raw = url :: rest
             /\ Mercari._get_image_url url = Return (Mercari.image_url it))
       /\ (Mercari.onsale it = 1 \/ Mercari.onsale it = 0)
       /\ (Mercari.onsale it = 1 <-> Mercari.raw_status raw = "on_sale"))
    [Sample.M.raw_1] [Sample.M.item_1].
Proof.
  apply (mercari_items_follow_the_answer [Sample.M.raw_1]
           [Sample.M.item_1]).
  reflexivity.
Defined.

(** X22.  One element without a usable first thumbnail fails the whole
    answer (for elements that carry the keys the loop reads): when some
    element of ['data'] has an empty thumbnail list, or a first thumbnail
    url without a slash, the loop raises [IndexError] and builds no
    item. *)
Theorem one_bad_thumbnail_fails_the_answer :
  forall (data : list Mercari.RawItem) (raw : Mercari.RawItem),
    In raw data ->
    Mercari.raw_thumbnails raw = []
    \/ (exists url rest,
          Mercari.raw_thumbnails raw = url :: rest
          /\ ~ In "/"%char (list_ascii_of_string url)) ->
    Mercari.make_items data = Raise IndexError.
Proof.
  apply make_items_raises.
Qed.

Lemma one_bad_thumbnail_fails_the_answer_witness :
  Mercari.make_items
    [Sample.M.raw_1;
     Mercari.mkRawItem "m9" "s9" "nine" [] 10 "on_sale"]
  = Raise IndexError.
Proof.
  apply (one_bad_thumbnail_fails_the_answer
           [Sample.M.raw_1;
            Mercari.mkRawItem "m9" "s9" "nine" [] 10 "on_sale"]
           (Mercari.mkRawItem "m9" "s9" "nine" [] 10 "on_sale")).
  - simpl. right. left. reflexivity.
  - left. reflexivity.
Defined.

(** ** The report of a run *)

Section LashinbangReport.
Variable net : nat -> Request -> Response string.
Variable page_count : string -> option Z.
Variable decode : string -> Lashinbang.Decoded.
Variable accepts : Lashinbang.Item -> bool.
Variable watermark : string -> list LogRow -> Q.
Variable now : Q.

Lemma lashinbang_main_flag (kws : list string) (db : Store Lashinbang.Row)
    (upd : bool) new discount third (flag : bool) :
  snd (Lashinbang.main net page_count decode accepts watermark now kws db upd)
  = Return (new, discount, third, flag) ->
  (flag = true <-> new = [] /\ discount = [] /\ third = []).
Proof.
  unfold Lashinbang.main.
  destruct (Lashinbang.get_item net page_count decode accepts
              (Lashinbang.new_manager watermark now kws db))
    as (m1, [ [] | e ]); simpl; [ | discriminate ].
  unfold Lashinbang.get_message.
  pose proof (lashinbang_compare_counts m1) as N. cbv zeta in N.
  destruct (Lashinbang.compare m1) as (m2, ((n, d), t)). simpl in *.
  destruct N as (N1 & N2 & N3 & _).
  intros H. inversion H as [ [ E1 E2 E3 E4 ] ]. subst n d t.
  assert (I : info (if upd then Lashinbang.update m2 else m2) = info m2).
  { destruct upd; reflexivity. }
  rewrite I. unfold Lashinbang.no_sound. rewrite N1, N2, N3.
  destruct new, discount, third; simpl; split; intros A;
    try discriminate; try reflexivity; auto;
    destruct A as (A1 & A2 & A3); discriminate.
Qed.

Lemma lashinbang_first_run (kws : list string) (db : Store Lashinbang.Row)
    (upd : bool) r :
  (watermark "lashinbang" (log db) == 0)%Q ->
  snd (Lashinbang.main net page_count decode accepts watermark now kws db upd) = Return r ->
  r = ([], [], [], true).
Proof.
  intros Z. unfold Lashinbang.main.
  pose proof (lashinbang_get_item_info net page_count decode accepts
                (Lashinbang.new_manager watermark now kws db)) as I.
  simpl in I. destruct I as (_ & _ & I3).
  destruct (Lashinbang.get_item net page_count decode accepts
              (Lashinbang.new_manager watermark now kws db))
    as (m1, [ [] | e ]); simpl in *; [ | discriminate ].
  unfold Lashinbang.get_message.
  rewrite <- I3 in Z.
  rewrite (LashinbangFacts.lashinbang_compare_first_run m1 Z).
  intros H. inversion H. destruct upd; reflexivity.
Qed.
End LashinbangReport.

Section MercariReport.
Variable net : nat -> Request -> Response Mercari.Payload.
Variable accepts : Mercari.Item -> bool.
Variable watermark : string -> list LogRow -> Q.
Variable now : Q.

Lemma mercari_main_flag (kws : list string) (db : Store Mercari.Row)
    (upd : bool) new discount third (flag : bool) :
  snd (Mercari.main net accepts watermark now kws db upd)
  = Return (new, discount, third, flag) ->
  (flag = true <-> new = [] /\ discount = [] /\ third = []).
Proof.
  unfold Mercari.main.
  destruct (Mercari.get_item net accepts
              (Mercari.new_manager watermark now kws db))
    as (m1, [ [] | e ]); simpl; [ | discriminate ].
  unfold Mercari.get_message.
  pose proof (mercari_compare_counts m1) as N. cbv zeta in N.
  destruct (Mercari.compare m1) as (m2, ((n, d), t)). simpl in *.
  destruct N as (N1 & N2 & N3 & _).
  intros H. inversion H as [ [ E1 E2 E3 E4 ] ]. subst n d t.
  assert (I : info (if upd then Mercari.update m2 else m2) = info m2).
  { destruct upd; reflexivity. }
  rewrite I. unfold Mercari.no_sound. rewrite N1, N2, N3.
  destruct new, discount, third; simpl; split; intros A;
    try discriminate; try reflexivity; auto;
    destruct A as (A1 & A2 & A3); discriminate.
Qed.

Lemma mercari_first_run (kws : list string) (db : Store Mercari.Row)
    (upd : bool) r :
  (watermark "mercari" (log db) == 0)%Q ->
  snd (Mercari.main net accepts watermark now kws db upd) = Return r ->
  r = ([], [], [], true).
Proof.
  intros Z. unfold Mercari.main.
  pose proof (mercari_get_item_info net accepts
                (Mercari.new_manager watermark now kws db)) as I.
  simpl in I. destruct I as (_ & _ & I3).
  destruct (Mercari.get_item net accepts
              (Mercari.new_manager watermark now kws db))
    as (m1, [ [] | e ]); simpl in *; [ | discriminate ].
  unfold Mercari.get_message.
  rewrite <- I3 in Z.
  rewrite (MercariFacts.mercari_compare_first_run m1 Z).
  intros H. inversion H. destruct upd; reflexivity.
Qed.
End MercariReport.

Section YahooReport.
Variable net : nat -> Request -> Response string.
Variable parse : string -> Yahoo.Parsed.
Variable accepts : Yahoo.Item -> bool.
Variable watermark : string -> list LogRow -> Q.
Variable now : Q.

Lemma yahoo_main_flag (kws : list string) (db : Store Yahoo.Row)
    (upd : bool) new discount third (flag : bool) :
  snd (Yahoo.main net parse accepts watermark now kws db upd)
  = Return (new, discount, third, flag) ->
  (flag = true <-> new = [] /\ discount = [] /\ third = []).
Proof.
  unfold Yahoo.main.
  destruct (Yahoo.get_item net parse accepts
              (Yahoo.new_manager watermark now kws db))
    as (m1, [ [] | e ]); simpl; [ | discriminate ].
  unfold Yahoo.get_message.
  pose proof (yahoo_compare_counts m1) as N. cbv zeta in N.
  destruct (Yahoo.compare m1) as (m2, ((n, d), t)). simpl in *.
  destruct N as (N1 & N2 & N3 & _).
  intros H. inversion H as [ [ E1 E2 E3 E4 ] ]. subst n d t.
  assert (I : info (if upd then Yahoo.update m2 else m2) = info m2).
  { destruct upd; reflexivity. }
  rewrite I. unfold Yahoo.no_sound. rewrite N1, N2, N3.
  destruct new, discount, third; simpl; split; intros A;
    try discriminate; try reflexivity; auto;
    destruct A as (A1 & A2 & A3); discriminate.
Qed.

Lemma yahoo_first_run (kws : list string) (db : Store Yahoo.Row)
    (upd : bool) r :
  (watermark "yahoo" (log db) == 0)%Q ->
  snd (Yahoo.main net parse accepts watermark now kws db upd) = Return r ->
  r = ([], [], [], true).
Proof.
  intros Z. unfold Yahoo.main.
  pose proof (yahoo_get_item_info net parse accepts
                (Yahoo.new_manager watermark now kws db)) as I.
  simpl in I. destruct I as (_ & _ & I3).
  destruct (Yahoo.get_item net parse accepts
              (Yahoo.new_manager watermark now kws db))
    as (m1, [ [] | e ]); simpl in *; [ | discriminate ].
  unfold Yahoo.get_message.
  rewrite <- I3 in Z.
  rewrite (YahooFacts.yahoo_compare_first_run m1 Z).
  intros H. inversion H. destruct upd; reflexivity.
Qed.
End YahooReport.

(** X19.  The flag [disable_notification] that [main] returns is true
    exactly when the three lists of the report are empty, in every
    adapter and for either value of [update]. *)
Theorem notification_is_silent_iff_report_is_empty :
  (forall net page_count decode accepts watermark now kws db upd
          new discount sold flag,
      snd (Lashinbang.main net page_count decode accepts watermark now kws
             db upd)
      = Return (new, discount, sold, flag) ->
      (flag = true <-> new = [] /\ discount = [] /\ sold = []))
  /\ (forall net accepts watermark now kws db upd new discount sold flag,
      snd (Mercari.main net accepts watermark now kws db upd)
      = Return (new, discount, sold, flag) ->
      (flag = true <-> new = [] /\ discount = [] /\ sold = []))
  /\ (forall net parse accepts watermark now kws db upd
          new discount bid flag,
      snd (Yahoo.main net parse accepts watermark now kws db upd)
      = Return (new, discount, bid, flag) ->
      (flag = true <-> new = [] /\ discount = [] /\ bid = [])).
Proof.
  split; [ | split ]; intros.
  - eapply lashinbang_main_flag; eassumption.
  - eapply mercari_main_flag; eassumption.
  - eapply yahoo_main_flag; eassumption.
Qed.

Lemma notification_is_silent_iff_report_is_empty_witness :
  (false = true
   <-> @nil Lashinbang.Item = []
       /\ [Lashinbang.mkDiscount 42 "A" "https://shop/42" "https://img/42"
             1000 800] = []
       /\ [Lashinbang.cols Sample.L.persisted_B] = [])
  /\ (false = true
      <-> @nil Mercari.Entry = [] /\ @nil Mercari.Discount = []
          /\ [Mercari.entry (Mercari.stage Sample.M.item_1)] = [])
  /\ (true = true
      <-> @nil Yahoo.Entry = [] /\ @nil Yahoo.Discount = []
          /\ @nil Yahoo.Bid = []).
Proof.
  destruct notification_is_silent_iff_report_is_empty as (HL & HM & HY).
  split; [ | split ].
  - apply (HL Sample.L.net_ok Sample.L.page_count Sample.L.decode
             Sample.L.accepts_all Sample.L.watermark (Sample.q 200) ["A"]
             Sample.L.db false).
    vm_compute. reflexivity.
  - apply (HM Sample.M.net_ok Sample.M.accepts_all Sample.M.watermark
             (Sample.q 200) ["one"] Sample.M.db false).
    vm_compute. reflexivity.
  - apply (HY Sample.Y.net_timeout Sample.Y.parse Sample.Y.accepts_all
             Sample.Y.watermark (Sample.q 200100) ["one"] Sample.Y.db false).
    vm_compute. reflexivity.
Defined.

(** X20.  A first run reports nothing: when the watermark derived from
    the log is zero, a [main] that returns gives three empty lists and
    [disable_notification] true, in every adapter, whatever was fetched
    and for either value of [update]. *)
Theorem first_run_is_silent :
  (forall net page_count decode accepts watermark now kws db upd r,
      (watermark "lashinbang" (log db) == 0)%Q ->
      snd (Lashinbang.main net page_count decode accepts watermark now kws
             db upd) = Return r ->
      r = ([], [], [], true))
  /\ (forall net accepts watermark now kws db upd r,
      (watermark "mercari" (log db) == 0)%Q ->
      snd (Mercari.main net accepts watermark now kws db upd) = Return r ->
      r = ([], [], [], true))
  /\ (forall net parse accepts watermark now kws db upd r,
      (watermark "yahoo" (log db) == 0)%Q ->
      snd (Yahoo.main net parse accepts watermark now kws db upd)
      = Return r ->
      r = ([], [], [], true)).
Proof.
  split; [ | split ]; intros.
  - eapply lashinbang_first_run; eassumption.
  - eapply mercari_first_run; eassumption.
  - eapply yahoo_first_run; eassumption.
Qed.

Lemma first_run_is_silent_witness :
  match
    snd (Lashinbang.main Sample.L.net_ok Sample.L.page_count Sample.L.decode
           Sample.L.accepts_all (fun _ _ => 0%Q) (Sample.q 200) ["A"]
           Sample.L.db true)
  with
  | Return r => r
  | Raise _ => ([], [], [], false)
  end = ([], [], [], true)
  /\ match
       snd (Mercari.main Sample.M.net_ok Sample.M.accepts_all
              (fun _ _ => 0%Q) (Sample.q 200) ["one"] Sample.M.db true)
     with
     | Return r => r
     | Raise _ => ([], [], [], false)
     end = ([], [], [], true)
  /\ match
       snd (Yahoo.main Sample.Y.net_ok Sample.Y.parse Sample.Y.accepts_all
              (fun _ _ => 0%Q) (Sample.q 200100) ["one"] Sample.Y.db true)
     with
     | Return r => r
     | Raise _ => ([], [], [], false)
     end = ([], [], [], true).
Proof.
  destruct first_run_is_silent as (HL & HM & HY).
  split; [ | split ].
  - apply (HL Sample.L.net_ok Sample.L.page_count Sample.L.decode
             Sample.L.accepts_all (fun _ _ => 0%Q) (Sample.q 200) ["A"]
             Sample.L.db true).
    + apply Qeq_refl.
    + vm_compute. reflexivity.
  - apply (HM Sample.M.net_ok Sample.M.accepts_all (fun _ _ => 0%Q)
             (Sample.q 200) ["one"] Sample.M.db true).
    + apply Qeq_refl.
    + vm_compute. reflexivity.
  - apply (HY Sample.Y.net_ok Sample.Y.parse Sample.Y.accepts_all
             (fun _ _ => 0%Q) (Sample.q 200100) ["one"] Sample.Y.db true).
    + apply Qeq_refl.
    + vm_compute. reflexivity.
Defined.

(** ** The scheduled run, site after site *)

(** X21.  [bot_autorun.main] has no handler around the three calls: the
    first site whose [main] raises ends the run with that exception, and
    the sites after it are not run (their staging tables keep the rows
    of the run before).  In particular, when the Lashinbang age check
    gets no good answer, the whole run ends there: the only change to the
    database file is the emptied Lashinbang staging table. *)
Theorem autorun_stops_at_first_failure :
  forall (net_l : nat -> Request -> Response string)
         (page_count : string -> option Z)
         (decode : string -> Lashinbang.Decoded)
         (accepts_l : Lashinbang.Item -> bool)
         (net_m : nat -> Request -> Response Mercari.Payload)
         (accepts_m : Mercari.Item -> bool)
         (net_y : nat -> Request -> Response string)
         (parse : string -> Yahoo.Parsed)
         (accepts_y : Yahoo.Item -> bool)
         (watermark : string -> list LogRow -> Q)
         (now_l now_m now_y : Q)
         (config : Autorun.Config) (db : Autorun.Database),
    let run :=
      Autorun.main net_l page_count decode accepts_l net_m accepts_m
        net_y parse accepts_y watermark now_l now_m now_y config db in
    let first :=
      Autorun.lashinbang_main net_l page_count decode accepts_l watermark
        now_l (Autorun.cfg_lashinbang config) db in
    (forall e,
        snd first = Raise e ->
        run = (fst first, Raise e)
        /\ Autorun.mercari_temp (fst run) = Autorun.mercari_temp db
        /\ Autorun.yahoo_temp (fst run) = Autorun.yahoo_temp db)
    /\ (forall r e,
          snd first = Return r ->
          snd (Autorun.mercari_main net_m accepts_m watermark now_m
                 (Autorun.cfg_mercari config) (fst first)) = Raise e ->
          snd run = Raise e
          /\ Autorun.yahoo_temp (fst run) = Autorun.yahoo_temp db)
    /\ ((forall body, net_l 0%nat AgeCheck <> Body body) ->
        exists e,
          run
          = (Autorun.mkDatabase (Autorun.lashinbang db) []
               (Autorun.mercari db) (Autorun.mercari_temp db)
               (Autorun.yahoo db) (Autorun.yahoo_temp db) (Autorun.log db),
             Raise e)).
Proof.
  intros. subst run first. unfold Autorun.main. split; [ | split ].
  - intros e H.
    destruct (Autorun.lashinbang_main net_l page_count decode accepts_l
                watermark now_l (Autorun.cfg_lashinbang config) db)
      as (db1, r1) eqn:L.
    simpl in H. subst r1. simpl. split; [ reflexivity | ].
    unfold Autorun.lashinbang_main in L.
    destruct (Lashinbang.main net_l page_count decode accepts_l watermark
                now_l (Autorun.cfg_lashinbang config)
                (Autorun.lashinbang_store db) false) as (s, r).
    inversion L. subst db1. simpl. auto.
  - intros r e H HM.
    destruct (Autorun.lashinbang_main net_l page_count decode accepts_l
                watermark now_l (Autorun.cfg_lashinbang config) db)
      as (db1, r1) eqn:L.
    simpl in H, HM. subst r1. destruct r as (msg_l, f_l).
    destruct (Autorun.mercari_main net_m accepts_m watermark now_m
                (Autorun.cfg_mercari config) db1) as (db2, r2) eqn:M.
    simpl in HM. subst r2. simpl. split; [ reflexivity | ].
    unfold Autorun.mercari_main in M.
    destruct (Mercari.main net_m accepts_m watermark now_m
                (Autorun.cfg_mercari config) (Autorun.mercari_store db1)
                false) as (s2, r2).
    inversion M. subst db2. simpl.
    unfold Autorun.lashinbang_main in L.
    destruct (Lashinbang.main net_l page_count decode accepts_l watermark
                now_l (Autorun.cfg_lashinbang config)
                (Autorun.lashinbang_store db) false) as (s, r).
    inversion L. subst db1. reflexivity.
  - intros A.
    unfold Autorun.lashinbang_main, Lashinbang.main, Lashinbang.get_item,
      Lashinbang.get_many, Lashinbang.pass_age_check.
    simpl.
    destruct (net_l 0%nat AgeCheck) as [ body | | ] eqn:N.
    + exfalso. apply (A body). reflexivity.
    + simpl. eexists. reflexivity.
    + simpl. eexists. reflexivity.
Qed.

Lemma autorun_stops_at_first_failure_witness :
  exists e,
    Autorun.main (fun _ _ => TimedOut) Sample.L.page_count
      Sample.L.decode Sample.L.accepts_all Sample.M.net_ok
      Sample.M.accepts_all Sample.Y.net_ok Sample.Y.parse
      Sample.Y.accepts_all Sample.L.watermark (Sample.q 200) (Sample.q 200)
      (Sample.q 200)
      (Autorun.mkConfig ["A"] ["one"] ["one"])
      (Autorun.mkDatabase [Sample.L.persisted_A] [Sample.L.staged_A]
         [Sample.M.persisted_2] [Sample.M.staged_1] [Sample.Y.persisted_1]
         [Sample.Y.staged_1] [])
    = (Autorun.mkDatabase [Sample.L.persisted_A] [] [Sample.M.persisted_2]
         [Sample.M.staged_1] [Sample.Y.persisted_1] [Sample.Y.staged_1] [],
       Raise e).
Proof.
  apply (autorun_stops_at_first_failure (fun _ _ => TimedOut)
           Sample.L.page_count Sample.L.decode Sample.L.accepts_all
           Sample.M.net_ok Sample.M.accepts_all Sample.Y.net_ok
           Sample.Y.parse Sample.Y.accepts_all Sample.L.watermark
           (Sample.q 200) (Sample.q 200) (Sample.q 200)
           (Autorun.mkConfig ["A"] ["one"] ["one"])
           (Autorun.mkDatabase [Sample.L.persisted_A] [Sample.L.staged_A]
              [Sample.M.persisted_2] [Sample.M.staged_1]
              [Sample.Y.persisted_1] [Sample.Y.staged_1] [])).
  intros body. discriminate.
Defined.
